(** * mc-launcher: a shallow embedding of the launcher core

    The development follows the JavaScript sources of the launcher:
    - [utils/Index.js]       (Maven coordinates, library rules),
    - [utils/Downloader.js]  (bounded concurrent downloads, speed and ETA),
    - [loader/forge/forge.js] (installer download, library plan),
    - [Launcher/Launch.js]   (option defaults, redacted command log,
                              process supervision, mod staging),
    - [launcher-wrapper.js]  (the [isRunning] gate of the public API).

    Part I gives the definitions, Part II the properties. *)

From Stdlib Require Import ZArith Lia Ascii String List Bool QArith.
From stdpp Require Import base option list gmap strings pretty.

Set Default Proof Using "Type".
Open Scope Z_scope.

(* ===================================================================== *)
(** * Part I -- the embedding                                             *)
(* ===================================================================== *)

(** ** JavaScript strings

    Strings are sequences of bytes (UTF-8); the operations below are the
    [String.prototype] methods the sources call, with the argument order
    of the method call ([includes s p] is [s.includes(p)]).  The separators
    and patterns the sources use are ASCII, for which searching bytes and
    searching UTF-16 code units agree. *)
Module JsString.

(** [s.startsWith(p)] *)
Fixpoint startsWith (s p : string) : bool :=
  match p, s with
  | EmptyString, _ => true
  | String _ _, EmptyString => false
  | String a p', String b s' => Ascii.eqb a b && startsWith s' p'
  end.

(** [s.includes(p)] *)
Fixpoint includes (s p : string) : bool :=
  startsWith s p ||
  match s with
  | EmptyString => false
  | String _ s' => includes s' p
  end.

(** [s.split(sep)] for a one-character separator; never returns [[]]. *)
Fixpoint split (sep : ascii) (s : string) : list string :=
  match s with
  | EmptyString => [EmptyString]
  | String c s' =>
      if Ascii.eqb c sep then EmptyString :: split sep s'
      else match split sep s' with
           | [] => [String c EmptyString]
           | w :: ws => String c w :: ws
           end
  end.

(** [arr.join(sep)] *)
Fixpoint join (sep : string) (l : list string) : string :=
  match l with
  | [] => EmptyString
  | [x] => x
  | x :: tl => x +:+ sep +:+ join sep tl
  end.

(** [arr.pop()] on a fresh array: its last element, [undefined] when empty. *)
Definition pop (l : list string) : option string := List.last (map Some l) None.

(** [s.replace(a, b)] for one-character strings: first occurrence only. *)
Fixpoint replace_char (a b : ascii) (s : string) : string :=
  match s with
  | EmptyString => EmptyString
  | String c s' =>
      if Ascii.eqb c a then String b s' else String c (replace_char a b s')
  end.

(** [s.replace(/a/g, b)] for a one-character class: every occurrence. *)
Fixpoint replace_char_g (a b : ascii) (s : string) : string :=
  match s with
  | EmptyString => EmptyString
  | String c s' =>
      String (if Ascii.eqb c a then b else c) (replace_char_g a b s')
  end.

(** Scanner of [replaceAll] for a non-empty pattern: [skip] counts the code
    units of the current match that are still to be dropped. *)
Fixpoint replaceAll_scan (p r : string) (skip : nat) (s : string) : string :=
  match s with
  | EmptyString => EmptyString
  | String c s' =>
      match skip with
      | S k => replaceAll_scan p r k s'
      | O =>
          if startsWith s p
          then r +:+ replaceAll_scan p r (Nat.pred (String.length p)) s'
          else String c (replaceAll_scan p r O s')
      end
  end.

(** Empty pattern: the replacement is inserted at every position. *)
Fixpoint intersperse_all (r : string) (s : string) : string :=
  match s with
  | EmptyString => r
  | String c s' => r +:+ String c (intersperse_all r s')
  end.

(** [s.replaceAll(p, r)] for a string pattern: leftmost matches, not
    overlapping, scanned left to right. *)
Definition replaceAll (s p r : string) : string :=
  match p with
  | EmptyString => intersperse_all r s
  | String _ _ => replaceAll_scan p r O s
  end.

(** [s.slice(0, n)] *)
Fixpoint slice0 (n : nat) (s : string) : string :=
  match n, s with
  | S k, String c s' => String c (slice0 k s')
  | _, _ => EmptyString
  end.

(** Template-literal and argument coercion of a possibly undefined string:
    [`${undefined}`] and [String(undefined)] are ["undefined"]. *)
Definition to_str (o : option string) : string :=
  match o with Some s => s | None => "undefined" end.

(** Truthiness of a possibly undefined string. *)
Definition truthy (o : option string) : bool :=
  match o with
  | Some (String _ _) => true
  | _ => false
  end.

(** [o || d] for a possibly undefined string [o]. *)
Definition or_else (o : option string) (d : string) : string :=
  match o with
  | Some (String c s) => String c s
  | _ => d
  end.

(** No code unit of [s] is [c]. *)
Fixpoint free_of (c : ascii) (s : string) : bool :=
  match s with
  | EmptyString => true
  | String a s' => negb (Ascii.eqb a c) && free_of c s'
  end.

(** A pattern is maskable when it is non-empty and has no question mark. *)
Definition maskable (q : string) : Prop := q <> "" /\ free_of "?" q = true.

(** [s.slice(n)] *)
Fixpoint slice_from (n : nat) (s : string) : string :=
  match n, s with
  | S k, String _ s' => slice_from k s'
  | _, _ => s
  end.

(** The replacement text of [String.prototype.replace] for a pattern
    without capture groups: in [r], [$$] stands for a dollar, [$&] for the
    match, [$`] for the text before it and [$'] for the text after it; any
    other dollar stands for itself. *)
Fixpoint substitution (matched before after r : string) : string :=
  match r with
  | EmptyString => EmptyString
  | String c r' =>
      if Ascii.eqb c "$" then
        match r' with
        | String d r'' =>
            if Ascii.eqb d "$" then
              String "$" (substitution matched before after r'')
            else if Ascii.eqb d "&" then
              matched +:+ substitution matched before after r''
            else if Ascii.eqb d "`" then
              before +:+ substitution matched before after r''
            else if Ascii.eqb d "'" then
              after +:+ substitution matched before after r''
            else String c (substitution matched before after r')
        | EmptyString => String c EmptyString
        end
      else String c (substitution matched before after r')
  end.

(** Scanner of [s.replace(/p/g, r)] for a regular expression that matches
    the literal, non-empty text [p]: [before] is the part of the subject
    already read, [skip] counts the code units of the current match that
    are still to be dropped. *)
Fixpoint replace_g_scan (p r before : string) (skip : nat) (s : string) : string :=
  match s with
  | EmptyString => EmptyString
  | String c s' =>
      match skip with
      | S k => replace_g_scan p r (before +:+ String c EmptyString) k s'
      | O =>
          if startsWith s p
          then substitution p before (slice_from (String.length p) s) r
               +:+ replace_g_scan p r (before +:+ String c EmptyString)
                     (Nat.pred (String.length p)) s'
          else String c (replace_g_scan p r (before +:+ String c EmptyString) O s')
      end
  end.

Definition replace_g (s p r : string) : string := replace_g_scan p r "" O s.

(** The deletions of [s.replaceAll(p, '')] do not splice an occurrence of
    [f] together: every occurrence of [p] that is deleted starts the result
    or comes right after a character of the result that does not occur in
    [f].  [prev] is the last character written, [skip] as in the
    scanner. *)
Fixpoint unspliced (f p : string) (prev : option ascii) (skip : nat)
    (s : string) : bool :=
  match s with
  | EmptyString => true
  | String c s' =>
      match skip with
      | S k => unspliced f p prev k s'
      | O =>
          if startsWith s p
          then match prev with
               | Some a => free_of a f
               | None => true
               end && unspliced f p prev (Nat.pred (String.length p)) s'
          else unspliced f p (Some c) O s'
      end
  end.

End JsString.

(** ** JavaScript numbers where the sources compare them *)
Module JsNum.

Inductive t :=
| Fin (q : Q)
| NaN
| PosInf
| NegInf.

Definition of_Z (z : Z) : t := Fin (inject_Z z).
Definition of_nat (n : nat) : t := of_Z (Z.of_nat n).

(** [a < b]: false as soon as one side is [NaN]. *)
Definition lt (a b : t) : bool :=
  match a, b with
  | Fin x, Fin y => negb (Qle_bool y x)
  | NegInf, Fin _ | NegInf, PosInf | Fin _, PosInf => true
  | _, _ => false
  end.

(** [a > b] *)
Definition gt (a b : t) : bool := lt b a.

(** The number lies between two integers, bounds included. *)
Definition between (lo hi : Z) (a : t) : Prop :=
  match a with
  | Fin q => (inject_Z lo <= q <= inject_Z hi)%Q
  | _ => False
  end.

End JsNum.

(** ** utils/Index.js *)
Module Index.
Import JsString.

Record PathInfo := {
  path : string;
  name : string;
  version : string
}.

(** [getPathLibraries(main, nativeString, forceExt)].  [None] is the
    [TypeError] raised when the coordinate has fewer than three segments
    ([fileName] is then [undefined] and [fileName.includes] throws). *)
Definition getPathLibraries (main : string)
    (nativeString forceExt : option string) : option PathInfo :=
  let libSplit := split ":" main in
  match libSplit !! 0%nat, libSplit !! 1%nat, libSplit !! 2%nat with
  | Some l0, Some l1, Some l2 =>
      let fileName :=
        if truthy (libSplit !! 3%nat)
        then l2 +:+ "-" +:+ to_str (libSplit !! 3%nat)
        else l2 in
      let finalFileName :=
        if includes fileName "@"
        then replace_char "@" "." fileName
        else fileName +:+ or_else nativeString "" +:+ or_else forceExt ".jar" in
      let pathLib :=
        replace_char_g "." "/" l0 +:+ "/" +:+ l1 +:+ "/" +:+
        to_str (split "@" l2 !! 0%nat) in
      Some {| path := pathLib;
              name := l1 +:+ "-" +:+ finalFileName;
              version := l2 |}
  | _, _, _ => None
  end.

(** A rule of a library entry.  Only the fields the code reads are kept:
    [features] is tested for truthiness (any object is truthy), [os] for
    presence and for its [name]. *)
Record OsClause := { os_name : option string }.

#[export] Instance OsClause_eq_dec : EqDecision OsClause.
Proof. solve_decision. Defined.

Record Rule := {
  action : option string;
  os : option OsClause;
  features : bool
}.

Record Artifact := {
  art_url : option string;
  art_size : Z
}.

Record Library := {
  lib_name : string;
  rules : option (list Rule);
  natives : option (list (string * string));
  artifact : option Artifact
}.

(** The table [LibMap] (called [Lib] in forge.js) indexed by
    [process.platform]; [None] is [undefined]. *)
Definition LibMap (platform : string) : option string :=
  if String.eqb platform "win32" then Some "windows"
  else if String.eqb platform "darwin" then Some "osx"
  else if String.eqb platform "linux" then Some "linux"
  else None.

(** [(rule.os && rule.os.name === LibMap[process.platform]) || !rule.os] *)
Definition os_applies (platform : string) (r : Rule) : bool :=
  match os r with
  | Some o => bool_decide (os_name o = LibMap platform)
  | None => true
  end.

(** One iteration of the loop of [skipLibrary]. *)
Definition rule_step (platform : string) (shouldSkip : bool) (r : Rule) : bool :=
  if features r then shouldSkip
  else if bool_decide (action r = Some "allow") && os_applies platform r
  then false
  else if bool_decide (action r = Some "disallow") && os_applies platform r
  then true
  else shouldSkip.

(** [skipLibrary(lib)] on the platform [process.platform]. *)
Definition skipLibrary (platform : string) (lib : Library) : bool :=
  match rules lib with
  | None => false
  | Some rs => fold_left (rule_step platform) rs true
  end.

(** A rule decides when it has no [features] clause, its OS clause is
    absent or names the running platform, and its action is one of the
    two the loop tests. *)
Definition decisive (platform : string) (r : Rule) : bool :=
  negb (features r) && os_applies platform r
  && (bool_decide (action r = Some "allow")
      || bool_decide (action r = Some "disallow")).

(** The list [mirrors]. *)
Definition mirrors : list string :=
  [ "https://maven.minecraftforge.net";
    "https://maven.neoforged.net/releases";
    "https://maven.creeperhost.net";
    "https://libraries.minecraft.net";
    "https://repo1.maven.org/maven2" ].

End Index.

(** ** The rule evaluation as the specification words it

    Modelled on the sentence of the specification, for comparison with
    [Index.skipLibrary]: a library starts allowed; scanning the rules in
    order, an [allow] rule with no OS clause or with a matching one allows,
    a [disallow] rule whose OS clause matches disallows; a library without
    rules is allowed. *)
Module IndexSpec.
Import Index.

Definition os_matches (platform : string) (r : Rule) : bool :=
  match os r with
  | Some o => bool_decide (os_name o = LibMap platform)
  | None => false
  end.

Definition spec_rule_step (platform : string) (allowed : bool) (r : Rule) : bool :=
  if bool_decide (action r = Some "allow")
     && (bool_decide (os r = None) || os_matches platform r)
  then true
  else if bool_decide (action r = Some "disallow") && os_matches platform r
  then false
  else allowed.

Definition spec_allowed (platform : string) (lib : Library) : bool :=
  match rules lib with
  | None => true
  | Some rs => fold_left (spec_rule_step platform) rs true
  end.

End IndexSpec.

(** ** Values, events, paths and the file system *)

(** The JavaScript values that travel on the event bus. *)
Inductive JsValue :=
| JUndefined
| JNull
| JNum (z : Z)
| JStr (s : string)
| JErrorObj (error : string).   (* an object with an [error] field *)

(** [emitter.emit(name, ...args)] is recorded as a pair. *)
Record Event := { ev_name : string; ev_args : list JsValue }.

Definition emit (name : string) (args : list JsValue) : Event :=
  {| ev_name := name; ev_args := args |}.

(** Node's [path] module on normalised POSIX paths: [path.join] and
    [path.resolve] with an absolute first argument glue the non-empty
    segments with a slash (the treatment of [.] and [..] is not modelled). *)
Module Path.
Definition join (a b : string) : string :=
  match b with
  | EmptyString => a
  | String _ _ => a +:+ "/" +:+ b
  end.
Definition resolve : string -> string -> string := join.
End Path.

(** Node's [fs] module on a map from paths to nodes. *)
Module Fs.
Inductive Node :=
| File (content : string)
| Dir.

Definition existsSync (fs : gmap string Node) (p : string) : bool :=
  bool_decide (is_Some (fs !! p)).

(** The directories [mkdir -p] visits for [p], outermost first: every
    non-empty prefix of [p] that ends just before a slash, then [p]. *)
Fixpoint dir_chain (pre p : string) : list string :=
  match p with
  | EmptyString => if String.eqb pre "" then [] else [pre]
  | String c p' =>
      (if Ascii.eqb c "/" && negb (String.eqb pre "") then [pre] else [])
      ++ dir_chain (pre +:+ String c EmptyString) p'
  end.

Definition mkdir1 (fs : gmap string Node) (d : string) : gmap string Node :=
  if existsSync fs d then fs else <[d := Dir]> fs.

(** [fs.mkdirSync(p, { recursive: true })]: [p] and every missing parent
    are created; what exists is left as it is.  (The errors of Node on an
    empty path and on a parent that is a regular file are not modelled.) *)
Definition mkdirSync (fs : gmap string Node) (p : string) : gmap string Node :=
  fold_left mkdir1 (dir_chain "" p) fs.

(** [if (!fs.existsSync(p)) fs.mkdirSync(p, { recursive: true })] *)
Definition mkdir_if_missing (fs : gmap string Node) (p : string)
  : gmap string Node :=
  if existsSync fs p then fs else mkdirSync fs p.

(** [fs.writeFileSync(p, data)], also the effect of a finished write
    stream opened with flag [w]. *)
Definition writeFileSync (fs : gmap string Node) (p data : string)
  : gmap string Node := <[p := File data]> fs.

(** [fs.copyFileSync(src, dst)]; [None] when [src] is not a file. *)
Definition copyFileSync (fs : gmap string Node) (src dst : string)
  : option (gmap string Node) :=
  match fs !! src with
  | Some (File c) => Some (<[dst := File c]> fs)
  | _ => None
  end.

(** [fs.rmSync(p)] *)
Definition rmSync (fs : gmap string Node) (p : string) : gmap string Node :=
  delete p fs.

Definition readFile (fs : gmap string Node) (p : string) : option string :=
  match fs !! p with
  | Some (File c) => Some c
  | _ => None
  end.
End Fs.

(** What the network answers to a [fetch(url)]: the promise rejects, or a
    body arrives in chunks and the stream then ends, or it fails after
    these chunks; [flushed] is the number of chunks that had reached the
    disk when the write stream was destroyed. *)
Inductive FetchResult :=
| FetchRejected (err : string)
| FetchBody (chunks : list string)
| FetchBroken (chunks : list string) (err : string) (flushed : nat).

(** ** utils/Downloader.js *)
Module Downloader.

(** Outcome of an [async] call: the promise resolves, it rejects, or an
    exception leaves an event handler, so that the promise never settles
    and the exception reaches the host as an uncaught one. *)
Inductive Outcome :=
| Resolved
| Rejected (err : string)
| Uncaught (err : string).

Fixpoint progress_events (downloaded totalSize : Z) (chunks : list string)
  : list Event :=
  match chunks with
  | [] => []
  | ch :: tl =>
      let d := downloaded + Z.of_nat (String.length ch) in
      emit "progress" [JNum d; JNum totalSize] :: progress_events d totalSize tl
  end.

(** [downloadFile(url, dirPath, fileName)] on a downloader that has an
    [error] listener or not ([listening]).  The write stream is opened with
    flag [w] before the request, so the file exists (empty) even when the
    request fails.  When the body fails, the writer is destroyed with the
    chunks flushed so far, and [emit('error', err)] either reaches the
    listener, after which the promise rejects, or throws for want of a
    listener, and [reject] is never reached.  [totalSize] is the parsed
    [content-length]. *)
Definition downloadFile (listening : bool) (remote : string -> FetchResult)
    (totalSize : string -> Z)
    (fs : gmap string Fs.Node) (url dirPath fileName : string)
  : gmap string Fs.Node * list Event * Outcome :=
  let fs1 := Fs.mkdir_if_missing fs dirPath in
  let target := dirPath +:+ "/" +:+ fileName in
  match remote url with
  | FetchRejected e => (Fs.writeFileSync fs1 target "", [], Rejected e)
  | FetchBody chunks =>
      (Fs.writeFileSync fs1 target (JsString.join "" chunks),
       progress_events 0 (totalSize url) chunks, Resolved)
  | FetchBroken chunks e flushed =>
      let fs2 := Fs.writeFileSync fs1 target
                   (JsString.join "" (take flushed chunks)) in
      let evs := progress_events 0 (totalSize url) chunks in
      if listening then (fs2, evs ++ [emit "error" [JStr e]], Rejected e)
      else (fs2, evs, Uncaught e)
  end.

(** *** downloadFileMultiple *)

(** The arithmetic of JavaScript numbers used by the speed aggregator,
    kept abstract: the code only adds, divides and converts counters. *)
Class JsNumber (num : Type) := {
  nadd : num -> num -> num;
  ndiv : num -> num -> num;
  of_Z : Z -> num
}.

Section Multiple.
Context {num : Type} `{JsNumber num}.

Inductive DlEvent :=
| EvProgress (downloaded size : Z) (file : nat)
| EvError (err : string)
| EvSpeed (avgSpeed : num)
| EvEstimated (timeRemaining : num).

(** The variables captured by the closures of [downloadFileMultiple];
    [inflight] holds the indices of the files whose transfer has been
    started by [downloadNext] and has not yet ended or failed, [events]
    what the downloader has emitted, and [uncaught] the errors that
    [emit('error', _)] has thrown for want of a listener. *)
Record State := {
  completed : nat;
  downloaded : Z;
  queued : nat;
  start : Z;
  before : Z;
  speeds : list num;
  inflight : list nat;
  events : list DlEvent;
  uncaught : list string
}.

(** [downloadNext()]: returns at once when the queue is exhausted,
    otherwise takes [files[queued++]] and starts its transfer. *)
Definition downloadNext (nfiles : nat) (st : State) : State :=
  if (nfiles <=? queued st)%nat then st
  else {| completed := completed st; downloaded := downloaded st;
          queued := S (queued st); start := start st; before := before st;
          speeds := speeds st; inflight := inflight st ++ [queued st];
          events := events st; uncaught := uncaught st |}.

(** [if (limit > files.length) limit = files.length;] *)
Definition effective_limit (nfiles : nat) (limit : Z) : Z :=
  if limit >? Z.of_nat nfiles then Z.of_nat nfiles else limit.

(** State after the synchronous part of the call: the counters are
    initialised and [downloadNext] has been called [limit] times. *)
Definition init (nfiles : nat) (limit : Z) (now : Z) : State :=
  Nat.iter (Z.to_nat (effective_limit nfiles limit)) (downloadNext nfiles)
    {| completed := 0; downloaded := 0; queued := 0; start := now;
       before := 0; speeds := []; inflight := []; events := [];
       uncaught := [] |}.

(** The same for a [limit] that is any JavaScript number:
    [if (limit > files.length) limit = files.length;
     for (let i = 0; i < limit; i++) downloadNext();].
    After the first statement the loop can only run for indices below
    [files.length], so it runs once for each of them that is below
    [limit]. *)
Definition starts (nfiles : nat) (limit : JsNum.t) : nat :=
  let limit := if JsNum.gt limit (JsNum.of_nat nfiles)
               then JsNum.of_nat nfiles else limit in
  length (List.filter (fun i => JsNum.lt (JsNum.of_nat i) limit) (seq 0 nfiles)).

Definition init_number (nfiles : nat) (limit : JsNum.t) (now : Z) : State :=
  Nat.iter (starts nfiles limit) (downloadNext nfiles)
    {| completed := 0; downloaded := 0; queued := 0; start := now;
       before := 0; speeds := []; inflight := []; events := [];
       uncaught := [] |}.

(** What can happen next, from the event loop's point of view. *)
Inductive Input :=
| FetchFailed (file : nat) (err : string)   (* catch: network error or abort on timeout *)
| Chunk (file : nat) (len : Z)              (* stream.on('data') *)
| StreamEnd (file : nat)                    (* stream.on('end') *)
| StreamError (file : nat) (err : string)   (* stream.on('error') *)
| Tick (now : Z).                           (* the 500 ms interval *)

Definition remove_inflight (i : nat) (l : list nat) : list nat :=
  filter (fun j => j <> i) l.

(** The [end] handler of a stream: [completed++; downloadNext();] *)
Definition finish_ok (nfiles i : nat) (st : State) : State :=
  downloadNext nfiles
    {| completed := S (completed st); downloaded := downloaded st;
       queued := queued st; start := start st; before := before st;
       speeds := speeds st; inflight := remove_inflight i (inflight st);
       events := events st; uncaught := uncaught st |}.

(** The [catch] block and the [error] handler of a stream:
    [this.emit('error', e); completed++; downloadNext();].  On a downloader
    without [error] listener the [emit] throws [e]: the two statements
    after it are not reached.  A listener that throws in its turn, as the
    one of Launch.js (lines 257-259) that emits the error again on a
    launcher nobody listens to, is as good as none. *)
Definition finish_failed (listening : bool) (nfiles i : nat) (e : string)
    (st : State) : State :=
  if listening then
    downloadNext nfiles
      {| completed := S (completed st); downloaded := downloaded st;
         queued := queued st; start := start st; before := before st;
         speeds := speeds st; inflight := remove_inflight i (inflight st);
         events := events st ++ [EvError e]; uncaught := uncaught st |}
  else
    {| completed := completed st; downloaded := downloaded st;
       queued := queued st; start := start st; before := before st;
       speeds := speeds st; inflight := remove_inflight i (inflight st);
       events := events st; uncaught := uncaught st ++ [e] |}.

(** The three ways a transfer ends. *)
Definition finish (listening : bool) (nfiles i : nat) (err : option string)
    (st : State) : State :=
  match err with
  | Some e => finish_failed listening nfiles i e st
  | None => finish_ok nfiles i st
  end.

(** Body of the [setInterval(..., 500)] callback. *)
Definition tick (size now : Z) (st : State) : State :=
  let duration := ndiv (of_Z (now - start st)) (of_Z 1000) in
  let chunkDownloaded := of_Z (downloaded st - before st) in
  let shifted := if (5 <=? length (speeds st))%nat
                 then tail (speeds st) else speeds st in
  let speeds' := shifted ++ [ndiv chunkDownloaded duration] in
  let avgSpeed :=
    ndiv (fold_left nadd speeds' (of_Z 0)) (of_Z (Z.of_nat (length speeds'))) in
  let timeRemaining := ndiv (of_Z (size - downloaded st)) avgSpeed in
  {| completed := completed st; downloaded := downloaded st;
     queued := queued st; start := now; before := downloaded st;
     speeds := speeds';
     inflight := inflight st;
     events := events st ++ [EvSpeed avgSpeed; EvEstimated timeRemaining];
     uncaught := uncaught st |}.

(** One callback, on a downloader with or without [error] listener.
    [None]: the input names a transfer that is not in flight, which the
    event loop cannot deliver. *)
Definition step (listening : bool) (nfiles : nat) (size : Z) (st : State)
    (i : Input) : option State :=
  match i with
  | FetchFailed f e =>
      if bool_decide (f ∈ inflight st)
      then Some (finish listening nfiles f (Some e) st)
      else None
  | StreamError f e =>
      if bool_decide (f ∈ inflight st)
      then Some (finish listening nfiles f (Some e) st)
      else None
  | StreamEnd f =>
      if bool_decide (f ∈ inflight st)
      then Some (finish listening nfiles f None st)
      else None
  | Chunk f len =>
      if bool_decide (f ∈ inflight st)
      then Some {| completed := completed st;
                   downloaded := downloaded st + len;
                   queued := queued st; start := start st;
                   before := before st; speeds := speeds st;
                   inflight := inflight st;
                   events := events st ++
                             [EvProgress (downloaded st + len) size f];
                   uncaught := uncaught st |}
      else None
  | Tick now => Some (tick size now st)
  end.

Fixpoint run (listening : bool) (nfiles : nat) (size : Z) (st : State)
    (ins : list Input) : option State :=
  match ins with
  | [] => Some st
  | i :: tl =>
      match step listening nfiles size st i with
      | Some st' => run listening nfiles size st' tl
      | None => None
      end
  end.

(** The 100 ms poll: [if (completed === files.length) resolve()]. *)
Definition poll (nfiles : nat) (st : State) : bool :=
  (completed st =? nfiles)%nat.

(** Bookkeeping on a list of inputs. *)
Definition is_terminal (i : Input) : bool :=
  match i with
  | FetchFailed _ _ | StreamEnd _ | StreamError _ _ => true
  | _ => false
  end.

Definition is_failure (i : Input) : bool :=
  match i with
  | FetchFailed _ _ | StreamError _ _ => true
  | _ => false
  end.

(** The callbacks that get to [completed++]: the end of a stream, and a
    failure when its [error] event is heard. *)
Definition counted (listening : bool) (i : Input) : bool :=
  match i with
  | StreamEnd _ => true
  | FetchFailed _ _ | StreamError _ _ => listening
  | _ => false
  end.

Definition is_error_event (e : DlEvent) : bool :=
  match e with EvError _ => true | _ => false end.

(** Number of [error] events in a list of events. *)
Definition errors (l : list DlEvent) : nat :=
  length (List.filter is_error_event l).

(** The states the closures can be in, [L] being the number of initial
    calls of [downloadNext]: every started transfer is counted as
    completed, or in flight, or has ended in an error that was thrown,
    and the queue has advanced by one for every completion as long as
    files were left. *)
Definition wf (nfiles L : nat) (st : State) : Prop :=
  (completed st + length (inflight st) + length (uncaught st) = queued st)%nat
  /\ queued st = Nat.min nfiles (L + completed st)
  /\ NoDup (inflight st)
  /\ Forall (fun f => (f < queued st)%nat) (inflight st).

(** *** The aggregator as the specification words it

    Modelled on the sentences of the specification, for comparison
    with [tick]: every interval yields one byte-rate sample, all are
    kept, the speed is the mean of the last five at most, and the
    estimate is the remaining bytes divided by that speed. *)
Record History := {
  h_start : Z;
  h_before : Z;
  h_downloaded : Z;
  h_samples : list num
}.

(** Bytes of the interval divided by its length in seconds. *)
Definition sample (h : History) (now : Z) : num :=
  ndiv (of_Z (h_downloaded h - h_before h))
       (ndiv (of_Z (now - h_start h)) (of_Z 1000)).

Definition observe1 (h : History) (i : Input) : History :=
  match i with
  | Tick now =>
      {| h_start := now; h_before := h_downloaded h;
         h_downloaded := h_downloaded h;
         h_samples := h_samples h ++ [sample h now] |}
  | Chunk _ len =>
      {| h_start := h_start h; h_before := h_before h;
         h_downloaded := h_downloaded h + len;
         h_samples := h_samples h |}
  | _ => h
  end.

Definition observe (ins : list Input) (h : History) : History :=
  fold_left observe1 ins h.

Definition history0 (now : Z) : History :=
  {| h_start := now; h_before := 0; h_downloaded := 0; h_samples := [] |}.

Definition last_five (l : list num) : list num := drop (length l - 5) l.

Definition mean (l : list num) : num :=
  ndiv (fold_left nadd l (of_Z 0)) (of_Z (Z.of_nat (length l))).

(** The closure variables agree with the history that keeps every
    sample. *)
Definition agrees (st : State) (h : History) : Prop :=
  start st = h_start h /\ before st = h_before h
  /\ downloaded st = h_downloaded h /\ speeds st = last_five (h_samples h).

(** A schedule for a given list of outcomes ([Some e]: the transfer
    fails with [e]; [None]: it ends): the oldest transfer in flight
    terminates first. *)
Fixpoint drain_inputs (listening : bool) (nfiles : nat)
    (outcomes : list (option string)) (st : State) : list Input :=
  match outcomes, inflight st with
  | o :: tl, f :: _ =>
      match o with
      | Some e => FetchFailed f e
      | None => StreamEnd f
      end :: drain_inputs listening nfiles tl (finish listening nfiles f o st)
  | _, _ => []
  end.

End Multiple.

Arguments State : clear implicits.
Arguments DlEvent : clear implicits.
Arguments History : clear implicits.

(** Exact rationals as a stand-in for JavaScript numbers in the examples
    (they differ from doubles in rounding and in division by zero). *)
#[export] Instance JsNumber_Q : JsNumber Q :=
  {| nadd := Qplus; ndiv := Qdiv; of_Z := inject_Z |}.

End Downloader.

(** ** Minecraft-Loader/loader/forge/forge.js *)
Module Forge.
Import JsString Index.

(** The fields of [this.options] that the Forge backend reads. *)
Record Options := {
  opt_path : string;
  loader_version : string;
  loader_build : string;
  downloadFileMultiple : Z
}.

(** The object returned by [loader('forge')] in Index.js. *)
Record LoaderUrls := {
  metaData : string;
  meta : string;
  promotions : string;
  install : string;
  universal : string;
  client : string
}.

Definition loader_forge : LoaderUrls := {|
  metaData := "https://files.minecraftforge.net/net/minecraftforge/forge/maven-metadata.json";
  meta := "https://files.minecraftforge.net/net/minecraftforge/forge/${build}/meta.json";
  promotions := "https://files.minecraftforge.net/net/minecraftforge/forge/promotions_slim.json";
  install := "https://maven.minecraftforge.net/net/minecraftforge/forge/${version}/forge-${version}-installer";
  universal := "https://maven.minecraftforge.net/net/minecraftforge/forge/${version}/forge-${version}-universal";
  client := "https://maven.minecraftforge.net/net/minecraftforge/forge/${version}/forge-${version}-client"
|}.

(** [meta.classifiers]: each classifier, when present, maps an extension
    to the MD5 of the artifact. *)
Record Classifiers := {
  cl_installer : option (list (string * string));
  cl_client : option (list (string * string));
  cl_universal : option (list (string * string))
}.

(** The answers of the network. *)
Record Net := {
  versions : list (string * list string);  (* maven-metadata.json *)
  promos : list (string * string);         (* promotions_slim.json, [promos] *)
  meta_of : string -> Classifiers;         (* meta.json, by URL *)
  remote : string -> FetchResult;          (* GET *)
  content_length : string -> Z;
  head_probe : string -> option Z          (* HEAD: the size when the status is 200 *)
}.

(** [obj[key]] on an object given by its entries. *)
Fixpoint prop {A} (obj : list (string * A)) (key : string) : option A :=
  match obj with
  | [] => None
  | (k, v) :: tl => if String.eqb k key then Some v else prop tl key
  end.

(** [a || b] on possibly undefined strings. *)
Definition or_opt (a b : option string) : option string :=
  if truthy a then a else b.

(** The choice of [build] from [this.options.loader.build]. *)
Definition resolve_build (o : Options) (net : Net) (metaDataList : list string)
  : option string :=
  if String.eqb (loader_build o) "latest" then
    let promoBuild := prop (promos net) (loader_version o +:+ "-latest") in
    List.find (fun b => includes b (to_str promoBuild)) metaDataList
  else if String.eqb (loader_build o) "recommended" then
    let promoBuild :=
      or_opt (prop (promos net) (loader_version o +:+ "-recommended"))
             (prop (promos net) (loader_version o +:+ "-latest")) in
    List.find (fun b => includes b (to_str promoBuild)) metaDataList
  else Some (loader_build o).

(** [Object.keys(obj)[0]] and [obj[ext]] for that key. *)
Definition first_key (obj : list (string * string)) : option string :=
  fst <$> head obj.
Definition first_hash (obj : list (string * string)) : option string :=
  match first_key obj with
  | Some k => prop obj k
  | None => prop obj "undefined"
  end.

Inductive Flavor := Installer | Client | Universal.

(** The cascade on [hasInstaller], [hasClient], [hasUniversal]. *)
Definition pick_flavor (m : Classifiers) : option (Flavor * list (string * string)) :=
  match cl_installer m, cl_client m, cl_universal m with
  | Some obj, _, _ => Some (Installer, obj)
  | None, Some obj, _ => Some (Client, obj)
  | None, None, Some obj => Some (Universal, obj)
  | None, None, None => None
  end.

Definition flavor_url (L : LoaderUrls) (f : Flavor) : string :=
  match f with
  | Installer => install L
  | Client => client L
  | Universal => universal L
  end.

(** [metaDataList.find(b => b === build)], tested with [!chosenBuild]:
    a build that is the empty string counts as not found. *)
Definition find_build (build : option string) (metaDataList : list string)
  : option string :=
  match List.find (fun b => bool_decide (Some b = build)) metaDataList with
  | Some (String c b) => Some (String c b)
  | _ => None
  end.

(** What the call comes to: one of the two objects it returns, a
    rejection, or no end at all when an exception leaves a stream
    handler. *)
Inductive InstallerResult :=
| IError (error : string)
| IFile (filePath metaData_ : string) (ext : option string) (id : string)
| IThrown (err : string)
| IPending (err : string).

Definition forgeFolder (o : Options) : string :=
  Path.resolve (opt_path o) "libraries/net/minecraftforge/installer".

Definition with_element (fileName : string) (e : Event) : Event :=
  emit (ev_name e) (ev_args e ++ [JStr fileName]).

(** [downloadInstaller(Loader)], from the file system [fs]; [md5] is the
    digest computed by [getFileHash(_, 'md5')].  The downloader has a
    [progress] listener only, which forwards the event with the file name.
    [getFileHash] has no [error] handler on its read stream: on a
    directory it never settles.  A file is taken to be completely written
    when [downloadFile] resolves. *)
Definition downloadInstaller (md5 : string -> string) (o : Options) (net : Net)
    (L : LoaderUrls) (fs : gmap string Fs.Node)
  : gmap string Fs.Node * list Event * InstallerResult :=
  match prop (versions net) (loader_version o) with
  | None =>
      (fs, [], IError ("Forge " +:+ loader_version o +:+ " not supported"))
  | Some metaDataList =>
      let build := resolve_build o net metaDataList in
      match find_build build metaDataList with
      | None =>
          (fs, [], IError ("Build " +:+ to_str build +:+
                           " not found, Available builds: " +:+
                           join ", " metaDataList))
      | Some chosenBuild =>
          let m := meta_of net (replace_g (meta L) "${build}" chosenBuild) in
          match pick_flavor m with
          | None => (fs, [], IError "Invalid forge installer")
          | Some (flavor, obj) =>
              let forgeURL := replace_g (flavor_url L flavor) "${version}" chosenBuild in
              let ext := first_key obj in
              let hashFileOrigin := first_hash obj in
              let url := forgeURL +:+ "." +:+ to_str ext in
              let fileName := to_str (pop (split "/" url)) in
              let installerPath := Path.resolve (forgeFolder o) fileName in
              let '(fs1, evs, dl) :=
                if Fs.existsSync fs installerPath
                then (fs, [], Downloader.Resolved)
                else Downloader.downloadFile false (remote net) (content_length net)
                       (Fs.mkdir_if_missing fs (forgeFolder o))
                       url (forgeFolder o) fileName in
              let evs' := map (with_element fileName) evs in
              match dl with
              | Downloader.Rejected e => (fs1, evs', IThrown e)
              | Downloader.Uncaught e => (fs1, evs', IPending e)
              | Downloader.Resolved =>
                  match Fs.readFile fs1 installerPath with
                  | None => (fs1, evs', IPending "EISDIR")
                  | Some content =>
                      if bool_decide (Some (md5 content) = hashFileOrigin)
                      then (fs1, evs',
                            IFile installerPath chosenBuild ext
                                  ("forge-" +:+ to_str build))
                      else (Fs.rmSync fs1 installerPath, evs',
                            IError "Invalid hash")
                  end
              end
          end
      end
  end.

(** *** downloadLibraries *)

Record Profile := {
  version_libraries : option (list Library);
  install_libraries : option (list Library)
}.

(** [libraries.filter((library, index, self) =>
       index === self.findIndex(t => t.name === library.name))]:
    the first entry of every name is kept. *)
Fixpoint dedup_by_name (seen : list string) (l : list Library) : list Library :=
  match l with
  | [] => []
  | x :: tl =>
      if bool_decide (lib_name x ∈ seen) then dedup_by_name seen tl
      else x :: dedup_by_name (lib_name x :: seen) tl
  end.

Definition all_libraries (p : Profile) : list Library :=
  let libraries := default [] (version_libraries p) in
  let libraries :=
    match install_libraries p with
    | Some l => libraries ++ l
    | None => libraries
    end in
  dedup_by_name [] libraries.

Definition skipForge : list string :=
  ["net.minecraftforge:forge:"; "net.minecraftforge:minecraftforge:"].

(** [dl.checkMirror(baseURL, mirrors)] *)
Fixpoint checkMirror (net : Net) (baseURL : string) (ms : list string)
  : option (string * Z) :=
  match ms with
  | [] => None
  | mirror :: tl =>
      let testURL := mirror +:+ "/" +:+ baseURL in
      match head_probe net testURL with
      | Some size => Some (testURL, size)
      | None => checkMirror net baseURL tl
      end
  end.

(** An entry of [downloadList]. *)
Record DownloadItem := {
  dl_url : string;
  dl_folder : string;
  dl_path : string;
  dl_name : string;
  dl_size : Z
}.

(** The loop variables of [downloadLibraries]. *)
Record Plan := {
  checkCount : Z;
  downloadList : list DownloadItem;
  totalSize : Z;
  emitted : list Event
}.

Definition emit_check (total : nat) (pl : Plan) : Plan :=
  {| checkCount := checkCount pl + 1;
     downloadList := downloadList pl;
     totalSize := totalSize pl;
     emitted := emitted pl ++
                [emit "check" [JNum (checkCount pl); JNum (Z.of_nat total);
                               JStr "libraries"]] |}.

(** One iteration of [for (const lib of libraries)]; [None] is the
    [TypeError] of [getPathLibraries] on a malformed name. *)
Definition plan_library (platform : string) (o : Options) (net : Net)
    (fs : gmap string Fs.Node) (skipForgeFilter : bool) (total : nat)
    (pl : Plan) (lib : Library) : option Plan :=
  if skipForgeFilter
     && existsb (fun forgePrefix => includes (lib_name lib) forgePrefix) skipForge
     && negb (truthy (match artifact lib with Some a => art_url a | None => None end))
  then Some (emit_check total pl)
  else if skipLibrary platform lib then Some (emit_check total pl)
  else
    let nativesSuffix :=
      match natives lib with
      | Some n => prop n (to_str (LibMap platform))
      | None => None
      end in
    match getPathLibraries (lib_name lib)
            (Some (if truthy nativesSuffix
                   then "-" +:+ to_str nativesSuffix else ""))
            None with
    | None => None
    | Some libInfo =>
        let libFolder :=
          Path.resolve (Path.resolve (opt_path o) "libraries") (path libInfo) in
        let libFilePath := Path.resolve libFolder (name libInfo) in
        if Fs.existsSync fs libFilePath then Some (emit_check total pl)
        else
          let baseURL :=
            if truthy nativesSuffix then path libInfo +:+ "/"
            else path libInfo +:+ "/" +:+ name libInfo in
          let found :=
            match checkMirror net baseURL mirrors with
            | Some (u, size) => Some (Some u, size)
            | None =>
                match artifact lib with
                | Some a => Some (art_url a, art_size a)
                | None => None
                end
            end in
          match found with
          | Some (Some (String c u), fileSize) =>
              Some (emit_check total
                      {| checkCount := checkCount pl;
                         downloadList := downloadList pl ++
                           [{| dl_url := String c u; dl_folder := libFolder;
                               dl_path := libFilePath; dl_name := name libInfo;
                               dl_size := fileSize |}];
                         totalSize := totalSize pl + fileSize;
                         emitted := emitted pl |})
          | other =>
              let pl1 := emit_check total
                {| checkCount := checkCount pl;
                   downloadList := downloadList pl;
                   totalSize := totalSize pl +
                                match other with
                                | Some (_, fileSize) => fileSize
                                | None => 0
                                end;
                   emitted := emitted pl |} in
              Some {| checkCount := checkCount pl1;
                      downloadList := downloadList pl1;
                      totalSize := totalSize pl1;
                      emitted := emitted pl1 ++
                        [emit "error" [JStr ("Library " +:+ name libInfo +:+
                                             " not found")]] |}
          end
    end.

Fixpoint plan_libraries (platform : string) (o : Options) (net : Net)
    (fs : gmap string Fs.Node) (skipForgeFilter : bool) (total : nat)
    (pl : Plan) (libs : list Library) : option Plan :=
  match libs with
  | [] => Some pl
  | lib :: tl =>
      match plan_library platform o net fs skipForgeFilter total pl lib with
      | Some pl' => plan_libraries platform o net fs skipForgeFilter total pl' tl
      | None => None
      end
  end.

(** [downloadLibraries(profile, skipForgeFilter)] up to the hand-over of
    [downloadList] to [downloadFileMultiple]: the returned [libraries] and
    the download plan. *)
Definition downloadLibraries (platform : string) (o : Options) (net : Net)
    (fs : gmap string Fs.Node) (p : Profile) (skipForgeFilter : bool)
  : option (list Library * Plan) :=
  let libraries := all_libraries p in
  match plan_libraries platform o net fs skipForgeFilter (length libraries)
          {| checkCount := 0; downloadList := []; totalSize := 0; emitted := [] |}
          libraries with
  | Some pl => Some (libraries, pl)
  | None => None
  end.

End Forge.

(** ** Launcher/Launch.js *)
Module Launch.
Import JsString.

Definition nl : string := String (Ascii.ascii_of_nat 10) EmptyString.

(** The credential record read through [this.options.authenticator]. *)
Record XboxAccount := { xuid : option string }.

Record Authenticator := {
  name : option string;
  uuid : option string;
  access_token : option string;
  client_token : option string;
  xboxAccount : option XboxAccount
}.

Record Mods := { downloadUrls : list string; customMods : option string }.

(** A JavaScript value in a place where the code compares it with a
    number: a number, [undefined], or any other value, known by what
    [ToNumber] makes of it in the comparison ([NaN] for ['abc'] or [{}],
    50 for ['50'], 0 for [null]; [None] where the conversion throws, as
    for a symbol). *)
Inductive Value :=
| VNumber (x : JsNum.t)
| VUndefined
| VOther (number : option JsNum.t).

Definition to_number (v : Value) : option JsNum.t :=
  match v with
  | VNumber x => Some x
  | VUndefined => Some JsNum.NaN
  | VOther n => n
  end.

(** The [limit] that [downloadFileMultiple(files, size, limit = 1, timeout)]
    works with when a call passes it the option (Launch.js, line 260, and
    the loaders): the default takes the place of [undefined]; any other
    value is compared as a number. *)
Definition pool_limit (v : Value) : option JsNum.t :=
  match v with
  | VUndefined => Some (JsNum.of_Z 1)
  | _ => to_number v
  end.

Definition VInt (z : Z) : Value := VNumber (JsNum.of_Z z).

(** The keys of the argument [opt] of [Launch(opt)] that matter below;
    [None] is an absent key. *)
Record UserOptions := {
  u_authenticator : option Authenticator;
  u_path : option string;
  u_instance : option string;
  u_downloadFileMultiple : option Value;
  u_timeout : option Z;
  u_mods : option Mods
}.

(** [this.options] *)
Record Options := {
  authenticator : option Authenticator;
  opt_path : string;
  instance : option string;
  downloadFileMultiple : Value;
  timeout : Z;
  mods : option Mods
}.

(** [{ ...defaults, ...opt }] followed by [path.resolve(this.options.path)]
    in the working directory [cwd]. *)
Definition defaultOptions (cwd : string) (opt : UserOptions) : Options :=
  let p := default ".Minecraft" (u_path opt) in
  {| authenticator := u_authenticator opt;
     opt_path := if startsWith p "/" then p else Path.resolve cwd p;
     instance := u_instance opt;
     downloadFileMultiple := default (VInt 5) (u_downloadFileMultiple opt);
     timeout := default 10000 (u_timeout opt);
     mods := u_mods opt |}.

Definition with_pool_size (opt : UserOptions) (v : option Value) : UserOptions :=
  {| u_authenticator := u_authenticator opt; u_path := u_path opt;
     u_instance := u_instance opt; u_downloadFileMultiple := v;
     u_timeout := u_timeout opt; u_mods := u_mods opt |}.

Definition set_downloadFileMultiple (o : Options) (n : Value) : Options :=
  {| authenticator := authenticator o; opt_path := opt_path o;
     instance := instance o; downloadFileMultiple := n;
     timeout := timeout o; mods := mods o |}.

(** How [Launch(opt)] gets to the call of [this.start()]. *)
Inductive LaunchResult :=
| ErrorEvent (e : Event)     (* returns after emitting a handled [error] *)
| Threw (err : string)       (* the promise rejects *)
| Start (o : Options).       (* goes on to [start] with these options *)

(** [if (this.options.downloadFileMultiple < bound) ... = value]; [None]
    when the comparison throws. *)
Definition lower (o : Options) : option Options :=
  match to_number (downloadFileMultiple o) with
  | Some n => Some (if JsNum.lt n (JsNum.of_Z 1)
                    then set_downloadFileMultiple o (VInt 1) else o)
  | None => None
  end.

Definition upper (o : Options) : option Options :=
  match to_number (downloadFileMultiple o) with
  | Some n => Some (if JsNum.gt n (JsNum.of_Z 30)
                    then set_downloadFileMultiple o (VInt 30) else o)
  | None => None
  end.

(** [Launch(opt)] up to the call of [this.start()], on an instance that
    has an [error] listener or not ([listening]): without one,
    [emit('error', _)] throws. *)
Definition Launch (listening : bool) (cwd : string) (opt : UserOptions)
  : LaunchResult :=
  let o := defaultOptions cwd opt in
  match authenticator o with
  | None =>
      if listening
      then ErrorEvent (emit "error" [JErrorObj "Authenticator not found"])
      else Threw "Unhandled error."
  | Some _ =>
      match lower o with
      | None => Threw "TypeError"
      | Some o1 =>
          match upper o1 with
          | None => Threw "TypeError"
          | Some o2 => Start o2
          end
      end
  end.

(** *** The log line of the command ([start], lines 153-159) *)

Definition mask : string := "????????".

(** The four [replaceAll] on the credential fields, in the order of the
    code; an undefined field is coerced to the pattern ["undefined"]. *)
Definition field {A} (a : option Authenticator) (f : Authenticator -> option A)
  : option A :=
  match a with Some x => f x | None => None end.

Definition xuid_of (a : option Authenticator) : option string :=
  match field a xboxAccount with Some x => xuid x | None => None end.

Definition redact (a : option Authenticator) (s : string) : string :=
  let s := replaceAll s (to_str (field a access_token)) mask in
  let s := replaceAll s (to_str (field a client_token)) mask in
  let s := replaceAll s (to_str (field a uuid)) mask in
  replaceAll s (to_str (xuid_of a)) mask.

(** The credential fields the four calls look at. *)
Definition redacted_fields (a : option Authenticator) : list (option string) :=
  [field a access_token; field a client_token; field a uuid; xuid_of a].

Definition argumentsLogs (o : Options) (Arguments : list string) : string :=
  replaceAll (redact (authenticator o) (join " " Arguments))
             (opt_path o +:+ "/") "".

Definition launch_log (o : Options) (Arguments : list string) : Event :=
  emit "data" [JStr ("Launching with arguments " +:+ argumentsLogs o Arguments)].

(** *** Supervision of the child process *)

(** The [ChildProcess] object: [pid] is undefined when the spawn failed,
    [killed] is set once a signal has been sent by [kill()]. *)
Record ChildProcess := { pid : option Z; killed : bool }.

Record State := {
  minecraftProcess : option ChildProcess;
  fs : gmap string Fs.Node;
  emitted : list Event
}.

(** [getPID()]: [this.minecraftProcess?.pid || null] *)
Definition getPID (st : State) : JsValue :=
  match minecraftProcess st with
  | Some {| pid := Some n |} => if n =? 0 then JNull else JNum n
  | _ => JNull
  end.

(** [path.join(this.options.path, 'instances', this.options.instance, 'logs')] *)
Definition logDir (o : Options) (inst : string) : string :=
  Path.join (Path.join (Path.join (opt_path o) "instances") inst) "logs".

(** [new Date().toISOString().slice(0, 19).replace(/:/g, '-').replace('T', '_')] *)
Definition timestamp (iso : string) : string :=
  replace_char "T" "_" (replace_char_g ":" "-" (slice0 19 iso)).

(** The listener of the child's [close] event; [code] is the exit code the
    listener receives, [iso] the value of [new Date().toISOString()].
    [None]: [copyFileSync] throws when [latest.log] is not a regular file. *)
Definition on_close (logDir : string) (code : JsValue) (iso : string)
    (st : State) : option State :=
  let latestLogPath := Path.join logDir "latest.log" in
  let archived :=
    if Fs.existsSync (fs st) latestLogPath then
      let ts := timestamp iso in
      let archiveLogPath := Path.join logDir (ts +:+ ".log") in
      match Fs.copyFileSync (fs st) latestLogPath archiveLogPath with
      | Some fs' =>
          Some (fs', [emit "data" [JStr ("📋 Game logs archived as: " +:+ ts
                                         +:+ ".log" +:+ nl)]])
      | None => None
      end
    else Some (fs st, []) in
  match archived with
  | Some (fs', evs) =>
      Some {| minecraftProcess := None;
              fs := fs';
              emitted := emitted st ++ evs ++
                         [emit "close" [JStr "Minecraft closed"]] |}
  | None => None
  end.

(** [killProcess()] once [spawnPromise] has resolved. *)
Definition killProcess (st : State) : State * bool :=
  match minecraftProcess st with
  | Some p =>
      if killed p then
        ({| minecraftProcess := minecraftProcess st; fs := fs st;
            emitted := emitted st ++
                       [emit "log" [JStr "info"; JStr "No Minecraft process to kill"]] |},
         false)
      else
        ({| minecraftProcess := Some {| pid := pid p; killed := true |};
            fs := fs st;
            emitted := emitted st ++
                       [emit "log" [JStr "info";
                                    JStr ("Killing Minecraft process (PID: "
                                          +:+ to_str (pretty <$> pid p)
                                          +:+ ")")]] |},
         true)
  | None =>
      ({| minecraftProcess := None; fs := fs st;
          emitted := emitted st ++
                     [emit "log" [JStr "info"; JStr "No Minecraft process to kill"]] |},
       false)
  end.

(** *** setupMods: the loop over [downloadUrls] *)

(** [url.split('/').pop().split('?')[0]] *)
Definition mod_fileName (url : string) : string :=
  to_str (split "?" (to_str (pop (split "/" url))) !! 0%nat).

(** [path.join(instancePath, 'mods')] *)
Definition modsDir (o : Options) : string :=
  Path.join
    match instance o with
    | Some inst => Path.join (Path.join (opt_path o) "instances") inst
    | None => opt_path o
    end "mods".

(** One iteration of [for (const url of downloadUrls)], on the file system
    and the events emitted so far.  The downloader is a fresh one without
    listeners.  A rejected download is caught and logged; the file opened
    by the downloader stays.  The third component is [Some e] when the
    body of the download failed: [e] is thrown out of the stream's handler,
    the [await] never returns and the loop goes no further. *)
Definition stage_url (remote : string -> FetchResult) (dir : string)
    (st : gmap string Fs.Node * list Event) (url : string)
  : gmap string Fs.Node * list Event * option string :=
  let '(fs, evs) := st in
  let fileName := mod_fileName url in
  let destPath := Path.join dir fileName in
  if Fs.existsSync fs destPath then
    (fs, evs ++ [emit "data" [JStr ("⏭️  Mod already exists: " +:+ fileName +:+ nl)]],
     None)
  else
    let evs := evs ++ [emit "data" [JStr ("⬇️  Downloading: " +:+ fileName +:+ nl)]] in
    match Downloader.downloadFile false remote (fun _ => 0) fs url dir fileName with
    | (fs', _, Downloader.Resolved) =>
        (fs', evs ++ [emit "data" [JStr ("✅ Downloaded: " +:+ fileName +:+ nl)]],
         None)
    | (fs', _, Downloader.Rejected e) =>
        (fs', evs ++ [emit "data" [JStr ("❌ Failed to download mod from " +:+ url
                                         +:+ ": " +:+ e +:+ nl)]],
         None)
    | (fs', _, Downloader.Uncaught e) => (fs', evs, Some e)
    end.

(** The loop: it stops at the first URL whose download never returns. *)
Fixpoint stage_urls (remote : string -> FetchResult) (dir : string)
    (urls : list string) (st : gmap string Fs.Node * list Event)
  : gmap string Fs.Node * list Event * option string :=
  match urls with
  | [] => (st, None)
  | url :: tl =>
      match stage_url remote dir st url with
      | (st', None) => stage_urls remote dir tl st'
      | (st', Some e) => (st', Some e)
      end
  end.

(** [setupMods()] up to the end of the loop over the URLs (the copy of the
    local [customMods] that follows does not touch the staged URLs): the
    file system, the events, and [Some e] when the call never returns. *)
Definition setupMods (remote : string -> FetchResult) (o : Options)
    (fs : gmap string Fs.Node)
  : gmap string Fs.Node * list Event * option string :=
  match mods o with
  | None => (fs, [], None)
  | Some m =>
      let fs := Fs.mkdir_if_missing fs (modsDir o) in
      let evs := [emit "data" [JStr ("🔧 Setting up mods..." +:+ nl)]] in
      match downloadUrls m with
      | [] => (fs, evs, None)
      | urls =>
          stage_urls remote (modsDir o) urls
            (fs, evs ++ [emit "data" [JStr ("⬇️  Downloading mods from URLs..." +:+ nl)]])
      end
  end.

End Launch.

(** ** launcher-wrapper.js: the class [MinecraftLauncher] *)
Module Wrapper.

(** The wrapper's fields, the [Launch] instance it owns, the game
    processes that were spawned and have not exited yet, and the number of
    times [launch] has installed its listeners on the launcher (they are
    installed after [Launch()] has returned, once more at every launch that
    gets there, and never removed). *)
Record State := {
  isRunning : bool;
  gameControls : bool;          (* [this.gameControls !== null] *)
  launcher : Launch.State;
  live : list Z;
  listeners : nat
}.

Definition initial (fs : gmap string Fs.Node) : State :=
  {| isRunning := false; gameControls := false;
     launcher := {| Launch.minecraftProcess := None; Launch.fs := fs;
                    Launch.emitted := [] |};
     live := []; listeners := 0 |}.

(** How an [async] method ends: it returns, it throws, or it never
    returns. *)
Inductive Result (A : Type) :=
| Returned (a : A)
| Thrown (message : string)
| Pending.
Arguments Returned {A} a.
Arguments Thrown {A} message.
Arguments Pending {A}.

(** How [start()] ends once the options are accepted: the child is
    spawned; or the pipeline stops before the spawn with
    [return this.emit('error', _)] (Launch.js, lines 131-140); or the
    spawn itself fails and the child's [error] handler emits [error]; or
    it does not end, a download before the spawn never settling. *)
Inductive Pipeline :=
| Spawned (pid : Z)
| Failed
| SpawnFailed
| Hung.

(** What the outside world contributes to one call of [launch]: the
    outcome of [login] and that of the pipeline. *)
Record LaunchEnv := {
  login : Result Launch.Authenticator;
  pipeline : Pipeline
}.

(** The launcher's [error] events are heard once the wrapper has
    installed its listeners. *)
Definition heard (st : State) : bool := negb (listeners st =? 0)%nat.

Definition with_process (l : Launch.State) (p : Launch.ChildProcess)
  : Launch.State :=
  {| Launch.minecraftProcess := Some p; Launch.fs := Launch.fs l;
     Launch.emitted := Launch.emitted l |}.

(** The end of [launch] once [Launch()] has returned: the listeners are
    installed, then [this.isRunning = true] and the game controls. *)
Definition installed (st : State) (l : Launch.State) (pids : list Z) : State :=
  {| isRunning := true; gameControls := true; launcher := l; live := pids;
     listeners := S (listeners st) |}.

(** The options [launch] passes to [Launch]. *)
Definition launchOptions (mc : Launch.Authenticator) : Launch.UserOptions :=
  {| Launch.u_authenticator := Some mc;
     Launch.u_path := Some "./minecraft";
     Launch.u_instance := Some "Fabric1214";
     Launch.u_downloadFileMultiple := None;
     Launch.u_timeout := None;
     Launch.u_mods := Some
       {| Launch.downloadUrls :=
            [ "https://cdn.modrinth.com/data/gvQqBUqZ/versions/Iq9qGzm9/lithium-fabric-mc1.21.4-0.14.3.jar";
              "https://cdn.modrinth.com/data/P7dR8mSH/versions/DXTJz4V3/fabric-api-0.110.5%2B1.21.4.jar";
              "https://cdn.modrinth.com/data/AANobbMI/versions/JGfwEgJ6/sodium-fabric-0.6.5%2Bmc1.21.4.jar";
              "https://cdn.modrinth.com/data/zV5r3pPn/versions/vYXe74OW/3dskinlayers-fabric-1.7.5-mc1.21.4.jar";
              "https://cdn.modrinth.com/data/Wb5oqrBJ/versions/yGOJFWmG/chat_heads-0.13.7-fabric-1.21.4.jar";
              "https://cdn.modrinth.com/data/1IjD5062/versions/F6Vn3LV4/continuity-3.1.0%2B1.21.4.jar" ];
          Launch.customMods :=
            Some "/Users/simeonkummer/dev/mc-launcher/custom-mod/build/libs" |} |}.

(** [launch(options)]: the guard on [isRunning], the login, then
    [await this.launcher.Launch(launchOptions)] taken at its end (the
    downloads and the mod staging before the spawn do not touch the fields
    below), and after it the listeners and the two assignments.  An [error]
    event of the pipeline is heard only by the listeners of earlier
    launches: they clear [isRunning], [Launch()] returns normally and
    [launch] goes on to set the flag, whether a process was spawned or not.
    Unheard, the event throws: from [start()], which makes [launch] throw,
    or from the child's [error] handler, which leaves [launch] pending.
    The call is taken from its guard to its end: another call of the
    wrapper that starts while this one awaits is not described. *)
Definition launch (env : LaunchEnv) (cwd : string) (st : State)
  : State * Result unit :=
  if isRunning st then (st, Thrown "Minecraft is already running!")
  else
    match login env with
    | Thrown e => (st, Thrown e)
    | Pending => (st, Pending)
    | Returned mc =>
        match Launch.Launch (heard st) cwd (launchOptions mc) with
        | Launch.Threw e => (st, Thrown e)
        | Launch.ErrorEvent _ =>
            (installed st (launcher st) (live st), Returned tt)
        | Launch.Start _ =>
            match pipeline env with
            | Spawned pid =>
                let child := {| Launch.pid := Some pid;
                                Launch.killed := false |} in
                (installed st (with_process (launcher st) child)
                           (pid :: live st),
                 Returned tt)
            | Failed =>
                if heard st
                then (installed st (launcher st) (live st), Returned tt)
                else (st, Thrown "Unhandled error.")
            | SpawnFailed =>
                let child := {| Launch.pid := None;
                                Launch.killed := false |} in
                let l := with_process (launcher st) child in
                if heard st
                then (installed st l (live st), Returned tt)
                else ({| isRunning := isRunning st;
                         gameControls := gameControls st;
                         launcher := l; live := live st;
                         listeners := listeners st |}, Pending)
            | Hung => (st, Pending)
            end
        end
    end.

(** [await this.launcher.killProcess(quiet)]: for a child whose spawn
    failed (its [pid] is undefined) [spawnPromise] is rejected, and the
    call returns [false] from its [catch] block. *)
Definition killProcess_awaited (l : Launch.State) : Launch.State * bool :=
  match Launch.minecraftProcess l with
  | Some {| Launch.pid := None |} =>
      ({| Launch.minecraftProcess := Launch.minecraftProcess l;
          Launch.fs := Launch.fs l;
          Launch.emitted := Launch.emitted l ++
            [emit "log" [JStr "info";
                         JStr "Minecraft process failed to start, nothing to kill."]] |},
       false)
  | _ => Launch.killProcess l
  end.

(** [kill(quiet)] *)
Definition kill (st : State) : State * bool :=
  if negb (isRunning st)
     || negb (bool_decide (is_Some (Launch.minecraftProcess (launcher st))))
  then (st, false)
  else
    let '(l, result) := killProcess_awaited (launcher st) in
    if result
    then ({| isRunning := false; gameControls := false; launcher := l;
             live := live st; listeners := listeners st |}, true)
    else ({| isRunning := isRunning st; gameControls := gameControls st;
             launcher := l; live := live st;
             listeners := listeners st |}, false).

(** The child with pid [p] exits: the listener of [Launch] runs; when it
    gets to its [emit('close', _)], the wrapper's [close] listeners, if
    installed, clear the flag and the game controls. *)
Definition child_exit (logDir : string) (p : Z) (code : JsValue) (iso : string)
    (st : State) : State :=
  let gone := filter (fun q => q <> p) (live st) in
  match Launch.on_close logDir code iso (launcher st) with
  | Some l =>
      if heard st
      then {| isRunning := false; gameControls := false; launcher := l;
              live := gone; listeners := listeners st |}
      else {| isRunning := isRunning st; gameControls := gameControls st;
              launcher := l; live := gone; listeners := listeners st |}
  | None =>
      {| isRunning := isRunning st; gameControls := gameControls st;
         launcher := launcher st; live := gone; listeners := listeners st |}
  end.

(** The wrapper's listeners of the launcher's [error] event. *)
Definition launcher_error (st : State) : State :=
  if heard st
  then {| isRunning := false; gameControls := gameControls st;
          launcher := launcher st; live := live st;
          listeners := listeners st |}
  else st.

(** [getState()] *)
Record Snapshot := {
  snap_isRunning : bool;
  snap_hasProcess : bool;
  snap_pid : JsValue
}.

Definition getState (st : State) : Snapshot :=
  {| snap_isRunning := isRunning st;
     snap_hasProcess := bool_decide (is_Some (Launch.minecraftProcess (launcher st)));
     snap_pid := Launch.getPID (launcher st) |}.

End Wrapper.

(** ** Sample data used by the examples *)
Module Samples.
Import Index.

(** A library of the Mojang manifests that is meant for macOS only. *)
Definition objc_bridge : Library :=
  {| lib_name := "ca.weblite:java-objc-bridge:1.1";
     rules := Some [ {| action := Some "allow";
                        os := Some {| os_name := Some "osx" |};
                        features := false |} ];
     natives := None;
     artifact := None |}.

Definition lwjgl : Library :=
  {| lib_name := "org.lwjgl:lwjgl:3.3.1";
     rules := None;
     natives := None;
     artifact := Some {| art_url := Some "https://libraries.minecraft.net/org/lwjgl/lwjgl/3.3.1/lwjgl-3.3.1.jar";
                         art_size := 724243 |} |}.

Definition forge_options : Forge.Options :=
  {| Forge.opt_path := "/home/steve/minecraft";
     Forge.loader_version := "1.20.1";
     Forge.loader_build := "1.20.1-47.2.0";
     Forge.downloadFileMultiple := 5 |}.

(** A network on which no mirror answers and no download succeeds. *)
Definition offline : Forge.Net :=
  {| Forge.versions := [("1.20.1", ["1.20.1-47.1.0"; "1.20.1-47.2.0"])];
     Forge.promos := [("1.20.1-latest", "47.2.0"); ("1.20.1-recommended", "47.2.0")];
     Forge.meta_of := fun _ =>
       {| Forge.cl_installer := Some [("jar", "0123456789abcdef0123456789abcdef")];
          Forge.cl_client := None; Forge.cl_universal := None |};
     Forge.remote := fun _ => FetchRejected "fetch failed";
     Forge.content_length := fun _ => 0;
     Forge.head_probe := fun _ => None |}.

(** A credential record and a command line built from it. *)
Definition steve : Launch.Authenticator :=
  {| Launch.name := Some "Steve";
     Launch.uuid := Some "8667ba71b85a4004af54457a9734eed7";
     Launch.access_token := Some "eyJhbGciOiJIUzI1NiJ9.c2VjcmV0";
     Launch.client_token := Some "c5f3a1d2";
     Launch.xboxAccount := Some {| Launch.xuid := Some "2535412345678901" |} |}.

Definition launch_options : Launch.Options :=
  {| Launch.authenticator := Some steve;
     Launch.opt_path := "/home/steve/minecraft";
     Launch.instance := Some "Fabric1214";
     Launch.downloadFileMultiple := Launch.VInt 5;
     Launch.timeout := 10000;
     Launch.mods := None |}.

Definition command : list string :=
  [ "-Xmx2G"; "net.minecraft.client.main.Main";
    "--username"; "Steve";
    "--uuid"; "8667ba71b85a4004af54457a9734eed7";
    "--accessToken"; "eyJhbGciOiJIUzI1NiJ9.c2VjcmV0";
    "--gameDir"; "/home/steve/minecraft/instances/Fabric1214" ].

(** A supervisor holding a live child whose [latest.log] has content. *)
Definition logs : string := "/home/steve/minecraft/instances/Fabric1214/logs".

Definition running : Launch.State :=
  {| Launch.minecraftProcess := Some {| Launch.pid := Some 4242; Launch.killed := false |};
     Launch.fs := {[ logs +:+ "/latest.log" := Fs.File "[Render thread/INFO]: Stopping!" ]};
     Launch.emitted := [] |}.

Definition now_iso : string := "2026-11-03T12:34:56.789Z".

(** Two calls of the wrapper's [launch], as seen from outside. *)
Definition first_launch : Wrapper.LaunchEnv :=
  {| Wrapper.login := Wrapper.Returned steve;
     Wrapper.pipeline := Wrapper.Spawned 4242 |}.
Definition second_launch : Wrapper.LaunchEnv :=
  {| Wrapper.login := Wrapper.Returned steve;
     Wrapper.pipeline := Wrapper.Spawned 4243 |}.


(** A stand-in for the MD5 digest. *)
Definition digest (content : string) : string :=
  if String.eqb content "" then "d41d8cd98f00b204e9800998ecf8427e"
  else "9e107d9d372bb6826bd81d3542a419d6".

(** Mod URLs: a plain one, one with a query, one whose query has a slash. *)
Definition sodium_url : string :=
  "https://cdn.modrinth.com/data/AANobbMI/versions/JGfwEgJ6/sodium-fabric-0.6.5%2Bmc1.21.4.jar".
Definition signed_url : string :=
  "https://cdn.example.com/mods/sodium.jar?sig=ab/cd".

Definition mods_dir : string := "/home/steve/minecraft/instances/Fabric1214/mods".

Definition cdn (url : string) : FetchResult := FetchBody ["PK"; "mod"].

Definition profile : Forge.Profile :=
  {| Forge.version_libraries := Some [objc_bridge; lwjgl];
     Forge.install_libraries := None |}.

End Samples.

(** ** Further parts of the sources *)

(** Bookkeeping on the inputs of [downloadFileMultiple]. *)
Module DownloaderTrace.
Import Downloader.

(** Bytes carried by the [data] callbacks of a sequence of inputs. *)
Fixpoint chunk_bytes (ins : list Input) : Z :=
  match ins with
  | [] => 0
  | Chunk _ len :: tl => len + chunk_bytes tl
  | _ :: tl => chunk_bytes tl
  end.

Definition is_chunk (i : Input) : bool :=
  match i with Chunk _ _ => true | _ => false end.

Definition is_progress_event {num : Type} (e : DlEvent num) : bool :=
  match e with EvProgress _ _ _ => true | _ => false end.

End DownloaderTrace.

(** Index.js, [getFileFromArchive]: the archive is given by the entries
    that [zip.getEntries()] returns. *)
Module Archive.
Import JsString.

Record Entry := {
  entryName : string;
  isDirectory : bool;
  data : string
}.

(** What is pushed on [result]: an object [{ name, data, isDirectory }] or
    an entry name. *)
Inductive Item :=
| IEntry (name data : string) (isDirectory : bool)
| IName (name : string).

Inductive Result :=
| RData (data : string)
| RUndefined
| RList (items : list Item).

(** [String(null)], the coercion [includes] applies to a null prefix. *)
Definition null_str (o : option string) : string :=
  match o with Some s => s | None => "null" end.

(** The loop over the entries followed by the two final [resolve]s;
    [file] and [prefix] are null when [None]. *)
Fixpoint scan (file prefix : option string) (includeDirs : bool)
    (entries : list Entry) (result : list Item) : Result :=
  match entries with
  | [] =>
      if truthy file && negb (truthy prefix) then RUndefined else RList result
  | entry :: tl =>
      let gate :=
        if includeDirs then negb (truthy prefix)
        else negb (isDirectory entry) && negb (truthy prefix) in
      if gate && bool_decide (Some (entryName entry) = file)
      then RData (data entry)
      else
        let result :=
          if gate && negb (truthy file)
          then result ++ [IEntry (entryName entry) (data entry) (isDirectory entry)]
          else result in
        let result :=
          if negb (isDirectory entry)
             && includes (entryName entry) (null_str prefix)
          then result ++ [IName (entryName entry)]
          else result in
        scan file prefix includeDirs tl result
  end.

Definition getFileFromArchive (entries : list Entry) (file prefix : option string)
    (includeDirs : bool) : Result :=
  scan file prefix includeDirs entries [].

End Archive.

(** forge.js, [downloadLibraries]: notions used to describe its result. *)
Module ForgePlan.
Import Index.

(** [lib] is the first entry of its name in [input]. *)
Definition first_named (input : list Library) (lib : Library) : Prop :=
  List.find (fun x => String.eqb (lib_name x) (lib_name lib)) input = Some lib.

Definition is_check (e : Event) : bool := String.eqb (ev_name e) "check".

(** [this.emit('check', i, total, 'libraries')] *)
Definition check_event (total : nat) (i : nat) : Event :=
  emit "check" [JNum (Z.of_nat i); JNum (Z.of_nat total); JStr "libraries"].

End ForgePlan.

(** Launch.js, [killProcess]: the callback of the five-second timer. *)
Module KillTimer.
Import Launch.

(** [if (this.minecraftProcess && !this.minecraftProcess.killed)
       { emit warn; this.minecraftProcess.kill('SIGKILL') }];
    the boolean tells whether [SIGKILL] was sent. *)
Definition force_kill (st : State) : State * bool :=
  match minecraftProcess st with
  | Some p =>
      if killed p then (st, false)
      else ({| minecraftProcess := Some {| pid := pid p; killed := true |};
               fs := fs st;
               emitted := emitted st ++
                 [emit "log" [JStr "warn"; JStr "Force killing Minecraft process..."]] |},
            true)
  | None => (st, false)
  end.

End KillTimer.

(** launcher-wrapper.js: sequences of calls and events on the wrapper. *)
Module WrapperTrace.
Import Wrapper.

Inductive Action :=
| DoLaunch (env : LaunchEnv)                       (* a call of [launch] *)
| DoKill                                           (* a call of [kill] *)
| KillTimeout                                      (* the five-second timer of [killProcess] *)
| ChildExit (p : Z) (code : JsValue) (iso : string) (* a child's [close] event *)
| LauncherError.                                   (* an [error] event of the launcher *)

Definition with_launcher (st : State) (l : Launch.State) : State :=
  {| isRunning := isRunning st; gameControls := gameControls st;
     launcher := l; live := live st; listeners := listeners st |}.

Definition act (cwd logDir : string) (st : State) (a : Action) : State :=
  match a with
  | DoLaunch env => (launch env cwd st).1
  | DoKill => (kill st).1
  | KillTimeout => with_launcher st (KillTimer.force_kill (launcher st)).1
  | ChildExit p code iso => child_exit logDir p code iso st
  | LauncherError => launcher_error st
  end.

Definition play (cwd logDir : string) (st : State) (l : list Action) : State :=
  fold_left (act cwd logDir) l st.

(** The actions that do not need a game or a pipeline that is running:
    the calls of the public API and the timer of an earlier kill. *)
Definition is_call (a : Action) : bool :=
  match a with
  | DoLaunch _ | DoKill | KillTimeout => true
  | _ => false
  end.

(** The flag [isRunning] is set although the launcher holds no process
    that [kill] could signal. *)
Definition wedged (st : State) : Prop :=
  isRunning st = true
  /\ match Launch.minecraftProcess (launcher st) with
     | Some p => Launch.killed p = true
     | None => True
     end.

(** A launch whose pipeline stops before the spawn. *)
Definition failing_launch (mc : Launch.Authenticator) : LaunchEnv :=
  {| login := Returned mc; pipeline := Failed |}.

End WrapperTrace.

(** Minecraft-Loader/loader/fabric/fabric.js, [downloadLibraries]; quilt.js
    has the same loop. *)
Module Fabric.
Import JsString Index.

Record Library := {
  fl_name : string;
  fl_url : option string;
  fl_rules : option (list Rule)
}.

(** One iteration of [for (const lib of libraries)]; [None] is the
    [TypeError] of [getPathLibraries]. *)
Definition plan_library (o : Forge.Options) (net : Forge.Net)
    (fs : gmap string Fs.Node) (total : nat) (pl : Forge.Plan) (lib : Library)
  : option Forge.Plan :=
  match fl_rules lib with
  | Some _ => Some (Forge.emit_check total pl)
  | None =>
      match getPathLibraries (fl_name lib) None None with
      | None => None
      | Some libInfo =>
          let libFolderPath :=
            Path.resolve (Path.resolve (Forge.opt_path o) "libraries") (path libInfo) in
          let libFilePath := Path.resolve libFolderPath (name libInfo) in
          if Fs.existsSync fs libFilePath then Some (Forge.emit_check total pl)
          else
            let libUrl := to_str (fl_url lib) +:+ path libInfo +:+ "/" +:+ name libInfo in
            let sizeFile := default 0 (Forge.head_probe net libUrl) in
            Some (Forge.emit_check total
                    {| Forge.checkCount := Forge.checkCount pl;
                       Forge.downloadList := Forge.downloadList pl ++
                         [{| Forge.dl_url := libUrl;
                             Forge.dl_folder := libFolderPath;
                             Forge.dl_path := libFilePath;
                             Forge.dl_name := name libInfo;
                             Forge.dl_size := sizeFile |}];
                       Forge.totalSize := Forge.totalSize pl + sizeFile;
                       Forge.emitted := Forge.emitted pl |})
      end
  end.

Fixpoint plan_libraries (o : Forge.Options) (net : Forge.Net)
    (fs : gmap string Fs.Node) (total : nat) (pl : Forge.Plan)
    (libs : list Library) : option Forge.Plan :=
  match libs with
  | [] => Some pl
  | lib :: tl =>
      match plan_library o net fs total pl lib with
      | Some pl' => plan_libraries o net fs total pl' tl
      | None => None
      end
  end.

(** [downloadLibraries(fabricJson)] up to the hand-over of the queue to
    [downloadFileMultiple]. *)
Definition downloadLibraries (o : Forge.Options) (net : Forge.Net)
    (fs : gmap string Fs.Node) (libraries : list Library) : option Forge.Plan :=
  plan_libraries o net fs (length libraries)
    {| Forge.checkCount := 0; Forge.downloadList := [];
       Forge.totalSize := 0; Forge.emitted := [] |}
    libraries.

(** Sum of the declared sizes of a queue. *)
Definition queue_size (l : list Forge.DownloadItem) : Z :=
  fold_right (fun item acc => Forge.dl_size item + acc) 0 l.

(** The invariant of the loop variables: the running total is the size of
    the queue, and every queued file is absent from disk and stems from a
    library without [rules]. *)
Definition plan_ok (fs : gmap string Fs.Node) (libs : list Library)
    (pl : Forge.Plan) : Prop :=
  Forge.totalSize pl = queue_size (Forge.downloadList pl)
  /\ List.Forall
       (fun item =>
          Fs.existsSync fs (Forge.dl_path item) = false
          /\ exists lib info,
               In lib libs /\ fl_rules lib = None
               /\ getPathLibraries (fl_name lib) None None = Some info
               /\ Forge.dl_name item = name info
               /\ Forge.dl_url item =
                  to_str (fl_url lib) +:+ path info +:+ "/" +:+ name info)
       (Forge.downloadList pl).

End Fabric.

(** ** More sample data *)
Module MoreSamples.

(** A network whose installer has the digest the metadata announces. *)
Definition honest : Forge.Net :=
  {| Forge.versions := Forge.versions Samples.offline;
     Forge.promos := Forge.promos Samples.offline;
     Forge.meta_of := fun _ =>
       {| Forge.cl_installer := Some [("jar", "9e107d9d372bb6826bd81d3542a419d6")];
          Forge.cl_client := None; Forge.cl_universal := None |};
     Forge.remote := fun _ => FetchBody ["PK"; "installer"];
     Forge.content_length := fun _ => 11;
     Forge.head_probe := fun _ => Some 11 |}.

(** An account that has no [xboxAccount]. *)
Definition alex : Launch.Authenticator :=
  {| Launch.name := Some "Alex";
     Launch.uuid := Some "ec561538f3fd461daff5086b22154bce";
     Launch.access_token := Some "0f4c1a9e";
     Launch.client_token := Some "77aa01bc";
     Launch.xboxAccount := None |}.

Definition offline_cdn (url : string) : FetchResult := FetchRejected "fetch failed".

Definition mods_options : Launch.Options :=
  {| Launch.authenticator := Some Samples.steve;
     Launch.opt_path := "/home/steve/minecraft";
     Launch.instance := Some "Fabric1214";
     Launch.downloadFileMultiple := Launch.VInt 5;
     Launch.timeout := 10000;
     Launch.mods := Some {| Launch.downloadUrls := [Samples.sodium_url];
                            Launch.customMods := None |} |}.

Definition fabric_libraries : list Fabric.Library :=
  [ {| Fabric.fl_name := "net.fabricmc:fabric-loader:0.16.10";
       Fabric.fl_url := Some "https://maven.fabricmc.net/";
       Fabric.fl_rules := None |};
    {| Fabric.fl_name := "org.ow2.asm:asm:9.7.1";
       Fabric.fl_url := Some "https://maven.fabricmc.net/";
       Fabric.fl_rules := Some [] |} ].

End MoreSamples.

(* ===================================================================== *)
(** * Part II -- properties                                               *)
(* ===================================================================== *)


(** Let [simpl] compute string concatenation on constructors. *)
#[local] Arguments String.append !_ _ / : simpl nomatch.

(** ** Facts about the string operations *)
Module JsStringFacts.
Import JsString.

Lemma append_assoc (a b c : string) : (a +:+ b) +:+ c = a +:+ (b +:+ c).
Proof. induction a as [|x a IH]; simpl; [reflexivity | now rewrite IH]. Qed.

Lemma append_empty_r (a : string) : a +:+ "" = a.
Proof. induction a as [|x a IH]; simpl; [reflexivity | now rewrite IH]. Qed.

Lemma length_append (a b : string) :
  String.length (a +:+ b) = (String.length a + String.length b)%nat.
Proof. induction a as [|x a IH]; simpl; [reflexivity | now rewrite IH]. Qed.

Lemma free_of_append (c : ascii) (a b : string) :
  free_of c (a +:+ b) = free_of c a && free_of c b.
Proof.
  induction a as [|x a IH]; simpl; [reflexivity|].
  rewrite IH. now rewrite andb_assoc.
Qed.

Lemma split_nonempty (sep : ascii) (s : string) : split sep s <> [].
Proof.
  induction s as [|c s IH]; simpl; [discriminate|].
  destruct (Ascii.eqb c sep); [discriminate|].
  destruct (split sep s); discriminate.
Qed.

(** A string without separator is its own single segment. *)
Lemma split_free (sep : ascii) (a : string) :
  free_of sep a = true -> split sep a = [a].
Proof.
  induction a as [|c a IH]; simpl; [reflexivity|].
  intros [Hc Ha]%andb_prop. apply negb_true_iff in Hc.
  rewrite Hc, (IH Ha). reflexivity.
Qed.

(** The first separator ends the first segment. *)
Lemma split_append (sep : ascii) (a b : string) :
  free_of sep a = true ->
  split sep (a +:+ String sep b) = a :: split sep b.
Proof.
  induction a as [|c a IH]; simpl.
  - intros _. now rewrite Ascii.eqb_refl.
  - intros [Hc Ha]%andb_prop. apply negb_true_iff in Hc.
    rewrite Hc, (IH Ha). reflexivity.
Qed.

Lemma includes_char_free (c : ascii) (s : string) :
  free_of c s = true -> includes s (String c "") = false.
Proof.
  induction s as [|x s IH]; simpl; [reflexivity|].
  intros [Hx Hs]%andb_prop. apply negb_true_iff in Hx.
  rewrite (IH Hs), Ascii.eqb_sym, Hx. reflexivity.
Qed.

Lemma includes_char_append (c : ascii) (a b : string) :
  includes (a +:+ String c b) (String c "") = true.
Proof.
  induction a as [|x a IH]; simpl.
  - rewrite Ascii.eqb_refl. now destruct b.
  - rewrite IH. apply orb_true_r.
Qed.

Lemma replace_char_append (a b : ascii) (s t : string) :
  free_of a s = true ->
  replace_char a b (s +:+ String a t) = s +:+ String b t.
Proof.
  induction s as [|x s IH]; simpl.
  - intros _. now rewrite Ascii.eqb_refl.
  - intros [Hx Hs]%andb_prop. apply negb_true_iff in Hx.
    rewrite Hx, (IH Hs). reflexivity.
Qed.

End JsStringFacts.

(** ** Facts about the file system *)
Module FsFacts.
Import JsString JsStringFacts Fs.

Lemma existsSync_true (fs : gmap string Node) (p : string) :
  existsSync fs p = true <-> is_Some (fs !! p).
Proof. unfold existsSync. apply bool_decide_eq_true. Qed.

Lemma existsSync_none (fs : gmap string Node) (p : string) :
  existsSync fs p = false <-> fs !! p = None.
Proof.
  unfold existsSync. rewrite bool_decide_eq_false, <- eq_None_not_Some. reflexivity.
Qed.

Lemma mkdir1_grows (fs : gmap string Node) (d q : string) (n : Node) :
  fs !! q = Some n -> mkdir1 fs d !! q = Some n.
Proof.
  intros Hq. unfold mkdir1. destruct (existsSync fs d) eqn:Hd; [exact Hq|].
  apply existsSync_none in Hd. rewrite lookup_insert_ne; [exact Hq | congruence].
Qed.

Lemma mkdir1_frame (fs : gmap string Node) (d q : string) :
  q <> d -> mkdir1 fs d !! q = fs !! q.
Proof.
  intros Hq. unfold mkdir1. destruct (existsSync fs d); [reflexivity|].
  now rewrite lookup_insert_ne by congruence.
Qed.

Lemma mkdir1_exists (fs : gmap string Node) (d : string) :
  existsSync (mkdir1 fs d) d = true.
Proof.
  unfold mkdir1. destruct (existsSync fs d) eqn:Hd; [exact Hd|].
  apply existsSync_true. rewrite lookup_insert_eq. eauto.
Qed.

Lemma mkdirs_grows (l : list string) : forall (fs : gmap string Node) q n,
  fs !! q = Some n -> fold_left mkdir1 l fs !! q = Some n.
Proof.
  induction l as [|d l IH]; intros fs q n Hq; cbn [fold_left]; [exact Hq|].
  apply IH, mkdir1_grows, Hq.
Qed.

Lemma mkdirs_frame (l : list string) : forall (fs : gmap string Node) q,
  ~ In q l -> fold_left mkdir1 l fs !! q = fs !! q.
Proof.
  induction l as [|d l IH]; intros fs q Hq; cbn [fold_left]; [reflexivity|].
  rewrite IH by (intros Hin; apply Hq; now right).
  apply mkdir1_frame. intros ->. apply Hq. now left.
Qed.

Lemma mkdirs_exists (l : list string) : forall (fs : gmap string Node) d,
  In d l -> existsSync (fold_left mkdir1 l fs) d = true.
Proof.
  induction l as [|x l IH]; intros fs d Hd; cbn [fold_left]; [destruct Hd|].
  destruct Hd as [->|Hd]; [|apply IH, Hd].
  pose proof (mkdir1_exists fs d) as [n Hn]%existsSync_true.
  apply existsSync_true. exists n. apply mkdirs_grows, Hn.
Qed.

(** The chain for [p] ends with [p], and each of its members is [pre]
    followed by a prefix of [p]. *)
Lemma dir_chain_self (p : string) : forall pre,
  pre +:+ p <> "" -> In (pre +:+ p) (dir_chain pre p).
Proof.
  induction p as [|c p IH]; intros pre Hne; cbn [dir_chain].
  - rewrite append_empty_r in *. destruct (String.eqb_spec pre ""); [congruence|].
    now left.
  - apply in_or_app. right.
    replace (pre +:+ String c p) with ((pre +:+ String c "") +:+ p)
      by (rewrite append_assoc; reflexivity).
    apply IH. destruct pre; discriminate.
Qed.

Lemma dir_chain_prefix (p : string) : forall pre q,
  In q (dir_chain pre p) -> exists x y, p = x +:+ y /\ q = pre +:+ x.
Proof.
  induction p as [|c p IH]; intros pre q; cbn [dir_chain].
  - destruct (String.eqb pre ""); [intros []|]. intros [<-|[]].
    exists "", "". split; [reflexivity | now rewrite append_empty_r].
  - intros [Hq|Hq]%in_app_or.
    + destruct (_ && _); [|destruct Hq]. destruct Hq as [<-|[]].
      exists "", (String c p). split; [reflexivity | now rewrite append_empty_r].
    + destruct (IH _ _ Hq) as (x & y & -> & ->).
      exists (String c x), y. split; [reflexivity|].
      rewrite append_assoc. reflexivity.
Qed.

Lemma startsWith_append (a b : string) : startsWith (a +:+ b) a = true.
Proof.
  induction a as [|c a IH]; cbn [String.append startsWith].
  - now destruct b.
  - now rewrite Ascii.eqb_refl, IH.
Qed.

Lemma startsWith_refl (a : string) : startsWith a a = true.
Proof. rewrite <- (append_empty_r a) at 1. apply startsWith_append. Qed.

(** [mkdirSync] creates the directory, changes nothing that exists, and
    touches only paths of which the directory is an extension. *)
Lemma mkdirSync_exists (fs : gmap string Node) (d : string) :
  d <> "" -> existsSync (mkdirSync fs d) d = true.
Proof. intros Hd. apply mkdirs_exists, (dir_chain_self d ""), Hd. Qed.

Lemma mkdirSync_grows (fs : gmap string Node) (d q : string) (n : Node) :
  fs !! q = Some n -> mkdirSync fs d !! q = Some n.
Proof. apply mkdirs_grows. Qed.

Lemma mkdirSync_frame (fs : gmap string Node) (d q : string) :
  startsWith d q = false -> mkdirSync fs d !! q = fs !! q.
Proof.
  intros Hq. apply mkdirs_frame. intros (x & y & -> & ->)%dir_chain_prefix.
  cbn [String.append] in Hq. now rewrite startsWith_append in Hq.
Qed.

Lemma mkdir_if_missing_exists (fs : gmap string Node) (d : string) :
  d <> "" -> existsSync (mkdir_if_missing fs d) d = true.
Proof.
  intros Hd. unfold mkdir_if_missing.
  destruct (existsSync fs d) eqn:Hex; [exact Hex | apply mkdirSync_exists, Hd].
Qed.

Lemma mkdir_if_missing_grows (fs : gmap string Node) (d q : string) (n : Node) :
  fs !! q = Some n -> mkdir_if_missing fs d !! q = Some n.
Proof.
  intros Hq. unfold mkdir_if_missing.
  destruct (existsSync fs d); [exact Hq | apply mkdirSync_grows, Hq].
Qed.

Lemma mkdir_if_missing_frame (fs : gmap string Node) (d q : string) :
  startsWith d q = false -> mkdir_if_missing fs d !! q = fs !! q.
Proof.
  intros Hq. unfold mkdir_if_missing.
  destruct (existsSync fs d); [reflexivity | apply mkdirSync_frame, Hq].
Qed.

(** What [mkdirSync] adds are directories. *)
Lemma mkdir1_new (fs : gmap string Node) (d q : string) :
  mkdir1 fs d !! q = fs !! q \/ mkdir1 fs d !! q = Some Dir.
Proof.
  unfold mkdir1. destruct (existsSync fs d); [now left|].
  destruct (decide (q = d)) as [->|Hne].
  - right. apply lookup_insert_eq.
  - left. now apply lookup_insert_ne.
Qed.

Lemma mkdirs_new (l : list string) : forall (fs : gmap string Node) q,
  fold_left mkdir1 l fs !! q = fs !! q \/ fold_left mkdir1 l fs !! q = Some Dir.
Proof.
  induction l as [|d l IH]; intros fs q; cbn [fold_left]; [now left|].
  destruct (IH (mkdir1 fs d) q) as [Heq|Hdir]; [|now right].
  rewrite Heq. apply mkdir1_new.
Qed.

Lemma mkdir_if_missing_new (fs : gmap string Node) (d q : string) :
  mkdir_if_missing fs d !! q = fs !! q \/ mkdir_if_missing fs d !! q = Some Dir.
Proof.
  unfold mkdir_if_missing, mkdirSync. destruct (existsSync fs d); [now left|].
  apply mkdirs_new.
Qed.

Lemma mkdir_if_missing_id (fs : gmap string Node) (d : string) :
  existsSync fs d = true -> mkdir_if_missing fs d = fs.
Proof. intros Hex. unfold mkdir_if_missing. now rewrite Hex. Qed.


Lemma existsSync_grows (fs fs' : gmap string Node) (p : string) :
  (forall q n, fs !! q = Some n -> fs' !! q = Some n) ->
  existsSync fs p = true -> existsSync fs' p = true.
Proof.
  intros Hg [n Hn]%existsSync_true. apply existsSync_true. exists n. apply Hg, Hn.
Qed.

End FsFacts.

(** ** Maven coordinates (Index.js, [getPathLibraries]) *)
Module IndexFacts.
Import JsString JsStringFacts Index.

Local Ltac split3 Hg Ha :=
  cbn [String.append];
  rewrite (split_append ":" _ _ Hg), (split_append ":" _ _ Ha).

(** Coordinate without classifier and without [@]. *)
Lemma getPathLibraries_plain (g a v : string) (native ext : option string) :
  free_of ":" g = true -> free_of ":" a = true -> free_of ":" v = true ->
  free_of "@" v = true ->
  getPathLibraries (g +:+ ":" +:+ a +:+ ":" +:+ v) native ext =
  Some {| path := replace_char_g "." "/" g +:+ "/" +:+ a +:+ "/" +:+ v;
          name := a +:+ "-" +:+ v +:+ or_else native "" +:+ or_else ext ".jar";
          version := v |}.
Proof.
  intros Hg Ha Hv Hat. unfold getPathLibraries.
  split3 Hg Ha. rewrite (split_free ":" v Hv). cbn [lookup list_lookup truthy].
  rewrite (includes_char_free "@" v Hat), (split_free "@" v Hat).
  reflexivity.
Qed.

(** Coordinate with a classifier. *)
Lemma getPathLibraries_classifier (g a v c : string) (native ext : option string) :
  free_of ":" g = true -> free_of ":" a = true -> free_of ":" v = true ->
  free_of ":" c = true -> c <> "" ->
  free_of "@" v = true -> free_of "@" c = true ->
  getPathLibraries (g +:+ ":" +:+ a +:+ ":" +:+ v +:+ ":" +:+ c) native ext =
  Some {| path := replace_char_g "." "/" g +:+ "/" +:+ a +:+ "/" +:+ v;
          name := a +:+ "-" +:+ (v +:+ "-" +:+ c) +:+ or_else native ""
                    +:+ or_else ext ".jar";
          version := v |}.
Proof.
  intros Hg Ha Hv Hc Hne Hatv Hatc. unfold getPathLibraries.
  split3 Hg Ha. rewrite (split_append ":" _ _ Hv), (split_free ":" c Hc).
  cbn [lookup list_lookup].
  destruct c as [|x c]; [congruence|]. cbn [truthy to_str].
  assert (Hfree : free_of "@" (v +:+ "-" +:+ String x c) = true).
  { rewrite free_of_append, Hatv. simpl. simpl in Hatc. exact Hatc. }
  cbn [String.append] in *.
  rewrite (includes_char_free "@" _ Hfree), (split_free "@" v Hatv).
  cbn [lookup list_lookup to_str]. reflexivity.
Qed.

(** Coordinate whose version carries an [@ext] suffix. *)
Lemma getPathLibraries_ext (g a v e : string) (native ext : option string) :
  free_of ":" g = true -> free_of ":" a = true -> free_of ":" v = true ->
  free_of ":" e = true -> free_of "@" v = true ->
  getPathLibraries (g +:+ ":" +:+ a +:+ ":" +:+ v +:+ "@" +:+ e) native ext =
  Some {| path := replace_char_g "." "/" g +:+ "/" +:+ a +:+ "/" +:+ v;
          name := a +:+ "-" +:+ v +:+ "." +:+ e;
          version := v +:+ "@" +:+ e |}.
Proof.
  intros Hg Ha Hv He Hat. unfold getPathLibraries.
  split3 Hg Ha.
  assert (Hve : free_of ":" (v +:+ "@" +:+ e) = true).
  { rewrite free_of_append, Hv. simpl. exact He. }
  cbn [String.append] in *.
  rewrite (split_free ":" _ Hve). cbn [lookup list_lookup truthy String.append].
  rewrite (includes_char_append "@" v e), (replace_char_append "@" "." v e Hat),
          (split_append "@" v e Hat).
  reflexivity.
Qed.

(** With at least three segments the call returns its three fields. *)
Lemma getPathLibraries_total (main : string) (native ext : option string) :
  (3 <= length (split ":" main))%nat ->
  is_Some (getPathLibraries main native ext).
Proof.
  intros Hlen. unfold getPathLibraries.
  destruct (split ":" main) as [|l0 [|l1 [|l2 rest]]]; simpl in Hlen; try lia.
  cbn [lookup list_lookup]. eexists; reflexivity.
Qed.

(** C2 (as amended).  For a coordinate
    [group:artifact:version[:classifier]] whose segments are free of
    colons: the string is split on [:]; a non-empty fourth segment is
    appended to the version in the file name; an [@ext] suffix of the
    version takes the place of the default [.jar]; dots become slashes in
    the group only (artifact and version are copied as they are); and the
    result always carries the directory, the file name and the version
    segment as it is written, [@ext] suffix included. *)
Theorem getPathLibraries_coordinate (g a v : string) :
  free_of ":" g = true -> free_of ":" a = true -> free_of ":" v = true ->
  free_of "@" v = true ->
  let dir := replace_char_g "." "/" g +:+ "/" +:+ a +:+ "/" +:+ v in
  getPathLibraries (g +:+ ":" +:+ a +:+ ":" +:+ v) None None =
    Some {| path := dir; name := a +:+ "-" +:+ v +:+ ".jar"; version := v |}
  /\ (forall c, free_of ":" c = true -> c <> "" -> free_of "@" c = true ->
      getPathLibraries (g +:+ ":" +:+ a +:+ ":" +:+ v +:+ ":" +:+ c) None None =
        Some {| path := dir; name := a +:+ "-" +:+ v +:+ "-" +:+ c +:+ ".jar";
                version := v |})
  /\ (forall e, free_of ":" e = true ->
      getPathLibraries (g +:+ ":" +:+ a +:+ ":" +:+ v +:+ "@" +:+ e) None None =
        Some {| path := dir; name := a +:+ "-" +:+ v +:+ "." +:+ e;
                version := v +:+ "@" +:+ e |})
  /\ (forall main native ext, (3 <= length (split ":" main))%nat ->
      exists info, getPathLibraries main native ext = Some info
                   /\ Some (version info) = split ":" main !! 2%nat).
Proof.
  intros Hg Ha Hv Hat dir. repeat split.
  - rewrite (getPathLibraries_plain g a v None None Hg Ha Hv Hat).
    reflexivity.
  - intros c Hc Hne Hatc.
    rewrite (getPathLibraries_classifier g a v c None None Hg Ha Hv Hc Hne Hat Hatc).
    cbn [or_else String.append]. rewrite (append_assoc v). reflexivity.
  - intros e He. apply (getPathLibraries_ext g a v e None None Hg Ha Hv He Hat).
  - intros main native ext Hlen. unfold getPathLibraries.
    destruct (split ":" main) as [|l0 [|l1 [|l2 rest]]]; simpl in Hlen; try lia.
    cbn [lookup list_lookup]. eexists; split; reflexivity.
Qed.

(** C2 (the exception).  The version field is the third segment as it is
    written: for a version with an [@ext] suffix it still carries the
    suffix, while the directory uses the bare version. *)
Lemma getPathLibraries_version_keeps_ext :
  getPathLibraries "de.oceanlabs.mcp:mcp_config:1.20.1-20230612.114412@zip"
                   None None =
    Some {| path := "de/oceanlabs/mcp/mcp_config/1.20.1-20230612.114412";
            name := "mcp_config-1.20.1-20230612.114412.zip";
            version := "1.20.1-20230612.114412@zip" |}.
Proof. reflexivity. Qed.

Lemma getPathLibraries_coordinate_witness :
  getPathLibraries "net.minecraftforge:forge:1.19-41.0.63" None None =
    Some {| path := "net/minecraftforge/forge/1.19-41.0.63";
            name := "forge-1.19-41.0.63.jar";
            version := "1.19-41.0.63" |}.
Proof.
  exact (proj1 (getPathLibraries_coordinate
                  "net.minecraftforge" "forge" "1.19-41.0.63"
                  eq_refl eq_refl eq_refl eq_refl)).
Defined.

End IndexFacts.

(** ** Library rules (Index.js, [skipLibrary]; forge.js, [downloadLibraries]) *)
Module RulesFacts.
Import JsString Index IndexSpec Forge Samples.

Lemma rule_step_decisive platform b r :
  rule_step platform b r =
  if decisive platform r then bool_decide (action r = Some "disallow") else b.
Proof.
  unfold rule_step, decisive.
  destruct (features r), (os_applies platform r); simpl; try reflexivity.
  - rewrite !andb_true_r.
    destruct (bool_decide (action r = Some "allow")) eqn:Ha; simpl.
    + apply bool_decide_eq_true in Ha.
      symmetry. apply bool_decide_eq_false. rewrite Ha. discriminate.
    + destruct (bool_decide (action r = Some "disallow")); reflexivity.
  - now rewrite !andb_false_r.
Qed.

(** The loop returns the verdict of the last decisive rule, and its
    initial value when there is none. *)
Lemma fold_rule_step platform rs b :
  fold_left (rule_step platform) rs b =
  match last (filter (fun r => decisive platform r = true) rs) with
  | Some r => bool_decide (action r = Some "disallow")
  | None => b
  end.
Proof.
  revert b. induction rs as [|r rs IH]; intros b; [reflexivity|].
  cbn [fold_left]. rewrite IH, rule_step_decisive, filter_cons.
  destruct (decide (decisive platform r = true)) as [Hd|Hd].
  - rewrite Hd, last_cons. destruct (last (filter _ rs)); reflexivity.
  - apply not_true_is_false in Hd. rewrite Hd. reflexivity.
Qed.

Lemma plan_library_items platform o net fs skipF total pl lib pl' :
  plan_library platform o net fs skipF total pl lib = Some pl' ->
  forall item, item ∈ downloadList pl' ->
    item ∈ downloadList pl
    \/ (skipLibrary platform lib = false
        /\ exists native info,
             getPathLibraries (lib_name lib) native None = Some info
             /\ dl_name item = name info).
Proof.
  unfold plan_library. intros Hplan item Hin.
  destruct (_ && negb _) eqn:Hforge.
  { injection Hplan as <-. left. exact Hin. }
  destruct (skipLibrary platform lib) eqn:Hskip.
  { injection Hplan as <-. left. exact Hin. }
  destruct (getPathLibraries _ _ None) as [libInfo|] eqn:Hinfo; [|discriminate].
  destruct (Fs.existsSync _ _).
  { injection Hplan as <-. left. exact Hin. }
  repeat case_match; simplify_eq; cbn [downloadList emit_check] in Hin;
    try (left; exact Hin).
  all: apply elem_of_app in Hin as [Hin|Hin]; [left; exact Hin|].
  all: apply list_elem_of_singleton in Hin; subst item; right.
  all: split; [reflexivity|]; eexists _, libInfo; split; [exact Hinfo|reflexivity].
Qed.

Lemma plan_libraries_items platform o net fs skipF total libs :
  forall pl pl',
  plan_libraries platform o net fs skipF total pl libs = Some pl' ->
  forall item, item ∈ downloadList pl' ->
    item ∈ downloadList pl
    \/ exists lib, lib ∈ libs /\ skipLibrary platform lib = false
        /\ exists native info,
             getPathLibraries (lib_name lib) native None = Some info
             /\ dl_name item = name info.
Proof.
  induction libs as [|lib libs IH]; intros pl pl' Hplan item Hin.
  - injection Hplan as <-. left. exact Hin.
  - cbn [plan_libraries] in Hplan.
    destruct (plan_library _ _ _ _ _ _ pl lib) as [pl1|] eqn:H1; [|discriminate].
    destruct (IH pl1 pl' Hplan item Hin) as [Hin1|(l & Hl & Hs & Hx)].
    + destruct (plan_library_items _ _ _ _ _ _ _ _ _ H1 item Hin1)
        as [Hin0|[Hs Hx]].
      * left. exact Hin0.
      * right. exists lib. split; [apply list_elem_of_here|]. split; assumption.
    + right. exists l. split; [apply list_elem_of_further, Hl|]. split; assumption.
Qed.

(** C1 (as amended).  A library without [rules] is never skipped.  With
    a [rules] list the evaluation starts from "skipped": the library is
    used only if the last rule that decides (no [features] clause, OS
    clause absent or naming the running platform) is an [allow] rule, and
    it is skipped when that rule is a [disallow] rule or when no rule
    decides.  The Forge download plan only holds entries of libraries that
    [skipLibrary] lets through. *)
Theorem skipLibrary_last_decisive_rule platform o net fs p skipF libs pl :
  downloadLibraries platform o net fs p skipF = Some (libs, pl) ->
  (forall lib, rules lib = None -> skipLibrary platform lib = false)
  /\ (forall lib rs, rules lib = Some rs ->
        skipLibrary platform lib =
        match last (filter (fun r => decisive platform r = true) rs) with
        | Some r => bool_decide (action r = Some "disallow")
        | None => true
        end)
  /\ libs = all_libraries p
  /\ (forall item, item ∈ downloadList pl ->
        exists lib, lib ∈ libs /\ skipLibrary platform lib = false
          /\ exists native info,
               getPathLibraries (lib_name lib) native None = Some info
               /\ dl_name item = name info).
Proof.
  intros Hdl. unfold downloadLibraries in Hdl.
  destruct (plan_libraries _ _ _ _ _ _ _ _) as [pl0|] eqn:Hplan; [|discriminate].
  injection Hdl as <- <-. repeat split.
  - intros lib Hr. unfold skipLibrary. now rewrite Hr.
  - intros lib rs Hr. unfold skipLibrary. rewrite Hr. apply fold_rule_step.
  - intros item Hin.
    destruct (plan_libraries_items _ _ _ _ _ _ _ _ _ Hplan item Hin) as [Hin0|Hx].
    + cbn in Hin0. inversion Hin0.
    + exact Hx.
Qed.

Lemma skipLibrary_last_decisive_rule_witness :
  exists libs pl,
    downloadLibraries "linux" forge_options offline ∅ profile false
      = Some (libs, pl)
    /\ length (downloadList pl) = 1%nat
    /\ forall item, item ∈ downloadList pl ->
         exists lib, lib ∈ libs /\ skipLibrary "linux" lib = false
           /\ exists native info,
                getPathLibraries (lib_name lib) native None = Some info
                /\ dl_name item = name info.
Proof.
  eexists _, _. split; [vm_compute; reflexivity|]. split; [reflexivity|].
  apply (skipLibrary_last_decisive_rule "linux" forge_options offline ∅
           profile false).
  vm_compute. reflexivity.
Defined.

(** The evaluation the specification describes lets the macOS-only
    library through on Linux, where [skipLibrary] skips it. *)
Lemma skipLibrary_differs_from_spec :
  spec_allowed "linux" objc_bridge = true
  /\ skipLibrary "linux" objc_bridge = true.
Proof. split; reflexivity. Qed.

End RulesFacts.

(** ** The redacted command log (Launch.js, [start]) *)
Module RedactionFacts.
Import JsString JsStringFacts Launch Samples.

Lemma startsWith_empty (s : string) : startsWith s "" = true.
Proof. now destruct s. Qed.

Lemma includes_empty (s : string) : includes s "" = true.
Proof. destruct s; reflexivity. Qed.

Lemma includes_cons (c : ascii) (s q : string) :
  includes (String c s) q = startsWith (String c s) q || includes s q.
Proof. reflexivity. Qed.

Lemma includes_tail (c : ascii) (s q : string) :
  includes s q = true -> includes (String c s) q = true.
Proof. intros Hq. rewrite includes_cons, Hq. apply orb_true_r. Qed.

Lemma includes_qmark (t q : string) :
  maskable q -> includes (String "?" t) q = includes t q.
Proof.
  intros [Hne Hfree]. destruct q as [|a q]; [congruence|].
  rewrite includes_cons. cbn [startsWith]. simpl in Hfree.
  apply andb_prop in Hfree as [Ha _]. apply negb_true_iff in Ha.
  rewrite Ascii.eqb_sym in Ha. rewrite Ascii.eqb_sym, Ha. reflexivity.
Qed.

Lemma includes_mask (t q : string) :
  maskable q -> includes (mask +:+ t) q = includes t q.
Proof.
  intros Hq. unfold mask. cbn [String.append].
  now rewrite !(includes_qmark _ q Hq).
Qed.

Lemma startsWith_mask (t q : string) :
  free_of "?" q = true -> startsWith (mask +:+ t) q = true -> q = "".
Proof.
  intros Hfree. destruct q as [|a q]; [reflexivity|].
  unfold mask. cbn [String.append startsWith]. simpl in Hfree.
  apply andb_prop in Hfree as [Ha _]. apply negb_true_iff in Ha.
  rewrite Ha. discriminate.
Qed.

(** What the scanner leaves in front of the first mask is copied from
    the input. *)
Lemma scan_startsWith (p s q : string) :
  free_of "?" q = true ->
  startsWith (replaceAll_scan p mask 0 s) q = true -> startsWith s q = true.
Proof.
  revert q. induction s as [|c s IH]; intros q Hfree Hq.
  - exact Hq.
  - cbn [replaceAll_scan] in Hq.
    destruct (startsWith (String c s) p).
    + rewrite (startsWith_mask _ q Hfree Hq). reflexivity.
    + destruct q as [|a q]; [reflexivity|].
      cbn [startsWith] in *. apply andb_prop in Hq as [Hac Hq].
      rewrite Hac. simpl in Hfree. apply andb_prop in Hfree as [_ Hfree].
      now rewrite (IH q Hfree Hq).
Qed.

(** Masking a pattern creates no occurrence of a maskable string. *)
Lemma scan_includes (p s q : string) (k : nat) :
  maskable q ->
  includes (replaceAll_scan p mask k s) q = true -> includes s q = true.
Proof.
  intros Hq. revert k. induction s as [|c s IH]; intros k Hin.
  - exact Hin.
  - destruct k as [|k]; cbn [replaceAll_scan] in Hin.
    + destruct (startsWith (String c s) p) eqn:Hp.
      * rewrite (includes_mask _ q Hq) in Hin.
        apply includes_tail, (IH _ Hin).
      * rewrite includes_cons in Hin. apply orb_prop in Hin as [Hin|Hin].
        -- rewrite includes_cons.
           assert (Hs : startsWith (replaceAll_scan p mask 0 (String c s)) q = true).
           { cbn [replaceAll_scan]. rewrite Hp. exact Hin. }
           rewrite (scan_startsWith p _ q (proj2 Hq) Hs). reflexivity.
        -- apply includes_tail, (IH _ Hin).
    + apply includes_tail, (IH _ Hin).
Qed.

Lemma intersperse_includes (s q : string) :
  maskable q ->
  includes (intersperse_all mask s) q = true -> includes s q = true.
Proof.
  intros Hq. induction s as [|c s IH]; intros Hin.
  - cbn [intersperse_all] in Hin.
    replace mask with (mask +:+ "") in Hin by reflexivity.
    rewrite (includes_mask "" q Hq) in Hin. exact Hin.
  - cbn [intersperse_all] in Hin. rewrite (includes_mask _ q Hq) in Hin.
    rewrite includes_cons in Hin. apply orb_prop in Hin as [Hin|Hin].
    + destruct q as [|a q]; [reflexivity|].
      cbn [startsWith] in Hin. apply andb_prop in Hin as [Hac Hin].
      assert (Hq' : free_of "?" q = true).
      { destruct Hq as [_ Hf]. simpl in Hf. now apply andb_prop in Hf as [_ Hf]. }
      assert (q = "") as ->.
      { destruct s; cbn [intersperse_all] in Hin.
        - replace mask with (mask +:+ "") in Hin by reflexivity.
          apply (startsWith_mask "" q Hq' Hin).
        - apply (startsWith_mask _ q Hq' Hin). }
      rewrite includes_cons. cbn [startsWith].
      rewrite Hac, startsWith_empty. reflexivity.
    + apply includes_tail, (IH Hin).
Qed.

(** [replaceAll] with the mask never creates an occurrence of a maskable
    string, whatever the pattern. *)
Lemma replaceAll_preserves_absence (s p q : string) :
  maskable q -> includes s q = false ->
  includes (replaceAll s p mask) q = false.
Proof.
  intros Hq Hs. apply not_true_is_false. intros Hin.
  assert (includes s q = true); [|congruence].
  unfold replaceAll in Hin. destruct p.
  - apply (intersperse_includes s q Hq Hin).
  - apply (scan_includes _ s q 0 Hq Hin).
Qed.

Lemma scan_removes (p s : string) (k : nat) :
  maskable p -> includes (replaceAll_scan p mask k s) p = false.
Proof.
  intros Hp. revert k. induction s as [|c s IH]; intros k.
  - destruct k; cbn [replaceAll_scan]; destruct p as [|a p];
      [destruct Hp; congruence | reflexivity
      | destruct Hp; congruence | reflexivity].
  - destruct k as [|k]; cbn [replaceAll_scan]; [|apply IH].
    destruct (startsWith (String c s) p) eqn:Hsp.
    + rewrite (includes_mask _ p Hp). apply IH.
    + rewrite includes_cons, IH, orb_false_r.
      apply not_true_is_false. intros Hs.
      assert (Hs' : startsWith (replaceAll_scan p mask 0 (String c s)) p = true).
      { cbn [replaceAll_scan]. rewrite Hsp. exact Hs. }
      rewrite (scan_startsWith p _ p (proj2 Hp) Hs') in Hsp. discriminate.
Qed.

(** After [replaceAll(p, mask)] no occurrence of a maskable [p] is left. *)
Lemma replaceAll_removes (s p : string) :
  maskable p -> includes (replaceAll s p mask) p = false.
Proof.
  intros Hp. unfold replaceAll. destruct p as [|a p].
  - destruct Hp; congruence.
  - apply (scan_removes _ s 0 Hp).
Qed.

(** A pattern that does not occur leaves the text as it is. *)
Lemma scan_absent (p r s : string) :
  includes s p = false -> replaceAll_scan p r 0 s = s.
Proof.
  induction s as [|c s IH]; intros Hs; [reflexivity|].
  rewrite includes_cons in Hs. apply orb_false_elim in Hs as [Hsp Hs].
  cbn [replaceAll_scan]. rewrite Hsp, (IH Hs). reflexivity.
Qed.

(** Each of the four fields is absent from the redacted command. *)
Lemma redact_hides (a : option Authenticator) (s f : string) :
  In (Some f) (redacted_fields a) -> maskable f ->
  includes (redact a s) f = false.
Proof.
  intros Hin Hf. unfold redact.
  destruct Hin as [H|[H|[H|[H|[]]]]]; rewrite H; cbn [to_str].
  - do 3 apply (replaceAll_preserves_absence _ _ f Hf).
    apply (replaceAll_removes _ f Hf).
  - do 2 apply (replaceAll_preserves_absence _ _ f Hf).
    apply (replaceAll_removes _ f Hf).
  - apply (replaceAll_preserves_absence _ _ f Hf).
    apply (replaceAll_removes _ f Hf).
  - apply (replaceAll_removes _ f Hf).
Qed.

(** *** Deleting the root path *)

Lemma startsWith_app_l (a b f : string) :
  startsWith a f = true -> startsWith (a +:+ b) f = true.
Proof.
  revert f. induction a as [|c a IH]; intros [|d f]; cbn [String.append startsWith];
    try reflexivity; try discriminate.
  - now destruct b.
  - intros [Hd Hf]%andb_prop. now rewrite Hd, (IH f Hf).
Qed.

Lemma includes_app_l (a b f : string) :
  includes a f = true -> includes (a +:+ b) f = true.
Proof.
  induction a as [|c a IH].
  - cbn [includes]. rewrite orb_false_r. destruct f; [|discriminate].
    intros _. apply includes_empty.
  - rewrite includes_cons. cbn [String.append]. rewrite includes_cons.
    intros [Hs|Hi]%orb_prop.
    + apply (startsWith_app_l _ b) in Hs. cbn [String.append] in Hs. now rewrite Hs.
    + rewrite (IH Hi). apply orb_true_r.
Qed.

Lemma includes_app_r (a b f : string) :
  includes b f = true -> includes (a +:+ b) f = true.
Proof.
  intros Hb. induction a as [|c a IH]; [exact Hb|].
  cbn [String.append]. apply includes_tail, IH.
Qed.

(** A prefix that ends with a character foreign to [f] cannot be the
    start of an occurrence of [f] that goes beyond it. *)
Lemma startsWith_cut (a : ascii) (f y z : string) :
  free_of a f = true ->
  startsWith ((y +:+ String a "") +:+ z) f = startsWith (y +:+ String a "") f.
Proof.
  revert f. induction y as [|c y IH]; intros [|d f] Hf;
    cbn [String.append startsWith]; try reflexivity.
  - cbn [free_of] in Hf. apply andb_prop in Hf as [Hd _].
    apply negb_true_iff in Hd. now rewrite Hd.
  - cbn [free_of] in Hf. apply andb_prop in Hf as [_ Hf].
    now rewrite (IH f Hf).
Qed.

Lemma includes_cut (a : ascii) (f y z : string) :
  free_of a f = true ->
  includes ((y +:+ String a "") +:+ z) f =
  includes (y +:+ String a "") f || includes z f.
Proof.
  intros Hf. induction y as [|c y IH].
  - pose proof (startsWith_cut a f "" z Hf) as Hc.
    cbn [String.append] in *. rewrite !includes_cons, Hc.
    destruct f as [|d f].
    + now rewrite includes_empty, !orb_true_r.
    + cbn [includes startsWith]. now rewrite !orb_false_r.
  - cbn [String.append]. rewrite !includes_cons.
    change (String c ((y +:+ String a "") +:+ z))
      with ((String c y +:+ String a "") +:+ z).
    rewrite (startsWith_cut a f (String c y) z Hf). cbn [String.append].
    now rewrite IH, orb_assoc.
Qed.

(** The scanner of [replaceAll(p, '')], started after the text [x] has
    been written: when the deletions are guarded for [f] and [f] occurs
    neither in [x] nor in [x] followed by what is left to read, it does not
    occur in the result. *)
Lemma scan_unspliced (f p : string) (s : string) :
  forall (k : nat) (x : string) (prev : option ascii),
  match prev with
  | Some a => exists y, x = y +:+ String a ""
  | None => x = ""
  end ->
  includes x f = false ->
  (forall u v, s = u +:+ v -> String.length u = k -> includes (x +:+ v) f = false) ->
  unspliced f p prev k s = true ->
  includes (x +:+ replaceAll_scan p "" k s) f = false.
Proof.
  induction s as [|c s IH]; intros k x prev Hprev Hx Hrest Hun.
  - destruct k; cbn [replaceAll_scan]; now rewrite append_empty_r.
  - destruct k as [|k]; cbn [replaceAll_scan unspliced] in *.
    + pose proof (Hrest "" (String c s) eq_refl eq_refl) as Hall.
      destruct (startsWith (String c s) p).
      * apply andb_prop in Hun as [Hguard Hun]. cbn [String.append].
        apply (IH _ x prev Hprev Hx); [|exact Hun].
        intros u v -> _.
        assert (Hv : includes v f = false).
        { apply not_true_is_false. intros Hv.
          rewrite (includes_app_r x (String c (u +:+ v)) f) in Hall; [discriminate|].
          apply (includes_app_r (String c u) v f Hv). }
        destruct prev as [a|].
        -- destruct Hprev as [y ->].
           now rewrite (includes_cut a f y v Hguard), Hx, Hv.
        -- subst x. exact Hv.
      * replace (x +:+ String c (replaceAll_scan p "" 0 s))
          with ((x +:+ String c "") +:+ replaceAll_scan p "" 0 s)
          by (rewrite append_assoc; reflexivity).
        assert (Hxs : (x +:+ String c "") +:+ s = x +:+ String c s)
          by (rewrite append_assoc; reflexivity).
        apply (IH 0%nat _ (Some c)); [eauto| |intros u v -> Hu|exact Hun].
        -- apply not_true_is_false. intros Hin.
           apply (includes_app_l _ s f) in Hin. congruence.
        -- destruct u; [|discriminate]. cbn [String.append] in *. congruence.
    + apply (IH k x prev Hprev Hx); [|exact Hun].
      intros u v -> Hu. apply (Hrest (String c u) v); [reflexivity|].
      cbn [String.length]. now rewrite Hu.
Qed.

Lemma strip_unspliced (t root f : string) :
  f <> "" -> includes t f = false ->
  unspliced f (root +:+ "/") None 0 t = true ->
  includes (replaceAll t (root +:+ "/") "") f = false.
Proof.
  intros Hne Ht Hun. unfold replaceAll.
  destruct (root +:+ "/") as [|c p] eqn:Hp; [destruct root; discriminate|].
  change (replaceAll_scan (String c p) "" 0 t)
    with ("" +:+ replaceAll_scan (String c p) "" 0 t).
  apply (scan_unspliced f (String c p) t 0 "" None); [reflexivity| | |exact Hun].
  - destruct f; [congruence | reflexivity].
  - intros u v -> Hu. destruct u; [exact Ht | discriminate].
Qed.

(** C3 (as amended).  The command is redacted by replacing, in this
    order, the access token, the client token, the uuid and the xuid of
    [xboxAccount] by eight question marks; the display name is not among
    them.  The log line is ["Launching with arguments "] followed by that
    text with every [<root>/] deleted.  Each of the four fields that is a
    non-empty string without question mark is absent from the command in
    the log line, provided the deletions do not splice it together: every
    deleted [<root>/] starts the command or follows a character that does
    not occur in the field (a space, [=] or [:] in a launch command). *)
Theorem launch_log_hides_tokens (o : Options) (Arguments : list string) (f : string) :
  In (Some f) (redacted_fields (authenticator o)) ->
  f <> "" -> free_of "?" f = true ->
  unspliced f (opt_path o +:+ "/") None 0
    (redact (authenticator o) (join " " Arguments)) = true ->
  exists logged,
    launch_log o Arguments =
      emit "data" [JStr ("Launching with arguments " +:+ logged)]
    /\ logged = replaceAll (redact (authenticator o) (join " " Arguments))
                          (opt_path o +:+ "/") ""
    /\ includes logged f = false.
Proof.
  intros Hin Hne Hfree Hun.
  exists (argumentsLogs o Arguments). split; [reflexivity|]. split; [reflexivity|].
  unfold argumentsLogs. apply strip_unspliced; [exact Hne| |exact Hun].
  apply redact_hides; [exact Hin | split; assumption].
Qed.

Lemma launch_log_hides_tokens_witness :
  includes (argumentsLogs launch_options command)
           "eyJhbGciOiJIUzI1NiJ9.c2VjcmV0" = false.
Proof.
  destruct (launch_log_hides_tokens launch_options command
              "eyJhbGciOiJIUzI1NiJ9.c2VjcmV0")
    as (logged & _ & -> & Hlogged).
  - left. reflexivity.
  - discriminate.
  - reflexivity.
  - vm_compute. reflexivity.
  - exact Hlogged.
Defined.

(** The display name stays in the log line. *)
Lemma launch_log_shows_display_name :
  launch_log launch_options command =
    emit "data" [JStr ("Launching with arguments -Xmx2G net.minecraft.client.main.Main"
                       +:+ " --username Steve --uuid ???????? --accessToken ????????"
                       +:+ " --gameDir instances/Fabric1214")]
  /\ includes (argumentsLogs launch_options command) "Steve" = true.
Proof. split; vm_compute; reflexivity. Qed.

(** Deleting the root path can splice a masked-out token back together. *)
Example root_stripping_can_rebuild_a_token :
  let o := {| authenticator := Some steve; opt_path := "/r"; instance := None;
              downloadFileMultiple := VInt 5; timeout := 10000; mods := None |} in
  argumentsLogs o ["--note"; "c5f3/r/a1d2"] = "--note c5f3a1d2".
Proof. vm_compute. reflexivity. Qed.

End RedactionFacts.

(** ** The [close] listener (Launch.js, [start]) *)
Module CloseFacts.
Import JsString Launch Samples.

Example timestamp_example : timestamp now_iso = "2026-11-03_12-34-56".
Proof. reflexivity. Qed.

Lemma join_file (dir f : string) : f <> "" -> Path.join dir f = dir +:+ "/" +:+ f.
Proof. destruct f; [congruence | reflexivity]. Qed.

Lemma existsSync_file (fs : gmap string Fs.Node) (p c : string) :
  Fs.readFile fs p = Some c -> Fs.existsSync fs p = true /\ fs !! p = Some (Fs.File c).
Proof.
  unfold Fs.readFile, Fs.existsSync. destruct (fs !! p) as [[c'|]|] eqn:Hp; try discriminate.
  intros [= ->]. split; [|reflexivity].
  apply bool_decide_eq_true. eexists; reflexivity.
Qed.

(** C4 (as amended).  When the child closes and [latest.log] is a file,
    the listener copies it to [<timestamp>.log] in the same directory,
    announces the archive, sets [minecraftProcess] to null (so [getPID]
    is null) and emits [close] with the fixed string ['Minecraft closed'];
    the exit code it receives has no influence on any of this. *)
Theorem on_close_archives_and_releases (dir : string) (code : JsValue)
    (iso : string) (st : State) (content : string) :
  Fs.readFile (fs st) (Path.join dir "latest.log") = Some content ->
  exists st',
    on_close dir code iso st = Some st'
    /\ Fs.readFile (fs st') (Path.join dir (timestamp iso +:+ ".log")) = Some content
    /\ minecraftProcess st' = None
    /\ getPID st' = JNull
    /\ emitted st' =
         emitted st ++
         [ emit "data" [JStr ("📋 Game logs archived as: " +:+ timestamp iso
                              +:+ ".log" +:+ nl)];
           emit "close" [JStr "Minecraft closed"] ]
    /\ forall code', on_close dir code' iso st = Some st'.
Proof.
  intros Hlog. apply existsSync_file in Hlog as [Hex Hfile].
  unfold on_close, Fs.copyFileSync. rewrite Hex, Hfile.
  eexists. split; [reflexivity|]. cbn [fs minecraftProcess emitted getPID].
  repeat split.
  unfold Fs.readFile. now rewrite lookup_insert_eq.
Qed.

Lemma on_close_archives_and_releases_witness :
  exists st',
    on_close logs (JNum 0) now_iso running = Some st'
    /\ Fs.readFile (fs st') (logs +:+ "/2026-11-03_12-34-56.log")
       = Some "[Render thread/INFO]: Stopping!"
    /\ getPID st' = JNull.
Proof.
  destruct (on_close_archives_and_releases logs (JNum 0) now_iso running
              "[Render thread/INFO]: Stopping!" eq_refl)
    as (st' & Hst & Harch & _ & Hpid & _).
  exists st'. split; [exact Hst|]. split; [exact Harch | exact Hpid].
Defined.

(** An exit code of 1 does not reach the [close] event. *)
Lemma on_close_drops_exit_code :
  exists st',
    on_close logs (JNum 1) now_iso running = Some st'
    /\ last (emitted st') = Some (emit "close" [JStr "Minecraft closed"])
    /\ emit "close" [JNum 1] ∉ emitted st'.
Proof.
  eexists. split; [reflexivity|]. split; [reflexivity|].
  cbn. intros Hin. repeat (apply elem_of_cons in Hin as [Hin|Hin]; [discriminate|]).
  inversion Hin.
Qed.

End CloseFacts.

(** ** The gate on [launch] (launcher-wrapper.js) *)
Module WrapperFacts.
Import Wrapper Samples.

(** The options the wrapper passes are always accepted by [Launch]. *)
Lemma Launch_launchOptions (h : bool) (cwd : string) (mc : Launch.Authenticator) :
  exists o, Launch.Launch h cwd (launchOptions mc) = Launch.Start o.
Proof. eexists. reflexivity. Qed.

(** C5 (as amended).  [launch] is refused exactly when the flag
    [isRunning] is set: it then throws ["Minecraft is already running!"],
    spawns nothing and leaves the state as it was.  A call that returns
    started from a cleared flag, installed the listeners once more and set
    the flag; it spawned exactly one process, or none when the pipeline
    ended in an [error] event that the listeners of an earlier launch
    heard (a pipeline that does not end leaves the call pending).  The
    set of live processes only changes by the one process of a call that
    started from a cleared flag. *)
Theorem launch_gate (env : LaunchEnv) (cwd : string) (st st' : State)
    (r : Result unit) :
  launch env cwd st = (st', r) ->
  (isRunning st = true ->
     r = Thrown "Minecraft is already running!" /\ st' = st)
  /\ (r = Returned tt ->
        isRunning st = false /\ isRunning st' = true
        /\ listeners st' = S (listeners st)
        /\ match pipeline env with
           | Spawned pid =>
               live st' = pid :: live st
               /\ Launch.minecraftProcess (launcher st') =
                  Some {| Launch.pid := Some pid; Launch.killed := false |}
           | Failed =>
               heard st = true /\ live st' = live st
               /\ launcher st' = launcher st
           | SpawnFailed =>
               heard st = true /\ live st' = live st
               /\ Launch.minecraftProcess (launcher st') =
                  Some {| Launch.pid := None; Launch.killed := false |}
           | Hung => False
           end)
  /\ (live st' <> live st ->
        isRunning st = false
        /\ exists pid, pipeline env = Spawned pid /\ live st' = pid :: live st).
Proof.
  unfold launch. intros Hl. destruct (isRunning st) eqn:Hrun.
  - injection Hl as <- <-. repeat split; try discriminate; congruence.
  - destruct (login env) as [mc|e|];
      [|injection Hl as <- <-; repeat split; try discriminate; congruence ..].
    destruct (Launch_launchOptions (heard st) cwd mc) as [o Ho].
    rewrite Ho in Hl.
    destruct (pipeline env) as [pid| | |] eqn:Hp;
      [|destruct (heard st) eqn:Hh|destruct (heard st) eqn:Hh|];
      injection Hl as <- <-; cbn [installed isRunning live listeners launcher
                                  with_process Launch.minecraftProcess];
      repeat split; try discriminate; try congruence; eauto.
Qed.

Lemma launch_gate_witness :
  (launch second_launch "/home/steve"
     (launch first_launch "/home/steve" (initial ∅)).1).2
  = Thrown "Minecraft is already running!".
Proof.
  refine (proj1 (proj1 (launch_gate second_launch "/home/steve"
                          (launch first_launch "/home/steve" (initial ∅)).1
                          (launch second_launch "/home/steve"
                             (launch first_launch "/home/steve" (initial ∅)).1).1
                          _ _) _)).
  - vm_compute. reflexivity.
  - reflexivity.
Defined.

(** After [launch] and a successful [kill] the child has been signalled
    but has not exited: [getState] still reports its handle and pid, the
    flag is already cleared, and a second [launch] is accepted, so that two
    game processes are alive. *)
Lemma launch_accepted_while_process_live :
  let st1 := (launch first_launch "/home/steve" (initial ∅)).1 in
  let st2 := (kill st1).1 in
  (kill st1).2 = true
  /\ getState st2 = {| snap_isRunning := false; snap_hasProcess := true;
                       snap_pid := JNum 4242 |}
  /\ (launch second_launch "/home/steve" st2).2 = Returned tt
  /\ live (launch second_launch "/home/steve" st2).1 = [4243; 4242].
Proof. repeat split; vm_compute; reflexivity. Qed.

End WrapperFacts.

(** ** The Forge installer (forge.js, [downloadInstaller]) *)
Module ForgeFacts.
Import JsString Forge Samples.

(** The order of preference among the classifiers. *)
Lemma pick_flavor_preference (m : Classifiers) (flavor : Flavor)
    (obj : list (string * string)) :
  pick_flavor m = Some (flavor, obj) ->
  (flavor = Installer /\ cl_installer m = Some obj)
  \/ (flavor = Client /\ cl_installer m = None /\ cl_client m = Some obj)
  \/ (flavor = Universal /\ cl_installer m = None /\ cl_client m = None
      /\ cl_universal m = Some obj).
Proof.
  unfold pick_flavor.
  destruct (cl_installer m), (cl_client m), (cl_universal m);
    intros [= <- <-]; auto 10.
Qed.

Lemma pick_flavor_none (m : Classifiers) :
  pick_flavor m = None <->
  cl_installer m = None /\ cl_client m = None /\ cl_universal m = None.
Proof.
  unfold pick_flavor.
  destruct (cl_installer m), (cl_client m), (cl_universal m);
    split; try discriminate; try (intros (? & ? & ?); discriminate); auto.
Qed.





End ForgeFacts.

(** ** Comparisons of JavaScript numbers *)
Module JsNumFacts.

Lemma lt_Fin (x y : Q) :
  JsNum.lt (JsNum.Fin x) (JsNum.Fin y) = true <-> (x < y)%Q.
Proof.
  cbn [JsNum.lt]. rewrite negb_true_iff. split.
  - intros Hb. apply Qnot_le_lt. intros Hle. apply Qle_bool_iff in Hle.
    congruence.
  - intros Hlt. destruct (Qle_bool y x) eqn:Hb; [|reflexivity].
    apply Qle_bool_iff in Hb. exfalso. exact (Qlt_not_le _ _ Hlt Hb).
Qed.

Lemma lt_Fin_false (x y : Q) :
  JsNum.lt (JsNum.Fin x) (JsNum.Fin y) = false <-> (y <= x)%Q.
Proof. cbn [JsNum.lt]. rewrite negb_false_iff. apply Qle_bool_iff. Qed.

End JsNumFacts.

(** ** The download pool (Downloader.js, [downloadFileMultiple]) *)
Module DownloaderFacts.
Import Downloader.

Lemma Qle_bool_inject_Z (a b : Z) :
  Qle_bool (inject_Z a) (inject_Z b) = (a <=? b).
Proof. unfold Qle_bool. cbn. now rewrite !Z.mul_1_r. Qed.

Lemma filter_none {A} (P : A -> bool) (l : list A) :
  (forall x, P x = false) -> List.filter P l = [].
Proof.
  intros HP. induction l as [|x l IH]; [reflexivity|].
  cbn [List.filter]. now rewrite HP.
Qed.

(** Counting the indices below a bound. *)
Lemma count_below (P : nat -> bool) (k n : nat) :
  (forall i, P i = true -> (i < k)%nat) ->
  (length (List.filter P (seq 0 n)) <= Nat.min n k)%nat.
Proof.
  intros HP. induction n as [|n IH]; [cbn; lia|].
  rewrite seq_S, List.filter_app, length_app. cbn [List.filter Nat.add].
  destruct (P n) eqn:Hn; cbn [length].
  - apply HP in Hn. lia.
  - lia.
Qed.

Lemma count_exact (m : Z) (n : nat) :
  length (List.filter (fun i => Z.of_nat i <? m) (seq 0 n))
  = Nat.min n (Z.to_nat m).
Proof.
  induction n as [|n IH]; [reflexivity|].
  rewrite seq_S, List.filter_app, length_app, IH. cbn [List.filter Nat.add].
  destruct (Z.ltb_spec (Z.of_nat n) m); cbn [length]; lia.
Qed.

(** For an integer limit the loop of the general case runs as often as
    that of the integer case. *)
Lemma starts_of_Z (n : nat) (z : Z) :
  starts n (JsNum.of_Z z) = Z.to_nat (effective_limit n z).
Proof.
  unfold starts, effective_limit, JsNum.gt, JsNum.of_nat, JsNum.of_Z, JsNum.lt.
  rewrite Qle_bool_inject_Z.
  destruct (Z.gtb_spec z (Z.of_nat n)) as [Hgt|Hle].
  - rewrite (proj2 (Z.leb_gt _ _)) by lia. cbn [negb].
    rewrite (List.filter_ext _ (fun i => Z.of_nat i <? Z.of_nat n)).
    + rewrite count_exact. lia.
    + intros i. rewrite Qle_bool_inject_Z. now rewrite Z.ltb_antisym.
  - rewrite (proj2 (Z.leb_le _ _)) by lia. cbn [negb].
    rewrite (List.filter_ext _ (fun i => Z.of_nat i <? z)).
    + rewrite count_exact. lia.
    + intros i. rewrite Qle_bool_inject_Z. now rewrite Z.ltb_antisym.
Qed.

Lemma starts_NaN (n : nat) : starts n JsNum.NaN = 0%nat.
Proof.
  unfold starts. cbn [JsNum.gt JsNum.lt JsNum.of_nat JsNum.of_Z].
  rewrite filter_none; [reflexivity|]. intros i. reflexivity.
Qed.

Lemma starts_le (n : nat) (x : JsNum.t) : (starts n x <= n)%nat.
Proof.
  unfold starts.
  etransitivity; [|apply Nat.le_min_l with (m := n)].
  apply count_below. intros i Hi.
  destruct (JsNum.gt x (JsNum.of_nat n)) eqn:Hgt.
  - unfold JsNum.lt, JsNum.of_nat, JsNum.of_Z in Hi.
    rewrite Qle_bool_inject_Z in Hi.
    apply negb_true_iff, Z.leb_gt in Hi. lia.
  - destruct x as [q| | |]; try discriminate.
    + unfold JsNum.gt, JsNum.lt, JsNum.of_nat, JsNum.of_Z in Hgt, Hi.
      apply negb_false_iff, Qle_bool_iff in Hgt.
      apply negb_true_iff in Hi.
      destruct (Nat.lt_ge_cases i n) as [Hlt|Hge]; [exact Hlt|exfalso].
      assert (Hq : (q <= inject_Z (Z.of_nat i))%Q).
      { eapply Qle_trans; [exact Hgt|]. rewrite <- Zle_Qle. lia. }
      apply Qle_bool_iff in Hq. congruence.
Qed.

(** A limit between 1 and 30 starts at most 30 transfers, and one at
    least when there is a file. *)
Lemma starts_between (n : nat) (x : JsNum.t) :
  JsNum.between 1 30 x ->
  (starts n x <= Nat.min n 30)%nat /\ (0 < n -> 1 <= starts n x)%nat.
Proof.
  destruct x as [q| | |]; cbn [JsNum.between]; try contradiction.
  intros [Hlo Hhi]. unfold starts.
  set (limit := if JsNum.gt _ _ then _ else _).
  assert (Hlim : exists r, limit = JsNum.Fin r /\ (r <= inject_Z 30)%Q
                           /\ ((0 < n)%nat -> (inject_Z 1 <= r)%Q)).
  { subst limit. destruct (JsNum.gt _ _) eqn:Hgt.
    - apply JsNumFacts.lt_Fin in Hgt.
      exists (inject_Z (Z.of_nat n)). split; [reflexivity|]. split.
      + eapply Qle_trans; [apply Qlt_le_weak, Hgt | exact Hhi].
      + intros Hn. rewrite <- Zle_Qle. lia.
    - exists q. split; [reflexivity|]. split; [exact Hhi | intros _; exact Hlo]. }
  destruct Hlim as (r & -> & Hr30 & Hr1). split.
  - apply count_below. intros i Hi. apply JsNumFacts.lt_Fin in Hi.
    assert (Hi30 : (inject_Z (Z.of_nat i) < inject_Z 30)%Q)
      by (eapply Qlt_le_trans; [exact Hi | exact Hr30]).
    rewrite <- Zlt_Qlt in Hi30. lia.
  - intros Hn. destruct n as [|n]; [lia|]. cbn [seq List.filter].
    assert (H0 : JsNum.lt (JsNum.of_nat 0) (JsNum.Fin r) = true).
    { apply JsNumFacts.lt_Fin. eapply Qlt_le_trans; [|apply Hr1; lia].
      reflexivity. }
    rewrite H0. cbn [length]. lia.
Qed.

(** What [downloadFile] leaves on disk: the folder, and the target with
    some content. *)
Lemma downloadFile_fs listening (remote : string -> FetchResult)
    (len : string -> Z) (fs : gmap string Fs.Node) (url dir f : string) :
  exists c,
    (downloadFile listening remote len fs url dir f).1.1
    = Fs.writeFileSync (Fs.mkdir_if_missing fs dir) (dir +:+ "/" +:+ f) c.
Proof.
  unfold downloadFile.
  destruct (remote url) as [e|chunks|chunks e k]; [| |destruct listening];
    eexists; reflexivity.
Qed.

Section Multiple.
Context {num : Type} `{JsNumber num}.
Implicit Types (st : State num) (ins : list Input) (listening : bool).

Lemma effective_limit_le (n : nat) (limit : Z) :
  (Z.to_nat (effective_limit n limit) <= n)%nat.
Proof.
  unfold effective_limit. destruct (Z.gtb_spec limit (Z.of_nat n)); lia.
Qed.

Lemma effective_limit_le_limit (n : nat) (limit : Z) :
  (Z.to_nat (effective_limit n limit) <= Z.to_nat limit)%nat.
Proof.
  unfold effective_limit. destruct (Z.gtb_spec limit (Z.of_nat n)); lia.
Qed.

Lemma effective_limit_pos (n : nat) (limit : Z) :
  1 <= limit -> (0 < n)%nat -> (0 < Z.to_nat (effective_limit n limit))%nat.
Proof.
  unfold effective_limit. destruct (Z.gtb_spec limit (Z.of_nat n)); lia.
Qed.

(** [k] calls of [downloadNext] start the next [k] files when that many
    are left. *)
Lemma iter_downloadNext (n k : nat) st :
  (queued st + k <= n)%nat ->
  Nat.iter k (downloadNext n) st =
  {| completed := completed st; downloaded := downloaded st;
     queued := queued st + k; start := start st; before := before st;
     speeds := speeds st; inflight := inflight st ++ seq (queued st) k;
     events := events st; uncaught := uncaught st |}.
Proof.
  induction k as [|k IH]; intros Hk.
  - cbn. rewrite Nat.add_0_r, app_nil_r. now destruct st.
  - rewrite Nat.iter_succ, IH by lia. unfold downloadNext. cbn.
    destruct (Nat.leb_spec n (queued st + k)); [lia|].
    change (queued st :: seq (S (queued st)) k) with (seq (queued st) (S k)).
    rewrite seq_S, app_assoc. f_equal. lia.
Qed.

Lemma wf_started (n k : nat) (now : Z) :
  (k <= n)%nat ->
  wf n k (Nat.iter k (downloadNext n)
            ({| completed := 0; downloaded := 0; queued := 0; start := now;
                before := 0; speeds := []; inflight := []; events := [];
                uncaught := [] |} : State num)).
Proof.
  intros Hk. rewrite iter_downloadNext by (cbn; lia). unfold wf. cbn.
  rewrite length_seq. repeat split.
  - lia.
  - lia.
  - apply NoDup_seq.
  - apply Forall_forall. intros f Hf. apply elem_of_seq in Hf. lia.
Qed.

Lemma wf_init (n : nat) (limit now : Z) :
  wf n (Z.to_nat (effective_limit n limit)) (init n limit now : State num).
Proof. apply wf_started, effective_limit_le. Qed.

Lemma wf_init_number (n : nat) (limit : JsNum.t) (now : Z) :
  wf n (starts n limit) (init_number n limit now : State num).
Proof. apply wf_started, starts_le. Qed.

Lemma init_number_of_Z (n : nat) (z now : Z) :
  (init_number n (JsNum.of_Z z) now : State num) = init n z now.
Proof. unfold init_number, init. now rewrite starts_of_Z. Qed.

Lemma length_remove_inflight (f : nat) (l : list nat) :
  NoDup l -> f ∈ l -> S (length (remove_inflight f l)) = length l.
Proof.
  unfold remove_inflight. induction 1 as [|x l Hx Hnd IH]; intros Hf.
  - inversion Hf.
  - rewrite filter_cons. destruct (decide (x <> f)) as [Hne|Heq].
    + cbn. f_equal. apply IH. apply elem_of_cons in Hf as [->|Hf]; [congruence|exact Hf].
    + assert (x = f) as -> by (destruct (decide (x = f)); [assumption|contradiction]).
      cbn. f_equal. clear IH Hf Heq Hnd.
      induction l as [|y l IHl]; [reflexivity|].
      rewrite filter_cons. apply not_elem_of_cons in Hx as [Hy Hx].
      destruct (decide (y <> f)) as [_|Hyf]; [|exfalso; apply Hyf; congruence].
      cbn. f_equal. apply IHl, Hx.
Qed.

(** A transfer that is counted and followed by [downloadNext] keeps the
    bookkeeping consistent, whatever is emitted. *)
Lemma wf_counted (n L f : nat) (evs : list (DlEvent num)) st :
  wf n L st -> f ∈ inflight st ->
  wf n L (downloadNext n
            {| completed := S (completed st); downloaded := downloaded st;
               queued := queued st; start := start st; before := before st;
               speeds := speeds st; inflight := remove_inflight f (inflight st);
               events := evs; uncaught := uncaught st |}).
Proof.
  intros (Hsum & Hq & Hnd & Hlt) Hf.
  pose proof (length_remove_inflight f _ Hnd Hf) as Hlen.
  assert (Hnd' : NoDup (remove_inflight f (inflight st)))
    by (apply NoDup_filter, Hnd).
  assert (Hlt' : Forall (fun g => (g < queued st)%nat)
                        (remove_inflight f (inflight st)))
    by (apply Forall_forall; intros g [_ Hg]%list_elem_of_filter;
        rewrite Forall_forall in Hlt; apply Hlt, Hg).
  unfold downloadNext. cbn.
  destruct (Nat.leb_spec n (queued st)) as [Hge|Hless]; unfold wf; cbn.
  - repeat split; try assumption; lia.
  - rewrite length_app. cbn. repeat split.
    + lia.
    + lia.
    + apply NoDup_app. split; [exact Hnd'|]. split; [|apply NoDup_singleton].
      intros x Hx Hx'. apply list_elem_of_singleton in Hx'. subst x.
      rewrite Forall_forall in Hlt'. specialize (Hlt' _ Hx). lia.
    + apply Forall_app. split.
      * eapply Forall_impl; [exact Hlt'|]. cbn. lia.
      * apply Forall_singleton. lia.
Qed.

(** Ending a transfer, with or without error, heard or not, keeps the
    bookkeeping consistent. *)
Lemma wf_finish listening (n L f : nat) (err : option string) st :
  wf n L st -> f ∈ inflight st -> wf n L (finish listening n f err st).
Proof.
  intros Hwf Hf. destruct err as [e|]; cbn [finish];
    [destruct listening; cbn [finish_failed]|]; try (apply wf_counted; assumption).
  destruct Hwf as (Hsum & Hq & Hnd & Hlt).
  pose proof (length_remove_inflight f _ Hnd Hf) as Hlen.
  unfold wf. cbn. rewrite length_app. cbn. repeat split.
  - lia.
  - exact Hq.
  - apply NoDup_filter, Hnd.
  - apply Forall_forall. intros g [_ Hg]%list_elem_of_filter.
    rewrite Forall_forall in Hlt. apply Hlt, Hg.
Qed.

Lemma wf_step listening (n L : nat) (size : Z) st st' (i : Input) :
  wf n L st -> step listening n size st i = Some st' -> wf n L st'.
Proof.
  intros Hwf. destruct i as [f e|f len|f|f e|now]; cbn [step];
    try (case_bool_decide as Hf; [|discriminate]); intros [= <-];
    try (apply (wf_finish listening n L f (Some e)); assumption);
    try (apply (wf_finish listening n L f None); assumption); exact Hwf.
Qed.

Lemma wf_run listening (n L : nat) (size : Z) ins : forall st st',
  wf n L st -> run listening n size st ins = Some st' -> wf n L st'.
Proof.
  induction ins as [|i ins IH]; intros st st' Hwf; cbn [run].
  - now intros [= <-].
  - destruct (step listening n size st i) as [st1|] eqn:Hstep; [|discriminate].
    apply IH. apply (wf_step _ _ _ _ _ _ _ Hwf Hstep).
Qed.

Lemma run_app listening (n : nat) (size : Z) ins ins' : forall st st',
  run listening n size st ins = Some st' ->
  run listening n size st (ins ++ ins') = run listening n size st' ins'.
Proof.
  induction ins as [|i ins IH]; intros st st'; cbn [run app].
  - now intros [= <-].
  - destruct (step listening n size st i) as [st1|]; [apply IH | discriminate].
Qed.

Lemma counted_true (i : Input) : counted true i = is_terminal i.
Proof. now destruct i. Qed.

(** What one callback adds to the three tallies. *)
Lemma step_tallies listening (n : nat) (size : Z) st st' (i : Input) :
  step listening n size st i = Some st' ->
  completed st' = (completed st + if counted listening i then 1 else 0)%nat
  /\ errors (events st') =
     (errors (events st) + if listening && is_failure i then 1 else 0)%nat
  /\ length (uncaught st') =
     (length (uncaught st) + if negb listening && is_failure i then 1 else 0)%nat.
Proof.
  destruct i as [f e|f len|f|f e|now]; cbn [step counted is_failure];
    try (case_bool_decide; [|discriminate]); intros [= <-];
    destruct listening;
    unfold finish, finish_failed, finish_ok, downloadNext, tick;
    cbn [queued events completed uncaught andb negb];
    try (destruct (_ <=? _)%nat); cbn [events completed uncaught];
    unfold errors; rewrite ?List.filter_app, ?length_app; cbn; repeat split; lia.
Qed.

Lemma run_tallies listening (n : nat) (size : Z) ins : forall st st',
  run listening n size st ins = Some st' ->
  completed st' =
    (completed st + length (List.filter (counted listening) ins))%nat
  /\ errors (events st') =
     (errors (events st)
      + if listening then length (List.filter is_failure ins) else 0)%nat
  /\ length (uncaught st') =
     (length (uncaught st)
      + if listening then 0 else length (List.filter is_failure ins))%nat.
Proof.
  induction ins as [|i ins IH]; intros st st'; cbn [run List.filter].
  - intros [= <-]. destruct listening; cbn; lia.
  - destruct (step listening n size st i) as [st1|] eqn:Hstep; [|discriminate].
    intros Hrun. destruct (IH _ _ Hrun) as (Hc & He & Hu).
    destruct (step_tallies _ _ _ _ _ _ Hstep) as (Hc1 & He1 & Hu1).
    rewrite Hc, He, Hu, Hc1, He1, Hu1.
    destruct listening, (counted _ i), (is_failure i); cbn; lia.
Qed.

(** While files remain uncompleted and no error was thrown, some
    transfer is in flight. *)
Lemma wf_inflight (n L : nat) st :
  wf n L st -> (0 < n -> 0 < L)%nat -> uncaught st = [] ->
  (completed st < n)%nat -> inflight st <> [].
Proof.
  intros (Hsum & Hq & _) HL Hu Hc Hnil. rewrite Hnil, Hu in Hsum.
  cbn in Hsum. lia.
Qed.

Lemma wf_inflight_bound (n L : nat) st :
  wf n L st -> (length (inflight st) <= Nat.min n L)%nat.
Proof. intros (Hsum & Hq & _). lia. Qed.

Lemma finish_heard_tallies (n f : nat) (o : option string) st :
  completed (finish true n f o st) = S (completed st)
  /\ uncaught (finish true n f o st) = uncaught st.
Proof.
  destruct o; unfold finish, finish_failed, finish_ok, downloadNext;
    cbn [queued]; destruct (Nat.leb n (queued st)); split; reflexivity.
Qed.

(** On a downloader that hears its errors: whatever the outcomes of the
    transfers still to end, letting them end one after the other completes
    the batch. *)
Lemma drain_completes (n L : nat) (size : Z) (outcomes : list (option string)) :
  (0 < n -> 0 < L)%nat ->
  forall st, wf n L st -> uncaught st = [] ->
  length outcomes = (n - completed st)%nat ->
  exists st', run true n size st (drain_inputs true n outcomes st) = Some st'
              /\ completed st' = n.
Proof.
  intros HL. induction outcomes as [|o tl IH]; intros st Hwf Hu Hlen.
  - exists st. split; [reflexivity|]. destruct Hwf as (Hsum & Hq & _).
    cbn in Hlen. lia.
  - cbn [length] in Hlen.
    assert (Hc : (completed st < n)%nat) by lia.
    pose proof (wf_inflight _ _ _ Hwf HL Hu Hc) as Hne.
    cbn [drain_inputs]. destruct (inflight st) as [|f rest] eqn:Hin; [congruence|].
    assert (Hf : f ∈ inflight st) by (rewrite Hin; apply list_elem_of_here).
    destruct (finish_heard_tallies n f o st) as [Hc1 Hu1].
    destruct (IH (finish true n f o st) (wf_finish true _ _ _ _ _ Hwf Hf))
      as (st' & Hrun & Hdone); [congruence | lia |].
    exists st'. split; [|exact Hdone].
    cbn [run]. destruct o as [e|]; cbn [step];
      rewrite bool_decide_eq_true_2 by exact Hf; exact Hrun.
Qed.

Lemma init_fresh (n : nat) (limit now : Z) :
  completed (init n limit now : State num) = 0%nat
  /\ events (init n limit now : State num) = []
  /\ uncaught (init n limit now : State num) = [].
Proof.
  unfold init. pose proof (effective_limit_le n limit).
  rewrite iter_downloadNext by (cbn; lia). repeat split.
Qed.

(** C7 (the defect).  On a downloader without [error] listener, as soon
    as one transfer has failed (rejected or aborted request, stream error)
    the batch can no longer complete: the failure is thrown instead of
    emitted, it is not counted and starts no further file, so the number
    of completed transfers stays below the number of files and the poll
    fails, now and after any further callbacks. *)
Theorem unheard_failure_stalls_the_batch (n : nat) (size limit now : Z) ins st :
  run false n size (init n limit now) ins = Some st ->
  List.filter is_failure ins <> [] ->
  errors (events st) = 0%nat
  /\ length (uncaught st) = length (List.filter is_failure ins)
  /\ completed st = length (List.filter (counted false) ins)
  /\ (completed st < n)%nat
  /\ poll n st = false
  /\ forall ins' st', run false n size st ins' = Some st' -> poll n st' = false.
Proof.
  intros Hrun Hfail.
  assert (Hgen : forall l s, run false n size (init n limit now) l = Some s ->
                             List.filter is_failure l <> [] ->
                             errors (events s) = 0%nat
                             /\ length (uncaught s) = length (List.filter is_failure l)
                             /\ completed s = length (List.filter (counted false) l)
                             /\ (completed s < n)%nat /\ poll n s = false).
  { intros l s Hl Hf.
    destruct (wf_run _ _ _ _ _ _ _ (wf_init n limit now) Hl) as (Hsum & Hq & _).
    destruct (run_tallies _ _ _ _ _ _ Hl) as (Hc & He & Hu).
    destruct (init_fresh n limit now) as (Hc0 & He0 & Hu0).
    rewrite Hc0 in Hc. rewrite He0 in He. rewrite Hu0 in Hu. cbn in Hc, He, Hu.
    assert (Hpos : (0 < length (List.filter is_failure l))%nat)
      by (destruct (List.filter is_failure l); [congruence | cbn; lia]).
    assert (Hlt : (completed s < n)%nat) by lia.
    repeat split; try assumption.
    unfold poll. apply Nat.eqb_neq. lia. }
  destruct (Hgen _ _ Hrun Hfail) as (He & Hu & Hc & Hlt & Hp).
  repeat split; try assumption.
  intros ins' st' Hrun'.
  refine (proj2 (proj2 (proj2 (proj2 (Hgen (ins ++ ins') st' _ _))))).
  - rewrite (run_app _ _ _ _ _ _ _ Hrun). exact Hrun'.
  - rewrite List.filter_app. intros Happ. apply app_eq_nil in Happ as [Hnil _].
    contradiction.
Qed.

(** With a listener for [error]: along every sequence of callbacks of
    [downloadFileMultiple], every ended transfer, failed or not, is counted
    in [completed]; every failure has emitted one [error] event; a failure
    of a transfer in flight (rejected or aborted request, stream error)
    emits its error, counts the transfer and starts the next queued
    file; the poll resolves exactly when as many transfers have ended
    as there are files.  With a pool of at least one, some transfer is
    in flight as long as files are uncompleted, and whatever the
    outcomes of the remaining transfers, letting them end makes the
    poll resolve. *)
Theorem failed_transfers_are_counted (n : nat) (size limit now : Z) ins st :
  run true n size (init n limit now) ins = Some st ->
  completed st = length (List.filter is_terminal ins)
  /\ errors (events st) = length (List.filter is_failure ins)
  /\ uncaught st = []
  /\ (poll n st = true <-> length (List.filter is_terminal ins) = n)
  /\ (forall f e, f ∈ inflight st ->
        exists st',
          step true n size st (FetchFailed f e) = Some st'
          /\ step true n size st (StreamError f e) = Some st'
          /\ completed st' = S (completed st)
          /\ events st' = events st ++ [EvError e]
          /\ ((queued st < n)%nat ->
              queued st ∈ inflight st' /\ queued st' = S (queued st)))
  /\ (1 <= limit -> (completed st < n)%nat -> inflight st <> [])
  /\ (1 <= limit -> forall outcomes : list (option string),
        length outcomes = (n - completed st)%nat ->
        exists st', run true n size st (drain_inputs true n outcomes st) = Some st'
                    /\ poll n st' = true).
Proof.
  intros Hrun.
  pose proof (wf_run _ _ _ _ _ _ _ (wf_init n limit now) Hrun) as Hwf.
  destruct (run_tallies _ _ _ _ _ _ Hrun) as (Hc & He & Hu).
  destruct (init_fresh n limit now) as (Hc0 & He0 & Hu0).
  rewrite Hc0 in Hc. rewrite He0 in He. rewrite Hu0 in Hu. cbn in Hc, He, Hu.
  rewrite (List.filter_ext _ _ counted_true) in Hc.
  assert (Hnil : uncaught st = []) by (destruct (uncaught st); [reflexivity | discriminate]).
  split; [exact Hc|]. split; [exact He|]. split; [exact Hnil|].
  split; [|split; [|split]].
  - unfold poll. rewrite Nat.eqb_eq, Hc. reflexivity.
  - intros f e Hf. exists (finish true n f (Some e) st). cbn [step].
    rewrite bool_decide_eq_true_2 by exact Hf.
    split; [reflexivity|]. split; [reflexivity|].
    unfold finish, finish_failed, downloadNext. cbn.
    destruct (Nat.leb_spec n (queued st)); cbn.
    + repeat split; lia.
    + repeat split. apply elem_of_app. right. apply list_elem_of_here.
  - intros Hlimit. apply (wf_inflight _ _ _ Hwf); [|exact Hnil].
    apply effective_limit_pos, Hlimit.
  - intros Hlimit outcomes Hlen.
    destruct (drain_completes n _ size outcomes
                (effective_limit_pos n limit Hlimit) st Hwf Hnil Hlen)
      as (st' & Hrun' & Hdone).
    exists st'. split; [exact Hrun'|]. unfold poll. now apply Nat.eqb_eq.
Qed.

(** While nothing is in flight and nothing is completed, only ticks can
    occur and nothing changes. *)
Lemma idle_run listening (n : nat) (size : Z) ins : forall st st',
  inflight st = [] -> completed st = 0%nat ->
  run listening n size st ins = Some st' ->
  inflight st' = [] /\ completed st' = 0%nat
  /\ List.filter is_terminal ins = [] /\ List.filter DownloaderTrace.is_chunk ins = [].
Proof.
  induction ins as [|i ins IH]; intros st st' Hin Hc; cbn [run].
  - intros [= <-]. repeat split; assumption.
  - destruct i as [f e|f len|f|f e|now]; cbn [step];
      try (rewrite Hin, bool_decide_eq_false_2 by (apply not_elem_of_nil);
           discriminate).
    intros Hrun. apply (IH (tick size now st)); [exact Hin | exact Hc | exact Hrun].
Qed.

(** *** The speed window *)

Lemma tail_drop {A} (k : nat) (l : list A) : tail (drop k l) = drop (S k) l.
Proof.
  revert l. induction k as [|k IH]; intros [|x l]; cbn; try reflexivity.
  apply IH.
Qed.

Lemma last_five_snoc (l : list num) (x : num) :
  last_five (l ++ [x]) =
  (if (5 <=? length (last_five l))%nat
   then tail (last_five l) else last_five l) ++ [x].
Proof.
  unfold last_five. rewrite length_app, length_drop. cbn [length].
  destruct (Nat.leb_spec 5 (length l - (length l - 5))) as [Hge|Hlt].
  - rewrite tail_drop, drop_app_le by lia. do 2 f_equal. lia.
  - replace (length l - 5)%nat with 0%nat by lia.
    replace (length l + 1 - 5)%nat with 0%nat by lia. reflexivity.
Qed.

Lemma length_last_five (l : list num) : (length (last_five l) <= 5)%nat.
Proof. unfold last_five. rewrite length_drop. lia. Qed.

Lemma downloadNext_aggregator (n : nat) st :
  start (downloadNext n st) = start st
  /\ before (downloadNext n st) = before st
  /\ downloaded (downloadNext n st) = downloaded st
  /\ speeds (downloadNext n st) = speeds st.
Proof. unfold downloadNext. destruct (n <=? queued st)%nat; repeat split. Qed.

Lemma agrees_finish listening (n f : nat) (err : option string) st
    (h : History num) :
  agrees st h -> agrees (finish listening n f err st) h.
Proof.
  intros (Hs & Hb & Hd & Hw).
  destruct err as [e|]; [destruct listening|];
    unfold agrees, finish, finish_failed, finish_ok;
    try (match goal with
         | |- context [downloadNext n ?s0] =>
             destruct (downloadNext_aggregator n s0) as (-> & -> & -> & ->)
         end);
    repeat split; assumption.
Qed.

Lemma agrees_step listening (n : nat) (size : Z) st st' (h : History num)
    (i : Input) :
  agrees st h -> step listening n size st i = Some st' ->
  agrees st' (observe1 h i).
Proof.
  intros Hag.
  destruct i as [f e|f len|f|f e|now]; cbn [step observe1];
    try (case_bool_decide; [|discriminate]); intros [= <-];
    try (apply (agrees_finish listening n f (Some e)); exact Hag);
    try (apply (agrees_finish listening n f None); exact Hag);
    destruct Hag as (Hs & Hb & Hd & Hw); unfold agrees, tick;
    cbn [start before downloaded speeds h_start h_before h_downloaded h_samples];
    repeat split; try assumption; try congruence.
  rewrite last_five_snoc, <- Hw. unfold sample. now rewrite Hs, Hb, Hd.
Qed.

Lemma agrees_run listening (n : nat) (size : Z) ins :
  forall st st' (h : History num),
  agrees st h -> run listening n size st ins = Some st' ->
  agrees st' (observe ins h).
Proof.
  induction ins as [|i ins IH]; intros st st' h Hag; cbn [run observe fold_left].
  - now intros [= <-].
  - destruct (step listening n size st i) as [st1|] eqn:Hstep; [|discriminate].
    apply IH, (agrees_step _ _ _ _ _ _ _ Hag Hstep).
Qed.

(** C8.  At every tick of the aggregator the emitted speed is the mean
    (sum divided by count) of the last five byte-rate samples at most,
    the newest being the bytes received since the previous tick divided
    by the seconds elapsed since then, and the emitted estimate is the
    declared total minus the bytes downloaded so far, divided by that
    speed. *)
Theorem speed_is_mean_of_last_five listening (n : nat) (size limit now0 : Z)
    ins (now : Z) st :
  run listening n size (init n limit now0) ins = Some st ->
  let h := observe ins (history0 now0) in
  let window := last_five (h_samples h ++ [sample h now]) in
  speeds (tick size now st) = window
  /\ (length window <= 5)%nat
  /\ events (tick size now st) =
     events st ++ [EvSpeed (mean window);
                   EvEstimated (ndiv (of_Z (size - h_downloaded h)) (mean window))]
  /\ h_downloaded h = downloaded st.
Proof.
  intros Hrun h window.
  assert (Hag0 : agrees (init n limit now0 : State num) (history0 now0)).
  { unfold init. pose proof (effective_limit_le n limit).
    rewrite iter_downloadNext by (cbn; lia). repeat split. }
  pose proof (agrees_run _ _ _ _ _ _ _ Hag0 Hrun) as Hag. fold h in Hag.
  assert (Hag' : agrees (tick size now st) (observe1 h (Tick now)))
    by (apply (agrees_step listening n size st _ h (Tick now) Hag); reflexivity).
  destruct Hag as (Hs & Hb & Hd & Hw). destruct Hag' as (_ & _ & _ & Hw').
  cbn [observe1 h_samples] in Hw'. fold window in Hw'.
  split; [exact Hw'|]. split; [apply length_last_five|]. split; [|congruence].
  unfold mean. rewrite <- Hw', <- Hd. reflexivity.
Qed.

End Multiple.

Lemma failed_transfers_are_counted_witness :
  exists st : State Q,
    run true 3 300 (init 3 2 0)
        [FetchFailed 0 "AbortError"; Chunk 1 100; StreamEnd 1;
         StreamError 2 "ECONNRESET"] = Some st
    /\ completed st = 3%nat /\ errors (events st) = 2%nat /\ poll 3 st = true.
Proof.
  eexists. split; [vm_compute; reflexivity|].
  match goal with
  | |- completed ?s = _ /\ _ =>
      destruct (failed_transfers_are_counted 3 300 2 0
                  [FetchFailed 0 "AbortError"; Chunk 1 100; StreamEnd 1;
                   StreamError 2 "ECONNRESET"] s eq_refl)
        as (Hc & He & _ & Hp & _)
  end.
  split; [exact Hc|]. split; [exact He|]. apply Hp. reflexivity.
Defined.

Lemma unheard_failure_stalls_the_batch_witness :
  exists st : State Q,
    run false 3 300 (init 3 2 0)
        [FetchFailed 0 "AbortError"; Chunk 1 100; StreamEnd 1] = Some st
    /\ completed st = 1%nat /\ errors (events st) = 0%nat
    /\ uncaught st = ["AbortError"]
    /\ poll 3 st = false
    /\ forall ins' st', run false 3 300 st ins' = Some st' -> poll 3 st' = false.
Proof.
  eexists. split; [vm_compute; reflexivity|].
  match goal with
  | |- completed ?s = _ /\ _ =>
      destruct (unheard_failure_stalls_the_batch (num := Q) 3 300 2 0
                  [FetchFailed 0 "AbortError"; Chunk 1 100; StreamEnd 1] s
                  eq_refl ltac:(discriminate))
        as (He & _ & Hc & _ & Hp & Hall)
  end.
  split; [exact Hc|]. split; [exact He|]. split; [reflexivity|].
  split; [exact Hp | exact Hall].
Defined.

Lemma speed_is_mean_of_last_five_witness :
  exists st : State Q,
    run true 1 4000 (init 1 1 0) [Chunk 0 1000; Tick 500; Chunk 0 500] = Some st
    /\ speeds (tick 4000 1000 st) = [1000 / (500 / 1000); 500 / (500 / 1000)]%Q.
Proof.
  eexists. split; [vm_compute; reflexivity|].
  match goal with
  | |- speeds (tick _ _ ?s) = _ =>
      exact (proj1 (speed_is_mean_of_last_five true 1 4000 1 0
                      [Chunk 0 1000; Tick 500; Chunk 0 500] 1000 s eq_refl))
  end.
Defined.

End DownloaderFacts.

(** ** The pool size (Launch.js, [Launch]) *)
Module LaunchFacts.
Import Launch Samples.

Lemma set_downloadFileMultiple_same (o : Options) :
  set_downloadFileMultiple o (downloadFileMultiple o) = o.
Proof. now destruct o. Qed.

(** With an authenticator and a pool size that can be compared with a
    number, [Launch] hands [start] the default-filled options in which
    only the pool size may have changed. *)
Lemma Launch_clamps listening (cwd : string) (opt : UserOptions)
    (a : Authenticator) (x : JsNum.t) :
  u_authenticator opt = Some a ->
  to_number (downloadFileMultiple (defaultOptions cwd opt)) = Some x ->
  Launch listening cwd opt =
  Start (set_downloadFileMultiple (defaultOptions cwd opt)
           (if JsNum.lt x (JsNum.of_Z 1) then VInt 1
            else if JsNum.gt x (JsNum.of_Z 30) then VInt 30
            else downloadFileMultiple (defaultOptions cwd opt))).
Proof.
  intros Hauth Hx. unfold Launch.
  assert (Ha : authenticator (defaultOptions cwd opt) = Some a) by exact Hauth.
  rewrite Ha. revert Hx. generalize (defaultOptions cwd opt) as o. intros o Hx.
  cbv zeta. unfold lower. rewrite Hx.
  destruct (JsNum.lt x (JsNum.of_Z 1)) eqn:Hlt.
  - reflexivity.
  - unfold upper. rewrite Hx. destruct (JsNum.gt x (JsNum.of_Z 30)).
    + reflexivity.
    + now rewrite set_downloadFileMultiple_same.
Qed.

(** C10.  Whatever value is passed as [downloadFileMultiple] with an
    authenticator, [Launch] does not reject it (a value that cannot be
    compared with a number apart, for which the comparison throws): it
    goes on to [start] with the same options, the pool size being 1 when
    the value is below 1, 30 when it is above 30, and the value itself
    otherwise.  The result is a number between 1 and
    30 unless the value is [NaN] as a number ([undefined], a non-numeric
    string, an object), which is neither below 1 nor above 30 and stays.
    The downloader takes its default of 1 for [undefined] and the number
    otherwise; it starts as many transfers as there are indices of files
    below that limit and never has more in flight: for a limit between 1
    and 30 that is at most 30 and at most the number of files, and at
    least one when there is a file; for [NaN] it is none, and a batch
    with a file never completes. *)
Theorem download_pool_is_clamped {num : Type} {Hnum : Downloader.JsNumber num}
    (listening : bool) (cwd : string) (opt : UserOptions) (v : Value)
    (a : Authenticator) :
  u_authenticator opt = Some a ->
  match to_number v with
  | None =>
      Launch listening cwd (with_pool_size opt (Some v)) = Threw "TypeError"
  | Some x =>
      exists o limit,
        Launch listening cwd (with_pool_size opt (Some v)) = Start o
        /\ o = set_downloadFileMultiple
                 (defaultOptions cwd (with_pool_size opt (Some v)))
                 (downloadFileMultiple o)
        /\ pool_limit (downloadFileMultiple o) = Some limit
        /\ (JsNum.lt x (JsNum.of_Z 1) = true -> downloadFileMultiple o = VInt 1)
        /\ (JsNum.gt x (JsNum.of_Z 30) = true -> downloadFileMultiple o = VInt 30)
        /\ (JsNum.lt x (JsNum.of_Z 1) = false ->
            JsNum.gt x (JsNum.of_Z 30) = false -> downloadFileMultiple o = v)
        /\ (x <> JsNum.NaN ->
            to_number (downloadFileMultiple o) = Some limit
            /\ JsNum.between 1 30 limit)
        /\ (x = JsNum.NaN ->
            downloadFileMultiple o = v
            /\ limit = match v with
                       | VUndefined => JsNum.of_Z 1
                       | _ => JsNum.NaN
                       end)
        /\ forall (n : nat) (size now : Z) (ins : list Downloader.Input)
                  (st : Downloader.State num) (heard : bool),
             length (Downloader.inflight
                       (Downloader.init_number n limit now : Downloader.State num))
               = Downloader.starts n limit
             /\ (limit <> JsNum.NaN ->
                 (Downloader.starts n limit <= Nat.min n 30)%nat
                 /\ (0 < n -> 1 <= Downloader.starts n limit)%nat)
             /\ (limit = JsNum.NaN -> Downloader.starts n limit = 0%nat)
             /\ (Downloader.run heard n size
                   (Downloader.init_number n limit now) ins = Some st ->
                 (length (Downloader.inflight st)
                    <= Downloader.starts n limit)%nat
                 /\ (limit = JsNum.NaN -> (0 < n)%nat ->
                     Downloader.poll n st = false))
  end.
Proof.
  intros Hauth. destruct (to_number v) as [x|] eqn:Hx.
  2:{ unfold Launch.
      assert (Ha : authenticator (defaultOptions cwd (with_pool_size opt (Some v)))
                   = Some a) by exact Hauth.
      rewrite Ha. cbv zeta. unfold lower.
      change (downloadFileMultiple (defaultOptions cwd (with_pool_size opt (Some v))))
        with v. now rewrite Hx. }
  pose proof (Launch_clamps listening cwd (with_pool_size opt (Some v)) a x
                Hauth Hx) as HL.
  set (o0 := defaultOptions cwd (with_pool_size opt (Some v))) in *.
  change (downloadFileMultiple o0) with v in HL.
  set (v' := if JsNum.lt x (JsNum.of_Z 1) then VInt 1
             else if JsNum.gt x (JsNum.of_Z 30) then VInt 30 else v) in *.
  assert (Hcases :
    exists limit, pool_limit v' = Some limit
      /\ (JsNum.lt x (JsNum.of_Z 1) = true -> v' = VInt 1)
      /\ (JsNum.gt x (JsNum.of_Z 30) = true -> v' = VInt 30)
      /\ (JsNum.lt x (JsNum.of_Z 1) = false ->
          JsNum.gt x (JsNum.of_Z 30) = false -> v' = v)
      /\ (x <> JsNum.NaN ->
          to_number v' = Some limit /\ JsNum.between 1 30 limit)
      /\ (x = JsNum.NaN ->
          v' = v /\ limit = match v with
                            | VUndefined => JsNum.of_Z 1
                            | _ => JsNum.NaN
                            end)
      /\ (limit <> JsNum.NaN -> JsNum.between 1 30 limit)).
  { subst v'. destruct x as [q| | |].
    - assert (Hv : pool_limit v = Some (JsNum.Fin q))
        by (destruct v; [exact Hx | discriminate | exact Hx]).
      destruct (JsNum.lt (JsNum.Fin q) (JsNum.of_Z 1)) eqn:Hlt.
      + exists (JsNum.of_Z 1). split; [reflexivity|]. split; [reflexivity|].
        split.
        { intros Hgt. exfalso. apply JsNumFacts.lt_Fin in Hlt, Hgt.
          apply (Qlt_irrefl q). eapply Qlt_trans; [exact Hlt|].
          eapply Qlt_trans; [|exact Hgt]. reflexivity. }
        assert (Hb : JsNum.between 1 30 (JsNum.of_Z 1))
          by (cbn; split; [apply Qle_refl | discriminate]).
        split; [discriminate|]. split; [intros _; split; [reflexivity|exact Hb]|].
        split; [discriminate | intros _; exact Hb].
      + apply JsNumFacts.lt_Fin_false in Hlt.
        destruct (JsNum.gt (JsNum.Fin q) (JsNum.of_Z 30)) eqn:Hgt.
        * assert (Hb : JsNum.between 1 30 (JsNum.of_Z 30))
            by (cbn; split; [discriminate | apply Qle_refl]).
          exists (JsNum.of_Z 30). split; [reflexivity|]. split; [discriminate|].
          split; [reflexivity|]. split; [discriminate|].
          split; [intros _; split; [reflexivity|exact Hb]|].
          split; [discriminate | intros _; exact Hb].
        * apply JsNumFacts.lt_Fin_false in Hgt.
          assert (Hb : JsNum.between 1 30 (JsNum.Fin q)) by (split; assumption).
          exists (JsNum.Fin q). split; [exact Hv|]. split; [discriminate|].
          split; [discriminate|]. split; [reflexivity|].
          split; [intros _; split; [exact Hx|exact Hb]|].
          split; [discriminate | intros _; exact Hb].
    - cbn [JsNum.lt JsNum.gt JsNum.of_Z].
      destruct v as [y| |[y|]]; cbn [to_number] in Hx; try discriminate.
      + injection Hx as ->. exists JsNum.NaN.
        repeat split; try discriminate; try reflexivity; congruence.
      + exists (JsNum.of_Z 1).
        repeat split; try discriminate; try reflexivity; try congruence;
          apply Qle_refl.
      + injection Hx as ->. exists JsNum.NaN.
        repeat split; try discriminate; try reflexivity; congruence.
    - exists (JsNum.of_Z 30). cbn. repeat split; discriminate.
    - exists (JsNum.of_Z 1). cbn. repeat split; discriminate. }
  destruct Hcases as (limit & Hlim & H1 & H30 & Hkeep & Hfin & Hnan & Hbetween).
  exists (set_downloadFileMultiple o0 v'), limit.
  split; [exact HL|]. split; [reflexivity|].
  cbn [downloadFileMultiple set_downloadFileMultiple].
  repeat (split; [assumption|]).
  intros n size now ins st heard.
  pose proof (DownloaderFacts.starts_le n limit) as Hle.
  split; [|split; [|split]].
  - unfold Downloader.init_number.
    rewrite DownloaderFacts.iter_downloadNext by (cbn; lia).
    cbn. now rewrite length_seq.
  - intros Hne. apply DownloaderFacts.starts_between, Hbetween, Hne.
  - intros ->. apply DownloaderFacts.starts_NaN.
  - intros Hrun. split.
    + pose proof (DownloaderFacts.wf_run _ _ _ _ _ _ _
                    (DownloaderFacts.wf_init_number n limit now) Hrun) as Hwf.
      pose proof (DownloaderFacts.wf_inflight_bound _ _ _ Hwf). lia.
    + intros -> Hn. revert Hrun. unfold Downloader.init_number.
      rewrite DownloaderFacts.starts_NaN. cbn [Nat.iter]. intros Hrun.
      pose proof (fun Hi Hc0 =>
                    DownloaderFacts.idle_run heard n size ins _ st Hi Hc0 Hrun)
        as Hidle.
      destruct (Hidle eq_refl eq_refl) as (_ & Hc & _).
      unfold Downloader.poll. rewrite Hc. apply Nat.eqb_neq. lia.
Qed.

Lemma download_pool_is_clamped_witness :
  exists o,
    Launch true "/home/steve"
      {| u_authenticator := Some steve; u_path := None; u_instance := None;
         u_downloadFileMultiple := Some (VInt 64); u_timeout := None;
         u_mods := None |}
      = Start o
    /\ downloadFileMultiple o = VInt 30
    /\ Downloader.starts 100 (JsNum.of_Z 30) = 30%nat.
Proof.
  destruct (download_pool_is_clamped (Hnum:=Downloader.JsNumber_Q) true
              "/home/steve"
              {| u_authenticator := Some steve; u_path := None; u_instance := None;
                 u_downloadFileMultiple := None; u_timeout := None; u_mods := None |}
              (VInt 64) steve eq_refl)
    as (o & x' & HL & _ & _ & _ & Hv & _).
  exists o. split; [exact HL|]. split; [apply Hv; reflexivity | reflexivity].
Defined.

(** C10 (failing input).  A pool size that is not a number, such as the
    string ['many'], is [NaN] in both comparisons: [Launch] passes it on
    unchanged, and the downloader, whose loop
    [for (i = 0; i < limit; i++)] then does not run, starts no transfer
    at all. *)
Lemma pool_size_NaN_is_not_clamped :
  exists o,
    Launch true "/home/steve"
      {| u_authenticator := Some steve; u_path := None; u_instance := None;
         u_downloadFileMultiple := Some (VOther (Some JsNum.NaN));
         u_timeout := None; u_mods := None |}
      = Start o
    /\ downloadFileMultiple o = VOther (Some JsNum.NaN)
    /\ pool_limit (downloadFileMultiple o) = Some JsNum.NaN
    /\ ~ JsNum.between 1 30 JsNum.NaN
    /\ Downloader.starts 3 JsNum.NaN = 0%nat
    /\ Downloader.inflight
         (Downloader.init_number 3 JsNum.NaN 0 : Downloader.State Q) = [].
Proof.
  eexists. split; [reflexivity|]. split; [reflexivity|]. split; [reflexivity|].
  split; [intros []|]. split; reflexivity.
Qed.

End LaunchFacts.

(** ** Mod staging (Launch.js, [setupMods]) *)
Module ModsFacts.
Import JsString JsStringFacts Launch Samples.

Lemma pop_cons (x y : string) (l : list string) : pop (x :: y :: l) = pop (y :: l).
Proof. reflexivity. Qed.

Lemma split_two (sep : ascii) (a b : string) :
  exists x y l, split sep (a +:+ String sep b) = x :: y :: l.
Proof.
  induction a as [|c a (x & y & l & IH)]; cbn [String.append split].
  - rewrite Ascii.eqb_refl. destruct (split sep b) as [|y l] eqn:Hb.
    + now apply split_nonempty in Hb.
    + eauto.
  - rewrite IH. destruct (Ascii.eqb c sep); eauto.
Qed.

(** The last segment only depends on what follows the last separator seen. *)
Lemma pop_split_append (sep : ascii) (a b : string) :
  pop (split sep (a +:+ String sep b)) = pop (split sep b).
Proof.
  induction a as [|c a IH]; cbn [String.append split].
  - rewrite Ascii.eqb_refl. destruct (split sep b) as [|y l] eqn:Hb.
    + now apply split_nonempty in Hb.
    + reflexivity.
  - destruct (split_two sep a b) as (x & y & l & Hs). rewrite Hs in *.
    destruct (Ascii.eqb c sep); rewrite !pop_cons; rewrite pop_cons in IH; exact IH.
Qed.

(** For a URL whose query has no slash the staged name is the last
    segment of the path, the query being cut off. *)
Lemma mod_fileName_query (base file query : string) :
  free_of "/" file = true -> free_of "?" file = true ->
  free_of "/" query = true ->
  mod_fileName (base +:+ "/" +:+ file +:+ "?" +:+ query) = file.
Proof.
  intros Hf Hq Hquery. unfold mod_fileName. cbn [String.append].
  rewrite pop_split_append.
  assert (Hfree : free_of "/" (file +:+ String "?" query) = true).
  { rewrite free_of_append, Hf. cbn. exact Hquery. }
  rewrite (split_free "/" _ Hfree). cbn [pop map List.last to_str].
  rewrite (split_append "?" file query Hq). reflexivity.
Qed.

Lemma mod_fileName_plain (base file : string) :
  free_of "/" file = true -> free_of "?" file = true ->
  mod_fileName (base +:+ "/" +:+ file) = file.
Proof.
  intros Hf Hq. unfold mod_fileName. cbn [String.append].
  rewrite pop_split_append, (split_free "/" _ Hf). cbn [pop map List.last to_str].
  rewrite (split_free "?" _ Hq). reflexivity.
Qed.

Lemma existsSync_insert (fs : gmap string Fs.Node) (p : string) (n : Fs.Node) :
  Fs.existsSync (<[p := n]> fs) p = true.
Proof.
  unfold Fs.existsSync. apply bool_decide_eq_true. rewrite lookup_insert_eq. eauto.
Qed.

(** Staging a URL a second time finds the file of the first time, skips
    the download and leaves the file system as it is, whatever the network
    answered the first time and would answer now. *)
Lemma stage_url_idempotent (remote remote' : string -> FetchResult)
    (dir url : string) (fs : gmap string Fs.Node) (evs : list Event) :
  mod_fileName url <> "" ->
  let st1 := stage_url remote dir (fs, evs) url in
  Fs.existsSync st1.1.1 (dir +:+ "/" +:+ mod_fileName url) = true
  /\ stage_url remote' dir st1.1 url =
     (st1.1.1, st1.1.2 ++ [emit "data" [JStr ("⏭️  Mod already exists: "
                                              +:+ mod_fileName url +:+ nl)]],
      None).
Proof.
  intros Hname st1.
  assert (Hjoin : Path.join dir (mod_fileName url) = dir +:+ "/" +:+ mod_fileName url)
    by (destruct (mod_fileName url); [congruence | reflexivity]).
  assert (Hex : Fs.existsSync st1.1.1 (dir +:+ "/" +:+ mod_fileName url) = true).
  { subst st1. unfold stage_url. rewrite Hjoin.
    destruct (Fs.existsSync fs _) eqn:Hfs; [exact Hfs|].
    unfold Downloader.downloadFile.
    destruct (remote url) as [e|chunks|chunks e flushed]; cbn [fst];
      apply existsSync_insert. }
  split; [exact Hex|].
  destruct st1 as [[fs1 evs1] r1]. cbn [fst snd] in *.
  unfold stage_url. rewrite Hjoin, Hex. reflexivity.
Qed.

(** C9 (failing input).  For a URL whose query string contains a slash
    the staged name is taken from the query, not from the path, and the
    mod is stored under that name. *)
Theorem mod_fileName_slash_in_query :
  mod_fileName signed_url = "cd"
  /\ (stage_url cdn mods_dir (∅, []) signed_url).1.1
     = {[ "/home" := Fs.Dir; "/home/steve" := Fs.Dir;
          "/home/steve/minecraft" := Fs.Dir;
          "/home/steve/minecraft/instances" := Fs.Dir;
          "/home/steve/minecraft/instances/Fabric1214" := Fs.Dir;
          mods_dir := Fs.Dir; mods_dir +:+ "/cd" := Fs.File "PKmod" ]}.
Proof. split; vm_compute; reflexivity. Qed.

End ModsFacts.

(** ** Further properties of the downloader (Downloader.js) *)
Module DownloaderMoreFacts.
Import JsString Downloader DownloaderTrace.

(** [checkMirror] answers with the first mirror, in the order given, whose
    probe succeeds, and with nothing only when every probe fails. *)
Theorem checkMirror_first_success (net : Forge.Net) (baseURL : string)
    (ms : list string) :
  match Forge.checkMirror net baseURL ms with
  | Some (url, size) =>
      exists pre mirror post,
        ms = pre ++ mirror :: post
        /\ url = mirror +:+ "/" +:+ baseURL
        /\ Forge.head_probe net url = Some size
        /\ Forall (fun m => Forge.head_probe net (m +:+ "/" +:+ baseURL) = None) pre
  | None =>
      Forall (fun m => Forge.head_probe net (m +:+ "/" +:+ baseURL) = None) ms
  end.
Proof.
  induction ms as [|m ms IH]; cbn [Forge.checkMirror]; [constructor|].
  destruct (Forge.head_probe net (m +:+ "/" +:+ baseURL)) as [size|] eqn:Hm.
  - exists [], m, ms. repeat split; [exact Hm | constructor].
  - destruct (Forge.checkMirror net baseURL ms) as [[url size]|].
    + destruct IH as (pre & mirror & post & -> & -> & Hp & Hpre).
      exists (m :: pre), mirror, post. repeat split; [exact Hp|].
      constructor; assumption.
    + constructor; assumption.
Qed.

Section Multiple.
Context {num : Type} `{JsNumber num}.
Implicit Types (st : State num) (ins : list Input) (listening : bool).

(** Every file that was started is counted as completed, or still in
    flight, or it failed on a downloader that does not hear its errors,
    in which case the error was thrown and the file is counted nowhere
    (this does not happen when the errors are heard); no file is in
    flight twice, and neither the queue index nor the completed count
    passes the number of files. *)
Theorem started_files_are_accounted_for listening (n : nat)
    (size limit now : Z) ins st :
  run listening n size (init n limit now) ins = Some st ->
  (completed st + length (inflight st) + length (uncaught st) = queued st)%nat
  /\ length (uncaught st)
     = (if listening then 0 else length (List.filter is_failure ins))%nat
  /\ (queued st <= n)%nat
  /\ (completed st <= n)%nat
  /\ NoDup (inflight st)
  /\ Forall (fun f => (f < queued st)%nat) (inflight st).
Proof.
  intros Hrun.
  destruct (DownloaderFacts.wf_run _ _ _ _ _ _ _
              (DownloaderFacts.wf_init n limit now) Hrun)
    as (Hsum & Hq & Hnd & Hlt).
  destruct (DownloaderFacts.run_tallies _ _ _ _ _ _ Hrun) as (_ & _ & Hu).
  destruct (DownloaderFacts.init_fresh (num:=num) n limit now) as (_ & _ & Hu0).
  rewrite Hu0 in Hu. cbn [length Nat.add] in Hu.
  repeat split; try assumption; lia.
Qed.

Lemma init_nonpositive (n : nat) (limit now : Z) :
  limit <= 0 ->
  init n limit now =
  ({| completed := 0; downloaded := 0; queued := 0; start := now; before := 0;
      speeds := []; inflight := []; events := []; uncaught := [] |} : State num).
Proof.
  intros Hl. unfold init, effective_limit.
  destruct (Z.gtb_spec limit (Z.of_nat n)); [lia|].
  replace (Z.to_nat limit) with 0%nat by lia. reflexivity.
Qed.

(** With a pool size of zero or less and at least one file, no transfer is
    ever started, no transfer callback can occur and the poll never
    resolves: the returned promise stays pending. *)
Theorem nonpositive_limit_never_resolves listening (n : nat)
    (size limit now : Z) ins st :
  limit <= 0 -> (0 < n)%nat ->
  run listening n size (init n limit now) ins = Some st ->
  inflight st = [] /\ queued st = 0%nat /\ completed st = 0%nat
  /\ poll n st = false
  /\ List.filter is_terminal ins = [] /\ List.filter is_chunk ins = [].
Proof.
  intros Hl Hn Hrun. rewrite (init_nonpositive n limit now Hl) in Hrun.
  pose proof (fun Hi Hc0 => DownloaderFacts.idle_run listening n size ins _ st Hi Hc0 Hrun)
    as Hidle.
  destruct (Hidle eq_refl eq_refl) as (Hin & Hc & Ht & Hch). clear Hidle.
  assert (Hq : queued st = 0%nat).
  { destruct (fun Hw => DownloaderFacts.wf_run listening n 0 size ins _ st Hw Hrun)
      as (Hsum & Hq & _).
    - unfold wf. cbn. repeat split; [lia | constructor | constructor].
    - rewrite Hin, Hc in Hsum. cbn in Hsum. lia. }
  repeat split; try assumption.
  unfold poll. rewrite Hc. apply Nat.eqb_neq. lia.
Qed.

Lemma step_downloaded listening (n : nat) (size : Z) st st' (i : Input) :
  step listening n size st i = Some st' ->
  downloaded st' = downloaded st + chunk_bytes [i]
  /\ List.filter is_progress_event (events st') =
     List.filter is_progress_event (events st)
     ++ match i with
        | Chunk f len => [EvProgress (downloaded st + len) size f]
        | _ => []
        end.
Proof.
  destruct i as [f e|f len|f|f e|now]; cbn [step chunk_bytes];
    try (case_bool_decide; [|discriminate]); intros [= <-];
    destruct listening;
    unfold finish, finish_failed, finish_ok, downloadNext, tick; cbn [queued];
    try (destruct (Nat.leb n (queued st))); cbn [downloaded events];
    rewrite ?List.filter_app; cbn; rewrite ?app_nil_r; split; try reflexivity; lia.
Qed.

(** The byte counter is the sum of the lengths of the chunks received, and
    every chunk has produced exactly one [progress] event. *)
Theorem downloaded_is_sum_of_chunks listening (n : nat) (size limit now : Z)
    ins st :
  run listening n size (init n limit now) ins = Some st ->
  downloaded st = chunk_bytes ins
  /\ length (List.filter is_progress_event (events st))
     = length (List.filter is_chunk ins).
Proof.
  intros Hrun.
  assert (Hgen : forall ins st0 st1,
             run listening n size st0 ins = Some st1 ->
             downloaded st1 = downloaded st0 + chunk_bytes ins
             /\ length (List.filter is_progress_event (events st1))
                = (length (List.filter is_progress_event (events st0))
                   + length (List.filter is_chunk ins))%nat).
  { clear. induction ins as [|i ins IH]; intros st0 st1; cbn [run].
    - intros [= <-]. cbn. split; lia.
    - destruct (step listening n size st0 i) as [st'|] eqn:Hstep; [|discriminate].
      intros Hrun. destruct (IH _ _ Hrun) as [Hd Hp].
      destruct (step_downloaded _ _ _ _ _ _ Hstep) as [Hd' Hp'].
      rewrite Hd, Hd', Hp, Hp', length_app.
      destruct i; cbn; split; lia. }
  destruct (Hgen _ _ _ Hrun) as [Hd Hp].
  destruct (DownloaderFacts.init_fresh (num:=num) n limit now) as (_ & He & _).
  rewrite He in Hp. cbn in Hp.
  assert (Hd0 : downloaded (init n limit now : State num) = 0).
  { unfold init. pose proof (DownloaderFacts.effective_limit_le n limit).
    rewrite DownloaderFacts.iter_downloadNext by (cbn; lia). reflexivity. }
  rewrite Hd0 in Hd. split; [lia | exact Hp].
Qed.

End Multiple.

Lemma started_files_are_accounted_for_witness :
  exists st : State Q,
    run false 3 300 (init 3 2 0) [FetchFailed 0 "AbortError"; Chunk 1 100] = Some st
    /\ (completed st + length (inflight st) + length (uncaught st)
        = queued st)%nat
    /\ length (uncaught st) = 1%nat.
Proof.
  eexists. split; [vm_compute; reflexivity|].
  match goal with
  | |- (completed ?s + _ + _ = _)%nat /\ _ =>
      destruct (started_files_are_accounted_for false 3 300 2 0
                  [FetchFailed 0 "AbortError"; Chunk 1 100] s eq_refl)
        as (Hsum & Hu & _)
  end.
  split; [exact Hsum | exact Hu].
Defined.

Lemma nonpositive_limit_never_resolves_witness :
  exists st : State Q,
    run true 2 300 (init 2 0 0) [Tick 500; Tick 1000] = Some st
    /\ poll 2 st = false.
Proof.
  eexists. split; [vm_compute; reflexivity|].
  match goal with
  | |- poll _ ?s = false =>
      destruct (nonpositive_limit_never_resolves true 2 300 0 0
                  [Tick 500; Tick 1000] s
                  ltac:(lia) ltac:(lia) eq_refl) as (_ & _ & _ & Hp & _)
  end.
  exact Hp.
Defined.

Lemma downloaded_is_sum_of_chunks_witness :
  exists st : State Q,
    run true 1 300 (init 1 1 0) [Chunk 0 100; Chunk 0 200; StreamEnd 0] = Some st
    /\ downloaded st = 300.
Proof.
  eexists. split; [vm_compute; reflexivity|].
  match goal with
  | |- downloaded ?s = _ =>
      exact (proj1 (downloaded_is_sum_of_chunks true 1 300 1 0
                      [Chunk 0 100; Chunk 0 200; StreamEnd 0] s eq_refl))
  end.
Defined.

(** [downloadFile] on a file system where the target is not a directory
    and no parent of the folder is a regular file (where Node fails in
    other ways).  It leaves a file at [dirPath/fileName]: with the whole
    body when the body ended, empty when the request itself failed, and
    with the chunks flushed before the writer was destroyed when the
    body failed.  It resolves exactly for a body that ended; a failed
    request rejects; a failed body rejects after an [error] event when
    the downloader has a listener for it, and otherwise throws out of
    the stream's handler, so that the promise never settles.  The folder
    exists afterwards; besides the target, whatever existed is
    unchanged, and only missing parents of the folder are created, as
    directories. *)
Theorem downloadFile_leaves_a_file (listening : bool)
    (remote : string -> FetchResult) (len : string -> Z)
    (fs : gmap string Fs.Node) (url dir f : string) :
  dir <> "" ->
  fs !! (dir +:+ "/" +:+ f) <> Some Fs.Dir ->
  (forall p c, fs !! p = Some (Fs.File c) -> startsWith dir p = false) ->
  let '(fs', evs, out) := downloadFile listening remote len fs url dir f in
  let target := dir +:+ "/" +:+ f in
  Fs.readFile fs' target
  = Some match remote url with
         | FetchRejected _ => ""
         | FetchBody chunks => join "" chunks
         | FetchBroken chunks _ flushed => join "" (take flushed chunks)
         end
  /\ out = match remote url with
           | FetchRejected e => Rejected e
           | FetchBody _ => Resolved
           | FetchBroken _ e _ => if listening then Rejected e else Uncaught e
           end
  /\ (out = Resolved <-> exists chunks, remote url = FetchBody chunks)
  /\ (In (emit "error" [JStr (match out with
                              | Rejected e | Uncaught e => e
                              | Resolved => ""
                              end)]) evs
      <-> listening = true
          /\ exists chunks e k, remote url = FetchBroken chunks e k)
  /\ (forall p n, p <> target -> fs !! p = Some n -> fs' !! p = Some n)
  /\ (forall p, p <> target -> startsWith dir p = false -> fs' !! p = fs !! p)
  /\ (forall p, p <> target -> fs' !! p = fs !! p \/ fs' !! p = Some Fs.Dir)
  /\ Fs.existsSync fs' dir = true.
Proof.
  intros Hdir Htarget Hparents. unfold downloadFile.
  set (target := dir +:+ "/" +:+ f).
  assert (Hne : dir <> target).
  { intros Heq. apply (f_equal String.length) in Heq. subst target.
    rewrite !JsStringFacts.length_append in Heq. cbn in Heq. lia. }
  assert (Hgrow : forall c p n, p <> target -> fs !! p = Some n ->
            Fs.writeFileSync (Fs.mkdir_if_missing fs dir) target c !! p = Some n).
  { intros c p n Hp Hfs. unfold Fs.writeFileSync.
    rewrite lookup_insert_ne by congruence.
    now apply FsFacts.mkdir_if_missing_grows. }
  assert (Hframe : forall c p, p <> target -> startsWith dir p = false ->
            Fs.writeFileSync (Fs.mkdir_if_missing fs dir) target c !! p = fs !! p).
  { intros c p Hp Hs. unfold Fs.writeFileSync.
    rewrite lookup_insert_ne by congruence.
    now apply FsFacts.mkdir_if_missing_frame. }
  assert (Hnew : forall c p, p <> target ->
            Fs.writeFileSync (Fs.mkdir_if_missing fs dir) target c !! p = fs !! p
            \/ Fs.writeFileSync (Fs.mkdir_if_missing fs dir) target c !! p
               = Some Fs.Dir).
  { intros c p Hp. unfold Fs.writeFileSync.
    rewrite lookup_insert_ne by congruence.
    apply FsFacts.mkdir_if_missing_new. }
  assert (Hex : forall c,
            Fs.existsSync (Fs.writeFileSync (Fs.mkdir_if_missing fs dir) target c) dir
            = true).
  { intros c. unfold Fs.writeFileSync.
    pose proof (FsFacts.mkdir_if_missing_exists fs dir Hdir) as He.
    apply FsFacts.existsSync_true in He. apply FsFacts.existsSync_true.
    now rewrite lookup_insert_ne by congruence. }
  assert (Hread : forall c,
            Fs.readFile (Fs.writeFileSync (Fs.mkdir_if_missing fs dir) target c)
                        target = Some c).
  { intros c. unfold Fs.readFile, Fs.writeFileSync. now rewrite lookup_insert_eq. }
  assert (Hprog : forall e d chunks,
            ~ In (emit "error" [JStr e]) (progress_events d (len url) chunks)).
  { intros e d chunks. revert d.
    induction chunks as [|ch tl IH]; intros d; cbn [progress_events].
    - intros [].
    - intros [Heq|Hin]; [discriminate | exact (IH _ Hin)]. }
  destruct (remote url) as [e|chunks|chunks e k];
    [| |destruct listening]; cbv zeta;
    (split; [apply Hread|]); (split; [reflexivity|]);
    (split; [|split; [|split; [apply Hgrow|split; [apply Hframe|
                               split; [apply Hnew | apply Hex]]]]]).
  - split; [discriminate | intros [? ?]; discriminate].
  - split; [intros [] | intros [_ (? & ? & ? & ?)]; discriminate].
  - split; [eauto | reflexivity].
  - split; [intros Hin; exfalso; exact (Hprog _ _ _ Hin)
           | intros [_ (? & ? & ? & ?)]; discriminate].
  - split; [discriminate | intros [? ?]; discriminate].
  - split; [intros _; split; [reflexivity | eauto]|].
    intros _. apply in_or_app. right. left. reflexivity.
  - split; [discriminate | intros [? ?]; discriminate].
  - split; [intros Hin; exfalso; exact (Hprog _ _ _ Hin) | intros [? _]; discriminate].
Qed.

Lemma downloadFile_leaves_a_file_witness :
  Fs.readFile
    (downloadFile false (fun _ => FetchBroken ["PK"; "mod"] "ECONNRESET" 1)
       (fun _ => 5) ∅ "https://cdn.example.com/a.jar" "/mods" "a.jar").1.1
    "/mods/a.jar" = Some "PK".
Proof.
  pose proof (downloadFile_leaves_a_file false
                (fun _ => FetchBroken ["PK"; "mod"] "ECONNRESET" 1)
                (fun _ => 5) ∅ "https://cdn.example.com/a.jar" "/mods" "a.jar"
                ltac:(discriminate)
                ltac:(rewrite lookup_empty; discriminate)
                ltac:(intros p c Hp; rewrite lookup_empty in Hp; discriminate))
    as Hfile.
  destruct (downloadFile false _ _ ∅ _ "/mods" "a.jar") as [[fs' evs] out].
  exact (proj1 Hfile).
Defined.

End DownloaderMoreFacts.

(** ** Further properties of Index.js *)
Module IndexMoreFacts.
Import JsString JsStringFacts Index Archive.

(** A coordinate whose classifier carries an [@ext] suffix: the extension
    takes the place of [.jar] after the classifier, the directory and the
    version field are those of the bare version, and the native suffix and
    the forced extension passed by the caller are dropped. *)
Theorem getPathLibraries_classifier_ext (g a v c e : string)
    (native ext : option string) :
  free_of ":" g = true -> free_of ":" a = true -> free_of ":" v = true ->
  free_of ":" c = true -> free_of ":" e = true -> c <> "" ->
  free_of "@" v = true -> free_of "@" c = true ->
  getPathLibraries (g +:+ ":" +:+ a +:+ ":" +:+ v +:+ ":" +:+ c +:+ "@" +:+ e)
                   native ext =
  Some {| path := replace_char_g "." "/" g +:+ "/" +:+ a +:+ "/" +:+ v;
          name := a +:+ "-" +:+ v +:+ "-" +:+ c +:+ "." +:+ e;
          version := v |}.
Proof.
  intros Hg Ha Hv Hc He Hne Hatv Hatc. unfold getPathLibraries.
  cbn [String.append].
  rewrite (split_append ":" _ _ Hg), (split_append ":" _ _ Ha),
          (split_append ":" _ _ Hv).
  assert (Hce : free_of ":" (c +:+ String "@" e) = true).
  { rewrite free_of_append, Hc. cbn. exact He. }
  rewrite (split_free ":" _ Hce). cbn [lookup list_lookup].
  destruct c as [|x c]; [congruence|]. cbn [String.append truthy to_str].
  assert (Hvc : free_of "@" (v +:+ String "-" (String x c)) = true).
  { rewrite free_of_append, Hatv. cbn. cbn in Hatc. exact Hatc. }
  replace (v +:+ String "-" (String x (c +:+ String "@" e)))
    with ((v +:+ String "-" (String x c)) +:+ String "@" e)
    by (rewrite append_assoc; reflexivity).
  rewrite (includes_char_append "@" _ e), (replace_char_append "@" "." _ e Hvc),
          (split_free "@" v Hatv).
  cbn [lookup list_lookup to_str]. rewrite !append_assoc. reflexivity.
Qed.

Lemma getPathLibraries_classifier_ext_witness :
  getPathLibraries "net.minecraft:client:1.16.5-20210115.111550:mappings@txt"
                   (Some "-clientdata") (Some ".lzma") =
  Some {| path := "net/minecraft/client/1.16.5-20210115.111550";
          name := "client-1.16.5-20210115.111550-mappings.txt";
          version := "1.16.5-20210115.111550" |}.
Proof.
  exact (getPathLibraries_classifier_ext "net.minecraft" "client"
           "1.16.5-20210115.111550" "mappings" "txt"
           (Some "-clientdata") (Some ".lzma")
           eq_refl eq_refl eq_refl eq_refl eq_refl ltac:(discriminate)
           eq_refl eq_refl).
Defined.

(** [getPathLibraries] throws exactly on the strings that have fewer than
    three colon-separated segments, whatever the other two arguments. *)
Theorem getPathLibraries_throws_iff (main : string) (native ext : option string) :
  getPathLibraries main native ext = None <-> (length (split ":" main) < 3)%nat.
Proof.
  unfold getPathLibraries.
  destruct (split ":" main) as [|l0 [|l1 [|l2 rest]]]; cbn [lookup list_lookup length];
    split; try reflexivity; try lia; try discriminate.
  all: intros _; lia.
Qed.

Lemma fold_rule_step_features (platform : string) (rs : list Rule) : forall b,
  fold_left (rule_step platform) rs b =
  fold_left (rule_step platform) (List.filter (fun r => negb (features r)) rs) b.
Proof.
  induction rs as [|r rs IH]; intros b; [reflexivity|].
  cbn [fold_left List.filter]. unfold rule_step at 2.
  destruct (features r) eqn:Hf; cbn [negb].
  - apply IH.
  - cbn [fold_left]. rewrite IH. unfold rule_step at 3. rewrite Hf. reflexivity.
Qed.

(** Rules that carry a [features] clause have no influence: removing them
    from the list never changes whether the library is skipped. *)
Theorem skipLibrary_ignores_feature_rules (platform : string) (lib : Library)
    (rs : list Rule) :
  rules lib = Some rs ->
  skipLibrary platform lib =
  skipLibrary platform
    {| lib_name := lib_name lib;
       rules := Some (List.filter (fun r => negb (features r)) rs);
       natives := natives lib; artifact := artifact lib |}.
Proof.
  intros Hr. unfold skipLibrary. rewrite Hr. cbn [rules].
  apply fold_rule_step_features.
Qed.

Lemma skipLibrary_ignores_feature_rules_witness :
  skipLibrary "linux"
    {| lib_name := "org.lwjgl:lwjgl:3.3.1";
       rules := Some [ {| action := Some "allow"; os := None; features := false |};
                       {| action := Some "disallow"; os := None; features := true |} ];
       natives := None; artifact := None |}
  = skipLibrary "linux"
    {| lib_name := "org.lwjgl:lwjgl:3.3.1";
       rules := Some [ {| action := Some "allow"; os := None; features := false |} ];
       natives := None; artifact := None |}.
Proof.
  exact (skipLibrary_ignores_feature_rules "linux"
           {| lib_name := "org.lwjgl:lwjgl:3.3.1";
              rules := Some [ {| action := Some "allow"; os := None; features := false |};
                              {| action := Some "disallow"; os := None; features := true |} ];
              natives := None; artifact := None |} _ eq_refl).
Defined.

(** *** getFileFromArchive *)

Lemma scan_read (f : string) (prefix : option string) (includeDirs : bool)
    (entries : list Entry) : forall result,
  f <> "" -> truthy prefix = false ->
  scan (Some f) prefix includeDirs entries result =
  match List.find (fun e => (includeDirs || negb (isDirectory e))
                            && String.eqb (entryName e) f) entries with
  | Some e => RData (data e)
  | None => RUndefined
  end.
Proof.
  intros result Hf Hp. revert result.
  assert (Htf : truthy (Some f) = true) by (destruct f; [congruence|reflexivity]).
  induction entries as [|e tl IH]; intros result; cbn [scan List.find].
  - now rewrite Htf, Hp.
  - rewrite Hp, Htf. cbn [negb]. rewrite !andb_true_r, !andb_false_r.
    replace (if includeDirs then true else negb (isDirectory e))
      with (includeDirs || negb (isDirectory e)) by (now destruct includeDirs).
    destruct (String.eqb_spec (entryName e) f) as [Heq|Hne].
    + rewrite bool_decide_eq_true_2 by congruence. rewrite andb_true_r.
      destruct (includeDirs || negb (isDirectory e)); [reflexivity|]. apply IH.
    + rewrite bool_decide_eq_false_2 by congruence. rewrite !andb_false_r. apply IH.
Qed.

(** Reading one entry by name, without prefix: the data of the first
    entry with exactly that name (directories count only when [includeDirs]
    is set), and [undefined], not an exception, when there is none. *)
Theorem getFileFromArchive_reads_by_name (entries : list Entry) (f : string)
    (prefix : option string) (includeDirs : bool) :
  f <> "" -> truthy prefix = false ->
  getFileFromArchive entries (Some f) prefix includeDirs =
  match List.find (fun e => (includeDirs || negb (isDirectory e))
                            && String.eqb (entryName e) f) entries with
  | Some e => RData (data e)
  | None => RUndefined
  end.
Proof. intros Hf Hp. apply scan_read; assumption. Qed.

Lemma getFileFromArchive_reads_by_name_witness :
  getFileFromArchive
    [ {| entryName := "META-INF/"; isDirectory := true; data := "" |};
      {| entryName := "install_profile.json"; isDirectory := false;
         data := "{}" |} ]
    (Some "install_profile.json") None false = RData "{}".
Proof.
  exact (getFileFromArchive_reads_by_name _ "install_profile.json" None false
           ltac:(discriminate) eq_refl).
Defined.

Lemma scan_prefix (file : option string) (p : string) (includeDirs : bool)
    (entries : list Entry) : forall result,
  p <> "" ->
  scan file (Some p) includeDirs entries result =
  RList (result ++
         map (fun e => IName (entryName e))
             (List.filter (fun e => negb (isDirectory e) && includes (entryName e) p)
                          entries)).
Proof.
  intros result Hp. revert result.
  assert (Htp : truthy (Some p) = true) by (destruct p; [congruence|reflexivity]).
  induction entries as [|e tl IH]; intros result; cbn [scan List.filter map].
  - rewrite Htp, andb_false_r, app_nil_r. reflexivity.
  - rewrite Htp. cbn [negb null_str]. rewrite !andb_false_r.
    replace (if includeDirs then false else false) with false by (now destruct includeDirs).
    cbn [andb]. rewrite IH.
    destruct (negb (isDirectory e) && includes (entryName e) p); cbn [map].
    + now rewrite <- app_assoc.
    + reflexivity.
Qed.

(** Listing by prefix: with a non-empty prefix the result is the list of
    the names of the entries that are not directories and whose name
    contains the prefix anywhere, in archive order; the [file] argument and
    [includeDirs] are ignored. *)
Theorem getFileFromArchive_lists_by_prefix (entries : list Entry)
    (file : option string) (p : string) (includeDirs : bool) :
  p <> "" ->
  getFileFromArchive entries file (Some p) includeDirs =
  RList (map (fun e => IName (entryName e))
             (List.filter (fun e => negb (isDirectory e) && includes (entryName e) p)
                          entries)).
Proof. intros Hp. unfold getFileFromArchive. now rewrite scan_prefix. Qed.

Lemma getFileFromArchive_lists_by_prefix_witness :
  getFileFromArchive
    [ {| entryName := "maven/net/minecraftforge/forge/"; isDirectory := true; data := "" |};
      {| entryName := "maven/net/minecraftforge/forge/forge-universal.jar";
         isDirectory := false; data := "PK" |};
      {| entryName := "data/client.lzma"; isDirectory := false; data := "LZ" |} ]
    (Some "install_profile.json") (Some "maven/net/minecraftforge/forge") true
  = RList [IName "maven/net/minecraftforge/forge/forge-universal.jar"].
Proof.
  exact (getFileFromArchive_lists_by_prefix _ (Some "install_profile.json")
           "maven/net/minecraftforge/forge" true ltac:(discriminate)).
Defined.

End IndexMoreFacts.

(** ** Further properties of the Forge backend (forge.js) *)
Module ForgeMoreFacts.
Import JsString Index Forge ForgePlan.

(** *** Removal of duplicates *)

Lemma dedup_by_name_spec (l : list Library) : forall seen,
  (forall lib, lib ∈ dedup_by_name seen l <->
               (lib_name lib ∉ seen) /\ first_named l lib)
  /\ NoDup (map lib_name (dedup_by_name seen l))
  /\ sublist (dedup_by_name seen l) l.
Proof.
  unfold first_named.
  induction l as [|x tl IH]; intros seen; cbn [dedup_by_name List.find].
  - split; [|split; [constructor | constructor]].
    intros lib. split; [intros Hin; inversion Hin | intros [_ Hf]; discriminate].
  - case_bool_decide as Hseen.
    + destruct (IH seen) as (Hmem & Hnd & Hsub).
      split; [|split; [exact Hnd | now apply sublist_cons]].
      intros lib. rewrite Hmem.
      destruct (String.eqb_spec (lib_name x) (lib_name lib)) as [Heq|Hne].
      * split; [intros [Hn _]; congruence | intros [Hn _]; congruence].
      * reflexivity.
    + destruct (IH (lib_name x :: seen)) as (Hmem & Hnd & Hsub).
      split; [|split].
      * intros lib. rewrite elem_of_cons, Hmem, not_elem_of_cons.
        destruct (String.eqb_spec (lib_name x) (lib_name lib)) as [Heq|Hne].
        -- split.
           ++ intros [->|[[Hn _] _]]; [split; [exact Hseen|reflexivity] | congruence].
           ++ intros [_ [= ->]]. now left.
        -- split.
           ++ intros [->|[[_ Hn] Hf]]; [congruence | split; assumption].
           ++ intros [Hn Hf]. right. repeat split; try assumption. congruence.
      * cbn [map]. constructor; [|exact Hnd].
        intros Hin. apply list_elem_of_fmap in Hin as (y & Hy & Hin).
        apply Hmem in Hin as [Hn _]. apply Hn. rewrite <- Hy. apply list_elem_of_here.
      * now apply sublist_skip.
Qed.

(** The library list of a profile after the removal of duplicates: no name
    occurs twice, an entry is kept exactly when it is the first of its name
    in [version.libraries] followed by [install.libraries], and the order
    of the kept entries is that of the input. *)
Theorem all_libraries_keeps_first_of_each_name (p : Profile) :
  let input := default [] (version_libraries p) ++ default [] (install_libraries p) in
  NoDup (map lib_name (all_libraries p))
  /\ (forall lib, lib ∈ all_libraries p <-> first_named input lib)
  /\ sublist (all_libraries p) input.
Proof.
  intros input.
  assert (Hall : all_libraries p = dedup_by_name [] input).
  { unfold all_libraries, input. destruct (install_libraries p); cbn [default from_option].
    - reflexivity.
    - now rewrite app_nil_r. }
  rewrite Hall. destruct (dedup_by_name_spec input []) as (Hmem & Hnd & Hsub).
  split; [exact Hnd|]. split; [|exact Hsub].
  intros lib. rewrite Hmem. split; [now intros [_ ?]|].
  intros Hf. split; [apply not_elem_of_nil | exact Hf].
Qed.

(** *** The download plan *)

Lemma plan_library_step platform o net fs skipF total pl lib pl' :
  plan_library platform o net fs skipF total pl lib = Some pl' ->
  checkCount pl' = checkCount pl + 1
  /\ List.filter is_check (emitted pl') =
     List.filter is_check (emitted pl)
     ++ [emit "check" [JNum (checkCount pl); JNum (Z.of_nat total); JStr "libraries"]]
  /\ forall item, item ∈ downloadList pl' ->
       item ∈ downloadList pl
       \/ (Fs.existsSync fs (dl_path item) = false
           /\ dl_path item = Path.resolve (dl_folder item) (dl_name item)
           /\ dl_url item <> "").
Proof.
  unfold plan_library. intros Hplan.
  destruct (_ && negb _).
  { injection Hplan as <-. cbn. rewrite List.filter_app. cbn. auto. }
  destruct (skipLibrary platform lib).
  { injection Hplan as <-. cbn. rewrite List.filter_app. cbn. auto. }
  destruct (getPathLibraries _ _ None) as [libInfo|]; [|discriminate].
  destruct (Fs.existsSync _ _) eqn:Hex.
  { injection Hplan as <-. cbn. rewrite List.filter_app. cbn. auto. }
  repeat case_match; simplify_eq; cbn;
    rewrite ?List.filter_app; cbn; rewrite ?app_nil_r;
    (split; [lia|]); (split; [reflexivity|]); intros item Hin; auto.
  all: apply elem_of_app in Hin as [Hin|Hin]; [left; exact Hin|].
  all: apply list_elem_of_singleton in Hin; subst item; right; cbn.
  all: repeat split; try assumption; discriminate.
Qed.

Lemma plan_libraries_steps platform o net fs skipF total libs : forall pl pl' (k : nat),
  plan_libraries platform o net fs skipF total pl libs = Some pl' ->
  checkCount pl = Z.of_nat k ->
  checkCount pl' = Z.of_nat (k + length libs)
  /\ List.filter is_check (emitted pl') =
     List.filter is_check (emitted pl) ++ map (check_event total) (seq k (length libs))
  /\ forall item, item ∈ downloadList pl' ->
       item ∈ downloadList pl
       \/ (Fs.existsSync fs (dl_path item) = false
           /\ dl_path item = Path.resolve (dl_folder item) (dl_name item)
           /\ dl_url item <> "").
Proof.
  induction libs as [|lib libs IH]; intros pl pl' k Hplan Hk; cbn [plan_libraries] in Hplan.
  - injection Hplan as <-. cbn. rewrite app_nil_r, Nat.add_0_r. auto.
  - destruct (plan_library _ _ _ _ _ _ pl lib) as [pl1|] eqn:H1; [|discriminate].
    destruct (plan_library_step _ _ _ _ _ _ _ _ _ H1) as (Hc1 & He1 & Hi1).
    destruct (IH pl1 pl' (S k) Hplan) as (Hc & He & Hi); [lia|].
    split; [cbn [length]; lia|]. split.
    + rewrite He, He1, Hk, <- app_assoc. reflexivity.
    + intros item Hin. destruct (Hi item Hin) as [Hin1|Hnew]; [|right; exact Hnew].
      apply (Hi1 item Hin1).
Qed.

(** Every library of the profile is announced by exactly one [check]
    event, numbered from 0 in list order and carrying the number of
    libraries, whether it is skipped, already present, planned or missing. *)
Theorem downloadLibraries_checks_each_library platform o net fs p skipF libs pl :
  downloadLibraries platform o net fs p skipF = Some (libs, pl) ->
  checkCount pl = Z.of_nat (length libs)
  /\ List.filter is_check (emitted pl)
     = map (check_event (length libs)) (seq 0 (length libs)).
Proof.
  unfold downloadLibraries. intros Hdl.
  destruct (plan_libraries _ _ _ _ _ _ _ _) as [pl0|] eqn:Hplan; [|discriminate].
  injection Hdl as <- <-.
  destruct (plan_libraries_steps _ _ _ _ _ _ _ _ _ 0%nat Hplan eq_refl) as (Hc & He & _).
  split; [exact Hc | exact He].
Qed.

Lemma downloadLibraries_checks_each_library_witness :
  exists pl,
    downloadLibraries "linux" Samples.forge_options Samples.offline ∅
      Samples.profile false = Some (all_libraries Samples.profile, pl)
    /\ checkCount pl = 2.
Proof.
  eexists. split; [vm_compute; reflexivity|].
  refine (proj1 (downloadLibraries_checks_each_library "linux" Samples.forge_options
                   Samples.offline ∅ Samples.profile false
                   (all_libraries Samples.profile) _ _)).
  vm_compute. reflexivity.
Defined.

(** The plan only holds files that are absent from disk, each at
    [folder/name], each with a non-empty URL: a library that is present is
    never fetched again. *)
Theorem downloadLibraries_plans_absent_files platform o net fs p skipF libs pl :
  downloadLibraries platform o net fs p skipF = Some (libs, pl) ->
  forall item, item ∈ downloadList pl ->
    Fs.existsSync fs (dl_path item) = false
    /\ dl_path item = Path.resolve (dl_folder item) (dl_name item)
    /\ dl_url item <> "".
Proof.
  unfold downloadLibraries. intros Hdl item Hin.
  destruct (plan_libraries _ _ _ _ _ _ _ _) as [pl0|] eqn:Hplan; [|discriminate].
  injection Hdl as <- <-.
  destruct (plan_libraries_steps _ _ _ _ _ _ _ _ _ 0%nat Hplan eq_refl) as (_ & _ & Hi).
  destruct (Hi item Hin) as [Hnil|Hnew]; [inversion Hnil | exact Hnew].
Qed.

Lemma downloadLibraries_plans_absent_files_witness :
  exists libs pl,
    downloadLibraries "linux" Samples.forge_options Samples.offline ∅
      Samples.profile false = Some (libs, pl)
    /\ forall item, item ∈ downloadList pl ->
         Fs.existsSync ∅ (dl_path item) = false
         /\ dl_path item = Path.resolve (dl_folder item) (dl_name item)
         /\ dl_url item <> "".
Proof.
  eexists _, _. split; [vm_compute; reflexivity|].
  apply (downloadLibraries_plans_absent_files "linux" Samples.forge_options
           Samples.offline ∅ Samples.profile false (all_libraries Samples.profile)).
  vm_compute. reflexivity.
Defined.

End ForgeMoreFacts.

(** ** Further properties of the Forge installer download *)
Module InstallerMoreFacts.
Import JsString JsStringFacts Forge.

Lemma startsWith_resolve (dir f : string) : startsWith (Path.resolve dir f) dir = true.
Proof.
  unfold Path.resolve, Path.join.
  destruct f; [apply FsFacts.startsWith_refl | apply FsFacts.startsWith_append].
Qed.

Lemma outside_neq (p dir q : string) :
  startsWith p dir = false -> startsWith q dir = true -> q <> p.
Proof. intros Hp Hq ->. congruence. Qed.

(** Outside its folder a download only creates missing parents of the
    folder. *)
Lemma downloadFile_outside listening remote len fs url dir f p :
  startsWith p dir = false ->
  let fs' := (Downloader.downloadFile listening remote len
                (Fs.mkdir_if_missing fs dir) url dir f).1.1 in
  (startsWith dir p = false -> fs' !! p = fs !! p)
  /\ (forall n, fs !! p = Some n -> fs' !! p = Some n)
  /\ (fs' !! p = fs !! p \/ fs' !! p = Some Fs.Dir).
Proof.
  intros Hp fs'. subst fs'.
  destruct (DownloaderFacts.downloadFile_fs listening remote len
              (Fs.mkdir_if_missing fs dir) url dir f) as [c ->].
  unfold Fs.writeFileSync.
  rewrite lookup_insert_ne
    by (apply (outside_neq p dir), FsFacts.startsWith_append; exact Hp).
  split; [|split].
  - intros Hd. now rewrite !FsFacts.mkdir_if_missing_frame.
  - intros n Hn. now apply FsFacts.mkdir_if_missing_grows,
                           FsFacts.mkdir_if_missing_grows.
  - destruct (FsFacts.mkdir_if_missing_new (Fs.mkdir_if_missing fs dir) dir p)
      as [Heq|Hd]; [rewrite Heq; apply FsFacts.mkdir_if_missing_new | now right].
Qed.

(** Outside [<root>/libraries/net/minecraftforge/installer],
    [downloadInstaller] changes and removes nothing: a path that is not a
    parent of that folder is as before, what existed is as before, and
    all that can appear are missing parents of the folder, as
    directories.  When it fails before the hash comparison (unsupported
    version, unknown build, no usable classifier) it has not touched the
    disk at all and has emitted nothing. *)
Theorem downloadInstaller_stays_in_its_folder (md5 : string -> string)
    (o : Options) (net : Net) (L : LoaderUrls) (fs : gmap string Fs.Node) :
  let '(fs', evs, r) := downloadInstaller md5 o net L fs in
  (forall p, startsWith p (forgeFolder o) = false ->
     (startsWith (forgeFolder o) p = false -> fs' !! p = fs !! p)
     /\ (forall n, fs !! p = Some n -> fs' !! p = Some n)
     /\ (fs' !! p = fs !! p \/ fs' !! p = Some Fs.Dir))
  /\ (forall e, r = IError e -> e <> "Invalid hash" -> fs' = fs /\ evs = []).
Proof.
  assert (Hsame : forall p : string,
            (startsWith (forgeFolder o) p = false -> fs !! p = fs !! p)
            /\ (forall n, fs !! p = Some n -> fs !! p = Some n)
            /\ (fs !! p = fs !! p \/ fs !! p = Some Fs.Dir))
    by (intros p; repeat split; auto).
  unfold downloadInstaller.
  destruct (prop (versions net) (loader_version o)) as [builds|];
    [|split; [intros p _; apply Hsame | auto]].
  destruct (find_build _ builds) as [chosenBuild|];
    [|split; [intros p _; apply Hsame | auto]].
  destruct (pick_flavor _) as [[flavor obj]|];
    [|split; [intros p _; apply Hsame | auto]].
  set (url := replace_g (flavor_url L flavor) "${version}" chosenBuild
              +:+ "." +:+ to_str (first_key obj)).
  set (fileName := to_str (pop (split "/" url))).
  set (installerPath := Path.resolve (forgeFolder o) fileName).
  assert (Hin : startsWith installerPath (forgeFolder o) = true)
    by apply startsWith_resolve.
  destruct (Fs.existsSync fs installerPath).
  - destruct (Fs.readFile fs installerPath) as [content|].
    + destruct (bool_decide _); (split; [|intros e [= <-]; congruence]).
      * intros p _; apply Hsame.
      * intros p Hp. unfold Fs.rmSync.
        rewrite lookup_delete_ne
          by (apply (outside_neq p (forgeFolder o)); assumption).
        apply Hsame.
    + split; [intros p _; apply Hsame | discriminate].
  - pose proof (fun p => downloadFile_outside false (remote net)
                  (content_length net) fs url (forgeFolder o) fileName p)
      as Hout.
    destruct (Downloader.downloadFile _ _ _ _ url (forgeFolder o) fileName)
      as [[fs1 evs1] dl]. cbn [fst] in Hout.
    destruct dl as [|e0|e0]; try (split; [exact Hout | discriminate]).
    destruct (Fs.readFile fs1 installerPath) as [content|];
      [|split; [exact Hout | discriminate]].
    destruct (bool_decide _); (split; [|intros e [= <-]; congruence]).
    + exact Hout.
    + intros p Hp. unfold Fs.rmSync.
      rewrite lookup_delete_ne
        by (apply (outside_neq p (forgeFolder o)); assumption).
      apply Hout, Hp.
Qed.

(** The build a successful [downloadInstaller] reports is one of the
    builds that the metadata lists for the requested game version; it is
    the requested build itself unless ["latest"] or ["recommended"] was
    asked for, and the reported id is ["forge-"] followed by it. *)
Theorem downloadInstaller_reports_a_listed_build (md5 : string -> string)
    (o : Options) (net : Net) (L : LoaderUrls) (fs fs' : gmap string Fs.Node)
    (evs : list Event) (p b id : string) (ext : option string) :
  downloadInstaller md5 o net L fs = (fs', evs, IFile p b ext id) ->
  exists builds,
    prop (versions net) (loader_version o) = Some builds
    /\ In b builds /\ b <> ""
    /\ id = "forge-" +:+ b
    /\ Fs.existsSync fs' p = true
    /\ (loader_build o <> "latest" -> loader_build o <> "recommended" ->
        b = loader_build o).
Proof.
  unfold downloadInstaller.
  destruct (prop (versions net) (loader_version o)) as [builds|]; [|discriminate].
  destruct (find_build _ builds) as [chosenBuild|] eqn:Hfind; [|discriminate].
  assert (Hb : In chosenBuild builds /\ chosenBuild <> ""
               /\ resolve_build o net builds = Some chosenBuild).
  { unfold find_build in Hfind.
    destruct (List.find _ builds) as [[|c s]|] eqn:Hf; try discriminate.
    injection Hfind as <-. apply List.find_some in Hf as [Hin Heq].
    apply bool_decide_eq_true in Heq. repeat split; [exact Hin | discriminate | now symmetry]. }
  destruct Hb as (Hin & Hne & Hres).
  destruct (pick_flavor _) as [[flavor obj]|]; [|discriminate].
  set (installerPath := Path.resolve (forgeFolder o) _).
  assert (Hlit : loader_build o <> "latest" -> loader_build o <> "recommended" ->
                 chosenBuild = loader_build o).
  { intros H1 H2. unfold resolve_build in Hres.
    destruct (String.eqb_spec (loader_build o) "latest"); [contradiction|].
    destruct (String.eqb_spec (loader_build o) "recommended"); [contradiction|].
    congruence. }
  assert (Hread : forall m c, Fs.readFile m installerPath = Some c ->
                              Fs.existsSync m installerPath = true).
  { intros m c. unfold Fs.readFile, Fs.existsSync.
    destruct (m !! installerPath) as [[?|]|] eqn:Hm; try discriminate.
    intros _. apply bool_decide_eq_true. eauto. }
  destruct (Fs.existsSync fs installerPath) eqn:Hex.
  - destruct (Fs.readFile fs installerPath) as [content|] eqn:Hr; [|discriminate].
    destruct (bool_decide _); [|discriminate].
    intros [= <- <- <- <- <- <-]. exists builds. rewrite Hres. cbn [to_str].
    repeat split; assumption.
  - destruct (Downloader.downloadFile _ _ _ _ _ (forgeFolder o) _)
      as [[fs1 evs1] dl].
    destruct dl as [|e0|e0]; try discriminate.
    destruct (Fs.readFile fs1 installerPath) as [content|] eqn:Hr; [|discriminate].
    destruct (bool_decide _); [|discriminate].
    intros [= <- <- <- <- <- <-]. exists builds. rewrite Hres. cbn [to_str].
    repeat split; try assumption. apply (Hread _ _ Hr).
Qed.

Lemma downloadInstaller_reports_a_listed_build_witness :
  let '(fs', _, r) :=
    downloadInstaller Samples.digest Samples.forge_options MoreSamples.honest
      loader_forge ∅ in
  exists p ext,
    r = IFile p "1.20.1-47.2.0" ext "forge-1.20.1-47.2.0"
    /\ Fs.existsSync fs' p = true.
Proof.
  destruct (downloadInstaller Samples.digest Samples.forge_options
              MoreSamples.honest loader_forge ∅) as [[fs' evs] r] eqn:Hrun.
  pose proof (f_equal snd Hrun) as Hr. vm_compute in Hr. subst r.
  destruct (downloadInstaller_reports_a_listed_build _ _ _ _ _ _ _ _ _ _ _ Hrun)
    as (builds & _ & _ & _ & _ & Hex & _).
  eexists _, _. split; [reflexivity | exact Hex].
Defined.

End InstallerMoreFacts.

(** ** Further properties of the command log and of the supervision *)
Module LaunchMoreFacts.
Import JsString JsStringFacts Launch.

(** When one of the four credential fields is missing, its [replaceAll]
    searches for the text ["undefined"]: no occurrence of that word
    survives in the redacted command, whoever wrote it there. *)
Theorem redact_masks_the_word_undefined (a : option Authenticator) (s : string) :
  In None (redacted_fields a) ->
  includes (redact a s) "undefined" = false.
Proof.
  intros Hin.
  assert (Hm : maskable "undefined") by (split; [discriminate | reflexivity]).
  unfold redact.
  destruct Hin as [H|[H|[H|[H|[]]]]]; rewrite H; cbn [to_str].
  - do 3 apply (RedactionFacts.replaceAll_preserves_absence _ _ _ Hm).
    apply (RedactionFacts.replaceAll_removes _ _ Hm).
  - do 2 apply (RedactionFacts.replaceAll_preserves_absence _ _ _ Hm).
    apply (RedactionFacts.replaceAll_removes _ _ Hm).
  - apply (RedactionFacts.replaceAll_preserves_absence _ _ _ Hm).
    apply (RedactionFacts.replaceAll_removes _ _ Hm).
  - apply (RedactionFacts.replaceAll_removes _ _ Hm).
Qed.

Lemma redact_masks_the_word_undefined_witness :
  includes (redact (Some MoreSamples.alex) "--server undefined.example.org")
           "undefined" = false.
Proof.
  apply (redact_masks_the_word_undefined (Some MoreSamples.alex)).
  right. right. right. left. reflexivity.
Defined.

Lemma replaceAll_absent (s p r : string) :
  includes s p = false -> replaceAll s p r = s.
Proof.
  intros Hs. unfold replaceAll. destruct p as [|c p].
  - rewrite RedactionFacts.includes_empty in Hs. discriminate.
  - apply RedactionFacts.scan_absent, Hs.
Qed.

(** A command in which neither the four patterns nor [<root>/] occur is
    logged as it is, the arguments joined by single spaces. *)
Theorem argumentsLogs_unchanged_without_secrets (o : Options)
    (Arguments : list string) :
  Forall (fun f => includes (join " " Arguments) (to_str f) = false)
         (redacted_fields (authenticator o)) ->
  includes (join " " Arguments) (opt_path o +:+ "/") = false ->
  argumentsLogs o Arguments = join " " Arguments
  /\ launch_log o Arguments =
     emit "data" [JStr ("Launching with arguments " +:+ join " " Arguments)].
Proof.
  intros Hf Hroot. unfold redacted_fields in Hf.
  apply Forall_cons in Hf as [H1 Hf]. apply Forall_cons in Hf as [H2 Hf].
  apply Forall_cons in Hf as [H3 Hf]. apply Forall_cons in Hf as [H4 _].
  assert (Harg : argumentsLogs o Arguments = join " " Arguments).
  { unfold argumentsLogs, redact.
    rewrite (replaceAll_absent _ _ _ H1), (replaceAll_absent _ _ _ H2),
            (replaceAll_absent _ _ _ H3), (replaceAll_absent _ _ _ H4).
    apply replaceAll_absent, Hroot. }
  split; [exact Harg|]. unfold launch_log. now rewrite Harg.
Qed.

Lemma argumentsLogs_unchanged_without_secrets_witness :
  argumentsLogs Samples.launch_options ["-Xmx2G"; "--demo"] = "-Xmx2G --demo".
Proof.
  refine (proj1 (argumentsLogs_unchanged_without_secrets Samples.launch_options
                   ["-Xmx2G"; "--demo"] _ _)).
  - repeat constructor.
  - reflexivity.
Defined.

(** *** The archive name *)

Lemma free_of_replace_char_g (a b : ascii) (s : string) :
  a <> b -> free_of a (replace_char_g a b s) = true.
Proof.
  intros Hab. induction s as [|c s IH]; cbn; [reflexivity|]. rewrite IH, andb_true_r.
  destruct (Ascii.eqb_spec c a) as [->|Hc]; apply negb_true_iff, Ascii.eqb_neq; congruence.
Qed.

Lemma free_of_replace_char (c a b : ascii) (s : string) :
  b <> c -> free_of c s = true -> free_of c (replace_char a b s) = true.
Proof.
  intros Hbc. induction s as [|x s IH]; cbn; [reflexivity|].
  intros [Hx Hs]%andb_prop. destruct (Ascii.eqb x a); cbn.
  - rewrite Hs, andb_true_r. apply negb_true_iff, Ascii.eqb_neq, Hbc.
  - now rewrite Hx, IH.
Qed.

Lemma length_replace_char_g (a b : ascii) (s : string) :
  String.length (replace_char_g a b s) = String.length s.
Proof. induction s as [|c s IH]; cbn; [reflexivity | now rewrite IH]. Qed.

Lemma length_replace_char (a b : ascii) (s : string) :
  String.length (replace_char a b s) = String.length s.
Proof.
  induction s as [|c s IH]; cbn; [reflexivity|].
  destruct (Ascii.eqb c a); cbn; [reflexivity | now rewrite IH].
Qed.

Lemma length_slice0 (n : nat) (s : string) : (String.length (slice0 n s) <= n)%nat.
Proof.
  revert s. induction n as [|n IH]; intros [|c s]; cbn; try lia.
  specialize (IH s). lia.
Qed.

(** Whatever the clock returns, the name of the archived log has at most
    19 characters and no colon. *)
Theorem timestamp_has_no_colon (iso : string) :
  free_of ":" (timestamp iso) = true
  /\ (String.length (timestamp iso) <= 19)%nat.
Proof.
  unfold timestamp. split.
  - apply free_of_replace_char; [discriminate|].
    apply free_of_replace_char_g. discriminate.
  - rewrite length_replace_char, length_replace_char_g. apply length_slice0.
Qed.

Lemma slice0_append (a b : string) : slice0 (String.length a) (a +:+ b) = a.
Proof. induction a as [|c a IH]; cbn; [now destruct b | now rewrite IH]. Qed.

Lemma replace_char_g_append (x y : ascii) (a b : string) :
  replace_char_g x y (a +:+ b) = replace_char_g x y a +:+ replace_char_g x y b.
Proof. induction a as [|c a IH]; cbn; [reflexivity | now rewrite IH]. Qed.

Lemma replace_char_g_free (x y : ascii) (a : string) :
  free_of x a = true -> replace_char_g x y a = a.
Proof.
  induction a as [|c a IH]; cbn; [reflexivity|].
  intros [Hc Ha]%andb_prop. apply negb_true_iff in Hc. now rewrite Hc, IH.
Qed.

(** For a clock value [<date>T<time><rest>] whose date has no [T] and no
    colon and whose date and time fill the first 19 characters, the archive
    name is [<date>_<time>] with the colons of the time turned into
    hyphens. *)
Theorem timestamp_of_iso (date time rest : string) :
  String.length (date +:+ "T" +:+ time) = 19%nat ->
  free_of "T" date = true -> free_of ":" date = true ->
  timestamp (date +:+ "T" +:+ time +:+ rest) =
  date +:+ "_" +:+ replace_char_g ":" "-" time.
Proof.
  intros Hlen HT Hc. unfold timestamp.
  replace (date +:+ "T" +:+ time +:+ rest) with ((date +:+ "T" +:+ time) +:+ rest)
    by (rewrite !append_assoc; reflexivity).
  rewrite <- Hlen, slice0_append. cbn [String.append].
  rewrite replace_char_g_append, (replace_char_g_free ":" "-" date Hc).
  cbn [replace_char_g]. change (Ascii.eqb "T" ":") with false. cbv iota.
  assert (Hd : free_of "T" date = true) by exact HT.
  apply (replace_char_append "T" "_" date _ Hd).
Qed.

Lemma timestamp_of_iso_witness :
  timestamp "2026-11-03T12:34:56.789Z" = "2026-11-03_12-34-56".
Proof.
  exact (timestamp_of_iso "2026-11-03" "12:34:56" ".789Z" eq_refl eq_refl eq_refl).
Defined.

(** *** The close listener *)

(** The [close] listener fails only when [latest.log] is a directory.
    Otherwise it releases the handle and ends with the [close] event,
    whether or not there was a log to archive; it writes no other path
    than the archive, and nothing at all when [latest.log] is absent. *)
Theorem on_close_touches_only_the_archive (dir : string) (code : JsValue)
    (iso : string) (st : State) :
  (is_Some (on_close dir code iso st)
   <-> fs st !! Path.join dir "latest.log" <> Some Fs.Dir)
  /\ forall st', on_close dir code iso st = Some st' ->
       minecraftProcess st' = None
       /\ getPID st' = JNull
       /\ last (emitted st') = Some (emit "close" [JStr "Minecraft closed"])
       /\ (forall p, p <> Path.join dir (timestamp iso +:+ ".log") ->
             fs st' !! p = fs st !! p)
       /\ (Fs.existsSync (fs st) (Path.join dir "latest.log") = false ->
           fs st' = fs st).
Proof.
  unfold on_close, Fs.copyFileSync, Fs.existsSync.
  destruct (fs st !! Path.join dir "latest.log") as [[c|]|] eqn:Hl.
  - rewrite bool_decide_eq_true_2 by eauto. split; [split; [discriminate|eauto]|].
    intros st' [= <-]. cbn [minecraftProcess getPID emitted fs].
    repeat split.
    + now rewrite last_app.
    + intros p Hp. now rewrite lookup_insert_ne by congruence.
    + discriminate.
  - rewrite bool_decide_eq_true_2 by eauto. split; [|discriminate].
    split; [intros [? ?]; discriminate | congruence].
  - rewrite bool_decide_eq_false_2 by (intros [? ?]; discriminate).
    split; [split; [discriminate|eauto]|].
    intros st' [= <-]. cbn [minecraftProcess getPID emitted fs].
    repeat split. now rewrite last_app.
Qed.

Lemma on_close_touches_only_the_archive_witness :
  is_Some (on_close Samples.logs (JNum 0) Samples.now_iso Samples.running).
Proof.
  apply (proj2 (proj1 (on_close_touches_only_the_archive Samples.logs (JNum 0)
                         Samples.now_iso Samples.running))).
  vm_compute. discriminate.
Defined.

(** *** killProcess *)

(** [killProcess] signals exactly when a process is held that has not been
    signalled before; it keeps the handle (and so the pid) and the files.
    On the state it leaves, a second call signals nothing, and the callback
    of the five-second timer finds the process marked as killed and sends
    no [SIGKILL]. *)
Theorem killProcess_signals_once (st : State) :
  let st1 := (killProcess st).1 in
  ((killProcess st).2 = true
   <-> exists p, minecraftProcess st = Some p /\ killed p = false)
  /\ (killProcess st1).2 = false
  /\ (KillTimer.force_kill st1).2 = false
  /\ getPID st1 = getPID st
  /\ fs st1 = fs st.
Proof.
  unfold killProcess, KillTimer.force_kill, getPID.
  destruct (minecraftProcess st) as [[pd k]|] eqn:Hp; cbn [killed pid].
  - destruct k; cbn [fst snd minecraftProcess killed fs pid].
    + repeat split; try reflexivity; try discriminate.
      intros (p & [= <-] & Hk). discriminate.
    + repeat split; try reflexivity. eauto.
  - cbn [fst snd minecraftProcess fs]. repeat split; try reflexivity; try discriminate.
    intros (p & Hq & _). discriminate.
Qed.

End LaunchMoreFacts.

(** ** Further properties of the staging of mods (Launch.js, [setupMods]) *)
Module ModsMoreFacts.
Import JsString JsStringFacts Launch.

Lemma split_segments_free (sep : ascii) (s : string) :
  List.Forall (fun w => free_of sep w = true) (split sep s).
Proof.
  induction s as [|c s IH]; cbn [split].
  - repeat constructor.
  - destruct (Ascii.eqb c sep) eqn:Hc.
    + constructor; [reflexivity | exact IH].
    + destruct (split sep s) as [|w ws].
      * repeat constructor. cbn. now rewrite Hc.
      * inversion IH; subst. constructor; [|assumption].
        cbn. rewrite Hc. cbn. assumption.
Qed.

Lemma split_keeps_free (c sep : ascii) (s : string) :
  free_of c s = true -> List.Forall (fun w => free_of c w = true) (split sep s).
Proof.
  induction s as [|x s IH]; cbn [split free_of].
  - repeat constructor.
  - intros [Hx Hs]%andb_prop. specialize (IH Hs).
    destruct (Ascii.eqb x sep).
    + constructor; [reflexivity | exact IH].
    + destruct (split sep s) as [|w ws].
      * repeat constructor. cbn. now rewrite Hx.
      * inversion IH; subst. constructor; [|assumption].
        cbn. rewrite Hx. cbn. assumption.
Qed.

Lemma pop_In (l : list string) (x : string) : pop l = Some x -> In x l.
Proof.
  induction l as [|a l IH]; [discriminate|].
  destruct l as [|b l].
  - cbn. intros [= ->]. now left.
  - rewrite ModsFacts.pop_cons. intros Hp. right. exact (IH Hp).
Qed.

(** The name under which a URL is staged never contains a slash or a
    question mark, whatever the URL: the file lands directly in the mods
    folder. *)
Theorem mod_fileName_is_a_plain_name (url : string) :
  free_of "/" (mod_fileName url) = true
  /\ free_of "?" (mod_fileName url) = true.
Proof.
  unfold mod_fileName.
  destruct (pop (split "/" url)) as [seg|] eqn:Hpop; cbn [to_str].
  - assert (Hseg : free_of "/" seg = true).
    { apply (proj1 (List.Forall_forall _ _) (split_segments_free "/" url)).
      apply pop_In, Hpop. }
    pose proof (split_segments_free "?" seg) as Hq.
    pose proof (split_keeps_free "/" "?" seg Hseg) as Hs.
    destruct (split "?" seg) as [|w ws]; [split; reflexivity|].
    inversion Hq; inversion Hs; subst. cbn. split; assumption.
  - split; reflexivity.
Qed.

Lemma join_nonempty (dir f : string) :
  f <> "" -> Path.join dir f = dir +:+ "/" +:+ f.
Proof. destruct f; [congruence | reflexivity]. Qed.

Lemma modsDir_nonempty (o : Options) : modsDir o <> "".
Proof.
  unfold modsDir. rewrite join_nonempty by discriminate.
  intros Heq. apply (f_equal String.length) in Heq.
  rewrite length_append in Heq. cbn in Heq. lia.
Qed.

(** One iteration in a mods folder that exists: nothing that was on disk
    changes, and afterwards the destination exists. *)
Lemma stage_url_grows remote (dir : string) fs evs (url : string) :
  Fs.existsSync fs dir = true ->
  (forall p n, fs !! p = Some n ->
               (stage_url remote dir (fs, evs) url).1.1 !! p = Some n)
  /\ Fs.existsSync (stage_url remote dir (fs, evs) url).1.1
                   (Path.join dir (mod_fileName url)) = true.
Proof.
  intros Hdir. unfold stage_url.
  destruct (Fs.existsSync fs (Path.join dir (mod_fileName url))) eqn:Hex.
  - split; [auto | exact Hex].
  - assert (Hname : mod_fileName url <> "").
    { intros H0. rewrite H0 in Hex. cbn [Path.join] in Hex. congruence. }
    rewrite (join_nonempty _ _ Hname) in *.
    apply FsFacts.existsSync_none in Hex.
    destruct (DownloaderFacts.downloadFile_fs false remote (fun _ => 0) fs url
                dir (mod_fileName url)) as [c Hc].
    destruct (Downloader.downloadFile false remote _ fs url dir _)
      as [[fs' evs'] out]. cbn [fst] in Hc. subst fs'.
    rewrite (FsFacts.mkdir_if_missing_id _ _ Hdir).
    destruct out; cbn [fst]; (split; [|apply ModsFacts.existsSync_insert]);
      intros p n Hp; unfold Fs.writeFileSync;
      (rewrite lookup_insert_ne; [exact Hp | congruence]).
Qed.

(** The loop keeps what is on disk, and when it gets to its end every
    destination exists. *)
Lemma stage_urls_grows remote (dir : string) (urls : list string) : forall fs evs,
  Fs.existsSync fs dir = true ->
  (forall p n, fs !! p = Some n ->
               (stage_urls remote dir urls (fs, evs)).1.1 !! p = Some n)
  /\ ((stage_urls remote dir urls (fs, evs)).2 = None ->
      List.Forall
        (fun url => Fs.existsSync (stage_urls remote dir urls (fs, evs)).1.1
                                  (Path.join dir (mod_fileName url)) = true) urls).
Proof.
  induction urls as [|url urls IH]; intros fs evs Hdir; cbn [stage_urls].
  - split; [auto | constructor].
  - destruct (stage_url_grows remote dir fs evs url Hdir) as [Hg Hex].
    destruct (stage_url remote dir (fs, evs) url) as [[fs1 evs1] [e|]] eqn:Hst;
      cbn [fst snd] in Hg, Hex |- *.
    + split; [exact Hg | discriminate].
    + destruct (IH fs1 evs1 (FsFacts.existsSync_grows _ _ _ Hg Hdir))
        as [Hg' Hall].
      split; [intros p n Hp; apply Hg', Hg, Hp|].
      intros Hdone. constructor; [|exact (Hall Hdone)].
      exact (FsFacts.existsSync_grows _ _ _ Hg' Hex).
Qed.

Lemma stage_urls_skips remote (dir : string) (urls : list string) : forall fs evs,
  List.Forall (fun url => Fs.existsSync fs (Path.join dir (mod_fileName url)) = true)
              urls ->
  (stage_urls remote dir urls (fs, evs)).1.1 = fs
  /\ (stage_urls remote dir urls (fs, evs)).2 = None.
Proof.
  induction urls as [|url urls IH]; intros fs evs Hall; cbn [stage_urls].
  - split; reflexivity.
  - inversion Hall as [|? ? Hex Hall']; subst.
    unfold stage_url. rewrite Hex. apply IH, Hall'.
Qed.

(** [setupMods] only adds files: whatever was on disk before the call is
    still there, unchanged, after it -- whatever the URLs are and whatever
    the network answers. *)
Theorem setupMods_keeps_existing_files remote (o : Options)
    (fs : gmap string Fs.Node) (p : string) (n : Fs.Node) :
  fs !! p = Some n -> (setupMods remote o fs).1.1 !! p = Some n.
Proof.
  intros Hp. unfold setupMods. destruct (mods o) as [m|]; [|exact Hp].
  pose proof (FsFacts.mkdir_if_missing_exists fs _ (modsDir_nonempty o)) as Hdir.
  pose proof (FsFacts.mkdir_if_missing_grows fs (modsDir o) p n Hp) as Hg.
  destruct (downloadUrls m) as [|u us]; cbn [fst snd]; [exact Hg|].
  apply (stage_urls_grows remote (modsDir o) (u :: us) _ _ Hdir), Hg.
Qed.

Lemma setupMods_keeps_existing_files_witness :
  (setupMods Samples.cdn MoreSamples.mods_options
     {[ "/home/steve/minecraft/options.txt" := Fs.File "fov:90" ]}).1.1
    !! "/home/steve/minecraft/options.txt" = Some (Fs.File "fov:90").
Proof.
  apply (setupMods_keeps_existing_files Samples.cdn MoreSamples.mods_options).
  reflexivity.
Defined.

(** When a run of [setupMods] got to the end of its loop (no download
    was left hanging by a failed body), running it again on the result
    changes no file and gets to the end as well, whatever the network
    answered the first time and answers now: every URL finds its
    destination and is skipped. *)
Theorem setupMods_second_run_changes_nothing remote remote' (o : Options)
    (fs : gmap string Fs.Node) :
  (setupMods remote o fs).2 = None ->
  (setupMods remote' o (setupMods remote o fs).1.1).1.1
  = (setupMods remote o fs).1.1
  /\ (setupMods remote' o (setupMods remote o fs).1.1).2 = None.
Proof.
  unfold setupMods. destruct (mods o) as [m|]; [|split; reflexivity].
  pose proof (FsFacts.mkdir_if_missing_exists fs _ (modsDir_nonempty o)) as Hdir.
  destruct (downloadUrls m) as [|u us]; cbn [fst snd].
  - intros _. now rewrite (FsFacts.mkdir_if_missing_id _ _ Hdir).
  - destruct (stage_urls_grows remote (modsDir o) (u :: us) _
                ([emit "data" [JStr ("🔧 Setting up mods..." +:+ nl)]] ++
                 [emit "data" [JStr ("⬇️  Downloading mods from URLs..." +:+ nl)]])
                Hdir) as [Hg' Hall].
    intros Hdone. specialize (Hall Hdone).
    set (fs1 := (stage_urls _ _ (u :: us) _).1.1) in *.
    assert (Hdir1 : Fs.existsSync fs1 (modsDir o) = true)
      by exact (FsFacts.existsSync_grows _ _ _ Hg' Hdir).
    rewrite (FsFacts.mkdir_if_missing_id _ _ Hdir1).
    apply stage_urls_skips, Hall.
Qed.

Lemma setupMods_second_run_changes_nothing_witness :
  (setupMods MoreSamples.offline_cdn MoreSamples.mods_options
     (setupMods Samples.cdn MoreSamples.mods_options ∅).1.1).1.1
  = (setupMods Samples.cdn MoreSamples.mods_options ∅).1.1.
Proof.
  apply (setupMods_second_run_changes_nothing Samples.cdn MoreSamples.offline_cdn
           MoreSamples.mods_options ∅).
  reflexivity.
Defined.

(** A download that fails leaves a file under the destination name.
    When the request itself failed the file is empty, the failure is
    logged and the loop goes on.  When the body failed the file holds the
    chunks flushed before the writer was destroyed, and the error is
    thrown out of the stream's handler for want of a listener: nothing
    more is logged and the loop does not go on.  In both cases a later
    attempt finds the file and skips the URL, even when the network works
    again. *)
Theorem failed_download_blocks_retry remote remote' (dir url : string)
    (fs : gmap string Fs.Node) (evs : list Event) :
  mod_fileName url <> "" ->
  Fs.existsSync fs (Path.join dir (mod_fileName url)) = false ->
  let st1 := stage_url remote dir (fs, evs) url in
  let dest := Path.join dir (mod_fileName url) in
  let started :=
    evs ++ [emit "data" [JStr ("⬇️  Downloading: " +:+ mod_fileName url +:+ nl)]] in
  (forall e, remote url = FetchRejected e ->
     Fs.readFile st1.1.1 dest = Some ""
     /\ st1.1.2 = started ++
                  [emit "data" [JStr ("❌ Failed to download mod from " +:+ url
                                      +:+ ": " +:+ e +:+ nl)]]
     /\ st1.2 = None)
  /\ (forall chunks e k, remote url = FetchBroken chunks e k ->
     Fs.readFile st1.1.1 dest = Some (join "" (take k chunks))
     /\ st1.1.2 = started
     /\ st1.2 = Some e)
  /\ stage_url remote' dir st1.1 url
     = (st1.1.1,
        st1.1.2 ++ [emit "data" [JStr ("⏭️  Mod already exists: "
                                       +:+ mod_fileName url +:+ nl)]],
        None).
Proof.
  intros Hname Hex st1 dest started.
  destruct (ModsFacts.stage_url_idempotent remote remote' dir url fs evs Hname)
    as [_ Hskip].
  fold st1 in Hskip. split; [|split; [|exact Hskip]].
  - intros e He. subst st1 dest started. unfold stage_url. rewrite Hex.
    rewrite (join_nonempty _ _ Hname).
    unfold Downloader.downloadFile, Fs.readFile, Fs.writeFileSync. rewrite He.
    cbn [fst snd]. now rewrite lookup_insert_eq.
  - intros chunks e k He. subst st1 dest started. unfold stage_url. rewrite Hex.
    rewrite (join_nonempty _ _ Hname).
    unfold Downloader.downloadFile, Fs.readFile, Fs.writeFileSync. rewrite He.
    cbn [fst snd]. now rewrite lookup_insert_eq.
Qed.

Lemma failed_download_blocks_retry_witness :
  let st1 := stage_url MoreSamples.offline_cdn Samples.mods_dir (∅, [])
               Samples.sodium_url in
  Fs.readFile st1.1.1
    (Samples.mods_dir +:+ "/sodium-fabric-0.6.5%2Bmc1.21.4.jar") = Some ""
  /\ (stage_url Samples.cdn Samples.mods_dir st1.1 Samples.sodium_url).1.1
     = st1.1.1.
Proof.
  destruct (failed_download_blocks_retry MoreSamples.offline_cdn Samples.cdn
              Samples.mods_dir Samples.sodium_url ∅ [])
    as (Hrej & _ & Hskip).
  - vm_compute. discriminate.
  - vm_compute. reflexivity.
  - destruct (Hrej "fetch failed" eq_refl) as (Hread & _).
    split; [exact Hread | now rewrite Hskip].
Defined.

End ModsMoreFacts.

(** ** Further properties of the wrapper (launcher-wrapper.js) *)
Module WrapperMoreFacts.
Import Wrapper WrapperTrace.

Lemma wedged_kill (st : State) :
  wedged st ->
  wedged (kill st).1 /\ (kill st).2 = false
  /\ Launch.minecraftProcess (launcher (kill st).1)
     = Launch.minecraftProcess (launcher st)
  /\ live (kill st).1 = live st /\ listeners (kill st).1 = listeners st.
Proof.
  intros [Hr Hp]. unfold kill, wedged. rewrite Hr. cbn [negb orb].
  destruct (Launch.minecraftProcess (launcher st)) as [[pid killed]|] eqn:Hproc.
  - rewrite bool_decide_eq_true_2 by eauto. cbn [negb].
    cbn [Launch.killed] in Hp. subst killed.
    unfold killProcess_awaited, Launch.killProcess. rewrite Hproc.
    destruct pid as [n|]; cbn; rewrite ?Hproc, ?Hr; repeat split; reflexivity.
  - rewrite bool_decide_eq_false_2 by (intros [? ?]; discriminate).
    cbn. rewrite Hr, Hproc. repeat split; reflexivity.
Qed.

Lemma wedged_act (cwd logDir : string) (st : State) (a : Action) :
  wedged st -> is_call a = true ->
  wedged (act cwd logDir st a)
  /\ Launch.minecraftProcess (launcher (act cwd logDir st a))
     = Launch.minecraftProcess (launcher st)
  /\ live (act cwd logDir st a) = live st
  /\ listeners (act cwd logDir st a) = listeners st.
Proof.
  intros Hw Ha. destruct a as [env| | |p code iso|]; try discriminate; cbn [act].
  - destruct Hw as [Hr Hp]. unfold launch. rewrite Hr. cbn [fst].
    repeat split; assumption.
  - destruct (wedged_kill st Hw) as (Hw' & _ & Hp & Hl & Hn).
    split; [exact Hw'|]. repeat split; assumption.
  - destruct Hw as [Hr Hp]. unfold wedged, with_launcher, KillTimer.force_kill.
    cbn [isRunning launcher live listeners].
    destruct (Launch.minecraftProcess (launcher st)) as [[pid killed]|] eqn:Hproc.
    + cbn [Launch.killed] in Hp |- *. subst killed. cbn [fst]. rewrite Hproc.
      repeat split; assumption.
    + cbn [fst]. rewrite Hproc. repeat split; assumption.
Qed.

Lemma wedged_play (cwd logDir : string) (l : list Action) : forall st,
  wedged st -> Forall (fun a => is_call a = true) l ->
  wedged (play cwd logDir st l)
  /\ Launch.minecraftProcess (launcher (play cwd logDir st l))
     = Launch.minecraftProcess (launcher st)
  /\ live (play cwd logDir st l) = live st
  /\ listeners (play cwd logDir st l) = listeners st.
Proof.
  unfold play. induction l as [|a l IH]; intros st Hw Hl; cbn [fold_left].
  - split; [exact Hw|]. repeat split; reflexivity.
  - inversion Hl as [|? ? Ha Hl']; subst.
    destruct (wedged_act cwd logDir st a Hw Ha) as (Hw1 & Hp1 & Hl1 & Hn1).
    destruct (IH _ Hw1 Hl') as (Hw2 & Hp2 & Hl2 & Hn2).
    split; [exact Hw2|]. repeat split; congruence.
Qed.

(** A launch whose pipeline stops with an [error] event before the game
    is spawned, on a wrapper that has launched before (its listeners are
    installed) and holds no process that could still be signalled:
    [launch] returns as if the game had started and sets [isRunning].
    From then on, whatever is called -- [launch], [kill], the timer of
    an earlier kill -- the flag stays set, no process is spawned, [kill]
    returns [false] and every [launch] is refused; when the launcher
    holds no process at all, the state reported is running without a
    process. *)
Theorem failed_launch_wedges_the_wrapper (cwd logDir : string) (st : State)
    (mc : Launch.Authenticator) (l : list Action) :
  isRunning st = false -> heard st = true ->
  match Launch.minecraftProcess (launcher st) with
  | Some p => Launch.killed p = true
  | None => True
  end ->
  Forall (fun a => is_call a = true) l ->
  let r := launch (failing_launch mc) cwd st in
  let st' := play cwd logDir r.1 l in
  r.2 = Returned tt
  /\ isRunning st' = true
  /\ Launch.minecraftProcess (launcher st')
     = Launch.minecraftProcess (launcher st)
  /\ live st' = live st
  /\ (kill st').2 = false
  /\ (forall env,
        launch env cwd st' = (st', Thrown "Minecraft is already running!"))
  /\ (Launch.minecraftProcess (launcher st) = None ->
      getState st' = {| snap_isRunning := true; snap_hasProcess := false;
                        snap_pid := JNull |}).
Proof.
  intros Hr Hh Hp Hl r st'.
  assert (Hrun : r = (installed st (launcher st) (live st), Returned tt)).
  { subst r. unfold launch, failing_launch. rewrite Hr. cbn [login pipeline].
    destruct (WrapperFacts.Launch_launchOptions (heard st) cwd mc) as [o ->].
    now rewrite Hh. }
  assert (Hw1 : wedged r.1).
  { rewrite Hrun. split; [reflexivity | exact Hp]. }
  destruct (wedged_play cwd logDir l r.1 Hw1 Hl) as (Hw & Hproc & Hlive & Hn).
  fold st' in Hw, Hproc, Hlive, Hn. rewrite Hrun in Hproc, Hlive. cbn in Hproc, Hlive.
  split; [now rewrite Hrun|]. split; [apply Hw|].
  split; [exact Hproc|]. split; [exact Hlive|].
  split; [apply (wedged_kill st' Hw)|]. split.
  - intros env. unfold launch. now rewrite (proj1 Hw).
  - intros Hnone. unfold getState, Launch.getPID. rewrite Hproc, Hnone, (proj1 Hw).
    rewrite bool_decide_eq_false_2 by (intros [? ?]; discriminate). reflexivity.
Qed.

Lemma failed_launch_wedges_the_wrapper_witness :
  let st := play "/home/steve" Samples.logs (initial ∅)
              [DoLaunch Samples.first_launch;
               ChildExit 4242 (JNum 0) Samples.now_iso;
               DoLaunch (failing_launch Samples.steve);
               DoKill; DoLaunch Samples.second_launch] in
  isRunning st = true /\ live st = [] /\ (kill st).2 = false
  /\ snap_hasProcess (getState st) = false.
Proof.
  pose (st0 := play "/home/steve" Samples.logs (initial ∅)
                 [DoLaunch Samples.first_launch;
                  ChildExit 4242 (JNum 0) Samples.now_iso]).
  assert (H1 : isRunning st0 = false) by (vm_compute; reflexivity).
  assert (H2 : heard st0 = true) by (vm_compute; reflexivity).
  assert (H3 : Launch.minecraftProcess (launcher st0) = None)
    by (vm_compute; reflexivity).
  assert (H4 : live st0 = []) by (vm_compute; reflexivity).
  destruct (failed_launch_wedges_the_wrapper "/home/steve" Samples.logs
              st0 Samples.steve [DoKill; DoLaunch Samples.second_launch]
              H1 H2 ltac:(rewrite H3; exact I) ltac:(repeat constructor))
    as (_ & Hr & _ & Hl & Hk & _ & Hs).
  split; [exact Hr|]. split; [exact (eq_trans Hl H4)|]. split; [exact Hk|].
  exact (f_equal snap_hasProcess (Hs H3)).
Defined.

End WrapperMoreFacts.

(** ** The Fabric and Quilt library loop (fabric.js, quilt.js) *)
Module FabricMoreFacts.
Import JsString Index Fabric.

Lemma queue_size_app (l : list Forge.DownloadItem) (item : Forge.DownloadItem) :
  queue_size (l ++ [item]) = queue_size l + Forge.dl_size item.
Proof.
  unfold queue_size. induction l as [|x l IH]; cbn [app fold_right]; [lia|].
  rewrite IH. lia.
Qed.

Lemma plan_library_ok o net fs total (libs : list Library) pl lib pl' :
  In lib libs -> plan_ok fs libs pl ->
  plan_library o net fs total pl lib = Some pl' ->
  plan_ok fs libs pl' /\ Forge.checkCount pl' = Forge.checkCount pl + 1.
Proof.
  intros Hin [Hsum Hall]. unfold plan_library.
  destruct (fl_rules lib) eqn:Hrules.
  { intros [= <-]. cbn. split; [split; assumption | reflexivity]. }
  destruct (getPathLibraries (fl_name lib) None None) as [info|] eqn:Hinfo;
    [|discriminate].
  destruct (Fs.existsSync fs _) eqn:Hex.
  { intros [= <-]. cbn. split; [split; assumption | reflexivity]. }
  intros [= <-]. unfold Forge.emit_check, plan_ok.
  cbn [Forge.totalSize Forge.downloadList Forge.checkCount].
  split; [split | reflexivity].
  - rewrite queue_size_app, Hsum. reflexivity.
  - apply List.Forall_app. split; [exact Hall|].
    constructor; [|constructor]. cbn. split; [exact Hex|].
    exists lib, info. auto.
Qed.

Lemma plan_libraries_ok o net fs total (all : list Library) (libs : list Library) :
  forall pl pl',
  (forall lib, In lib libs -> In lib all) -> plan_ok fs all pl ->
  plan_libraries o net fs total pl libs = Some pl' ->
  plan_ok fs all pl'
  /\ Forge.checkCount pl' = Forge.checkCount pl + Z.of_nat (length libs).
Proof.
  induction libs as [|lib libs IH]; intros pl pl' Hsub Hok; cbn [plan_libraries].
  - intros [= <-]. split; [exact Hok | cbn; lia].
  - destruct (plan_library o net fs total pl lib) as [pl1|] eqn:H1; [|discriminate].
    intros Hrest.
    destruct (plan_library_ok o net fs total all pl lib pl1) as [Hok1 Hc1];
      [apply Hsub; now left | exact Hok | exact H1 |].
    destruct (IH pl1 pl') as [Hok' Hc']; [intros x Hx; apply Hsub; now right
                                          | exact Hok1 | exact Hrest |].
    split; [exact Hok'|]. cbn [length]. lia.
Qed.

(** When the loop of [downloadLibraries] completes, every library was
    counted once; the total handed to the downloader is the sum of the
    sizes of the queued files; and every queued file is absent from disk
    and comes from a library that has no [rules] property -- a library that
    has one is never fetched, whatever its rules say. *)
Theorem downloadLibraries_queue (o : Forge.Options) (net : Forge.Net)
    (fs : gmap string Fs.Node) (libraries : list Library) (pl : Forge.Plan) :
  downloadLibraries o net fs libraries = Some pl ->
  Forge.checkCount pl = Z.of_nat (length libraries)
  /\ Forge.totalSize pl = queue_size (Forge.downloadList pl)
  /\ List.Forall
       (fun item =>
          Fs.existsSync fs (Forge.dl_path item) = false
          /\ exists lib info,
               In lib libraries /\ fl_rules lib = None
               /\ getPathLibraries (fl_name lib) None None = Some info
               /\ Forge.dl_name item = name info
               /\ Forge.dl_url item =
                  to_str (fl_url lib) +:+ path info +:+ "/" +:+ name info)
       (Forge.downloadList pl).
Proof.
  unfold downloadLibraries. intros Hplan.
  destruct (fun Hok => plan_libraries_ok o net fs (length libraries) libraries
                          libraries _ pl (fun _ H => H) Hok Hplan)
    as [[Hsum Hall] Hc].
  - split; [reflexivity | constructor].
  - cbn in Hc. repeat split; [lia | exact Hsum | exact Hall].
Qed.

Lemma downloadLibraries_queue_witness :
  exists pl,
    downloadLibraries Samples.forge_options MoreSamples.honest ∅
      MoreSamples.fabric_libraries = Some pl
    /\ Forge.checkCount pl = 2 /\ Forge.totalSize pl = 11
    /\ map Forge.dl_name (Forge.downloadList pl) = ["fabric-loader-0.16.10.jar"].
Proof.
  destruct (downloadLibraries Samples.forge_options MoreSamples.honest ∅
              MoreSamples.fabric_libraries) as [pl|] eqn:Hrun;
    [|vm_compute in Hrun; discriminate].
  exists pl. split; [reflexivity|].
  destruct (downloadLibraries_queue _ _ _ _ _ Hrun) as (Hc & Hsum & _).
  split; [exact Hc|].
  assert (Hpl := Hrun). vm_compute in Hpl. injection Hpl as <-.
  split; reflexivity.
Defined.

End FabricMoreFacts.
